(** * Voice journal: the date-indexed document merge engine

    A shallow embedding of [client/src/utils/textProcessor.ts] (class
    [TextProcessor]) and of the date normaliser of
    [server/services/openaiService.ts] (class [OpenAIService]), with the
    properties of the merge engine stated and proved over it.

    JavaScript strings are sequences of UTF-16 code units; they are modelled
    as lists of [N].  The built-in string and regular-expression operations
    the two classes rely on are modelled first, the classes second, the
    properties last. *)

From Stdlib Require Import Ascii String DecimalString.
From Stdlib Require Import List NArith ZArith Lia Bool Arith.
Import ListNotations.

(* ===================================================================== *)
(** * Part I.  The JavaScript values the program manipulates *)
(* ===================================================================== *)

(** ** Strings *)

Definition char := N.
Definition jsstring := list char.

(** A literal of the source, as code units (the literals are all ASCII). *)
Definition str (s : string) : jsstring :=
  List.map N_of_ascii (list_ascii_of_string s).

Definition NL : char := 10%N.

Fixpoint eqs (a b : jsstring) : bool :=
  match a, b with
  | [], [] => true
  | x :: a', y :: b' => (x =? y)%N && eqs a' b'
  | _, _ => false
  end.

(** WhiteSpace and LineTerminator of ECMAScript: what [trim] strips and what
    [\s] matches. *)
Definition isWhiteSpace (c : char) : bool :=
  ((c =? 9) || (c =? 10) || (c =? 11) || (c =? 12) || (c =? 13) || (c =? 32)
   || (c =? 160) || (c =? 0x1680) || ((0x2000 <=? c) && (c <=? 0x200a))
   || (c =? 0x2028) || (c =? 0x2029) || (c =? 0x202f) || (c =? 0x205f)
   || (c =? 0x3000) || (c =? 0xfeff))%N.

Definition isDigit (c : char) : bool := ((48 <=? c) && (c <=? 57))%N.

Definition isUpperAZ (c : char) : bool := ((65 <=? c) && (c <=? 90))%N.
Definition isLowerAZ (c : char) : bool := ((97 <=? c) && (c <=? 122))%N.

(** [\w] *)
Definition isWord (c : char) : bool :=
  isDigit c || isUpperAZ c || isLowerAZ c || (c =? 95)%N.

Fixpoint trimStart (s : jsstring) : jsstring :=
  match s with
  | [] => []
  | c :: s' => if isWhiteSpace c then trimStart s' else s
  end.

Definition trimEnd (s : jsstring) : jsstring := rev (trimStart (rev s)).

Definition trim (s : jsstring) : jsstring := trimEnd (trimStart s).

Fixpoint startsWith (s p : jsstring) : bool :=
  match p, s with
  | [], _ => true
  | x :: p', y :: s' => (x =? y)%N && startsWith s' p'
  | _ :: _, [] => false
  end.

Definition endsWith (s p : jsstring) : bool := startsWith (rev s) (rev p).

(** [s.includes(sub)] *)
Fixpoint includes (s sub : jsstring) : bool :=
  startsWith s sub ||
  match s with
  | [] => false
  | _ :: s' => includes s' sub
  end.

(** [s.split(sep)] for a one-character separator: never the empty array. *)
Fixpoint split (sep : char) (s : jsstring) : list jsstring :=
  match s with
  | [] => [[]]
  | c :: s' =>
      if (c =? sep)%N then [] :: split sep s'
      else match split sep s' with
           | l :: ls => (c :: l) :: ls
           | [] => [[c]]
           end
  end.

(** [a.join(sep)] *)
Fixpoint join (sep : jsstring) (l : list jsstring) : jsstring :=
  match l with
  | [] => []
  | x :: rest =>
      match rest with
      | [] => x
      | _ :: _ => x ++ sep ++ join sep rest
      end
  end.

(** [a.includes(x)] on an array of strings. *)
Definition arrayIncludes (a : list jsstring) (x : jsstring) : bool :=
  existsb (eqs x) a.

(** [a.findIndex(p)], [None] for -1. *)
Fixpoint findIndex {A : Type} (p : A -> bool) (l : list A) : option nat :=
  match l with
  | [] => None
  | x :: l' => if p x then Some 0
               else match findIndex p l' with
                    | Some i => Some (S i)
                    | None => None
                    end
  end.

(** Basic Latin case mapping of one code unit. *)
Definition lower1 (c : char) : char := if isUpperAZ c then (c + 32)%N else c.
Definition upper1 (c : char) : char := if isLowerAZ c then (c - 32)%N else c.

(** [s.toLowerCase()].  Basic Latin letters are mapped; so are the two code
    units outside Basic Latin whose lower case contains a Basic Latin
    letter (U+212A KELVIN SIGN, U+0130).  Every other code unit is left as it
    is: its lower case is outside Basic Latin and is no white space, so the
    ASCII patterns matched against the result cannot tell the difference. *)
Definition toLowerCase (s : jsstring) : jsstring :=
  flat_map (fun c => if (c =? 0x212a)%N then [107%N]
                     else if (c =? 0x130)%N then [105%N; 0x307%N]
                     else [lower1 c]) s.

(** Decimal numerals: [String(n)] for an integer and [parseInt] of a string
    of digits. *)
Definition stringOfN (n : N) : jsstring :=
  str (NilZero.string_of_uint (N.to_uint n)).

Definition stringOfZ (z : Z) : jsstring :=
  match z with
  | Zneg p => str "-" ++ stringOfN (Npos p)
  | _ => stringOfN (Z.to_N z)
  end.

Definition parseDigits (s : jsstring) : N :=
  fold_left (fun acc c => (10 * acc + (c - 48))%N) s 0%N.

(** ** Regular expressions

    A backtracking matcher in the style of the ECMAScript specification,
    for the constructs the source uses: characters and classes, sequence,
    ordered alternation, greedy bounded and unbounded repetition, capture
    groups, and the assertions [^] and [$] (no [m] flag anywhere).  A matcher
    maps a state to the list of states it can end in, most preferred first;
    a failure is the empty list. *)

Inductive regex : Type :=
| Eps
| Chr (p : char -> bool)
| Seq (r1 r2 : regex)
| Alt (r1 r2 : regex)
| Rep (min : nat) (max : option nat) (r : regex)
| Grp (i : nat) (r : regex)
| Bol
| Eol.

Record mstate : Type := MState {
  pos : nat;                       (* code units before the current position *)
  rest : jsstring;                 (* input from the current position on *)
  caps : list (nat * jsstring)     (* captures set so far *)
}.

Fixpoint groupsOf (r : regex) : list nat :=
  match r with
  | Seq a b | Alt a b => groupsOf a ++ groupsOf b
  | Rep _ _ a => groupsOf a
  | Grp i a => i :: groupsOf a
  | _ => []
  end.

Definition setCap (i : nat) (v : jsstring) (c : list (nat * jsstring)) :=
  (i, v) :: filter (fun kv => negb (fst kv =? i)) c.

Definition clearCaps (gs : list nat) (c : list (nat * jsstring)) :=
  filter (fun kv => negb (existsb (Nat.eqb (fst kv)) gs)) c.

Fixpoint getCap (i : nat) (c : list (nat * jsstring)) : option jsstring :=
  match c with
  | [] => None
  | (k, v) :: c' => if k =? i then Some v else getCap i c'
  end.

Definition decMax (max : option nat) : option nat :=
  match max with
  | Some n => Some (Nat.pred n)
  | None => None
  end.

(** RepeatMatcher, greedy: at most [max] further iterations, at least [min];
    an iteration that consumes nothing once [min] is reached is rejected.
    [fuel] bounds the iterations and is never exhausted when it exceeds
    [min] plus the length of the remaining input. *)
Fixpoint repeat (m : mstate -> list mstate) (gs : list nat) (fuel : nat)
  (min : nat) (max : option nat) (st : mstate) : list mstate :=
  match fuel with
  | O => []
  | S fuel' =>
      match max with
      | Some O => [st]
      | _ =>
          let cleared := MState (pos st) (rest st) (clearCaps gs (caps st)) in
          let more :=
            flat_map (fun st' =>
              if (min =? 0) && (length (rest st) <=? length (rest st'))
              then []
              else repeat m gs fuel' (Nat.pred min) (decMax max) st')
              (m cleared) in
          if min =? 0 then more ++ [st] else more
      end
  end.

Fixpoint run (r : regex) (st : mstate) : list mstate :=
  match r with
  | Eps => [st]
  | Chr p =>
      match rest st with
      | c :: s' => if p c then [MState (S (pos st)) s' (caps st)] else []
      | [] => []
      end
  | Seq r1 r2 => flat_map (run r2) (run r1 st)
  | Alt r1 r2 => run r1 st ++ run r2 st
  | Rep min max r0 =>
      repeat (run r0) (groupsOf r0) (S (min + length (rest st))) min max st
  | Grp i r0 =>
      List.map (fun st' =>
        MState (pos st') (rest st')
          (setCap i (firstn (pos st' - pos st) (rest st)) (caps st')))
        (run r0 st)
  | Bol => if pos st =? 0 then [st] else []
  | Eol => match rest st with [] => [st] | _ :: _ => [] end
  end.

(** The match found when the pattern is tried at the current position and,
    failing that, at each later one: its index, its end and its captures. *)
Fixpoint searchFrom (r : regex) (i : nat) (s : jsstring)
  : option (nat * mstate) :=
  match run r (MState i s []) with
  | st :: _ => Some (i, st)
  | [] => match s with
          | [] => None
          | _ :: s' => searchFrom r (S i) s'
          end
  end.

(** [r.exec(s)] / [s.match(r)] without the [g] flag. *)
Definition exec (r : regex) (s : jsstring) : option (nat * mstate) :=
  searchFrom r 0 s.

(** [r.test(s)] *)
Definition test (r : regex) (s : jsstring) : bool :=
  match exec r s with Some _ => true | None => false end.

(** [s.replace(r, '')] without the [g] flag: the first match is removed. *)
Definition replaceEmpty (r : regex) (s : jsstring) : jsstring :=
  match exec r s with
  | Some (i, st) => firstn i s ++ rest st
  | None => s
  end.

(** [s.split(r)] for a pattern without capture groups (SplitMatcher loop of
    String.prototype.split: [p] is the start of the pending piece, [q] the
    position tried; [piece] holds the code units between them, reversed). *)
Fixpoint splitLoop (r : regex) (fuel : nat) (q : nat) (piece : jsstring)
  (s : jsstring) : list jsstring :=
  match fuel with
  | O => []
  | S fuel' =>
      match s with
      | [] => [rev piece]
      | c :: s' =>
          match run r (MState q s []) with
          | st :: _ =>
              if pos st =? q - length piece
              then splitLoop r fuel' (S q) (c :: piece) s'
              else rev piece :: splitLoop r fuel' (pos st) [] (rest st)
          | [] => splitLoop r fuel' (S q) (c :: piece) s'
          end
      end
  end.

Definition splitRegex (r : regex) (s : jsstring) : list jsstring :=
  match s with
  | [] => match run r (MState 0 [] []) with
          | _ :: _ => []
          | [] => [[]]
          end
  | _ :: _ => splitLoop r (S (2 * length s)) 0 [] s
  end.

(** Pattern syntax used below. *)
Definition chr (c : string) : regex :=
  match str c with
  | [x] => Chr (N.eqb x)
  | _ => Chr (fun _ => false)
  end.

(** A literal under the [i] flag: a Basic Latin letter matches its two
    cases and nothing else (Canonicalize never maps a code unit outside
    Basic Latin into it). *)
Definition chrI (c : char) : regex :=
  Chr (fun x => (x =? upper1 c)%N || (x =? lower1 c)%N).

Fixpoint lit (s : jsstring) : regex :=
  match s with
  | [] => Eps
  | [c] => Chr (N.eqb c)
  | c :: s' => Seq (Chr (N.eqb c)) (lit s')
  end.

Fixpoint litI (s : jsstring) : regex :=
  match s with
  | [] => Eps
  | [c] => chrI c
  | c :: s' => Seq (chrI c) (litI s')
  end.

Definition oneOf (cs : string) : regex :=
  Chr (fun x => existsb (N.eqb x) (str cs)).

Definition plus (r : regex) : regex := Rep 1 None r.
Definition star (r : regex) : regex := Rep 0 None r.
Definition opt (r : regex) : regex := Rep 0 (Some 1) r.
Definition times (lo hi : nat) (r : regex) : regex := Rep lo (Some hi) r.

Definition ws : regex := Chr isWhiteSpace.      (* \s *)
Definition digit : regex := Chr isDigit.        (* \d *)
Definition word : regex := Chr isWord.          (* \w *)

Fixpoint seqs (rs : list regex) : regex :=
  match rs with
  | [] => Eps
  | [r] => r
  | r :: rs' => Seq r (seqs rs')
  end.

(** ** Dates

    The program reads a [Date] only through its local calendar fields, and
    changes one only with [setDate].  A [Date] is modelled by the number of
    its local calendar day, counted from 1 January 1970 (a Thursday); the
    time of day plays no role. *)

Definition Date := Z.

(** Year, month (1 to 12) and day of the month of a day number, in the
    proleptic Gregorian calendar. *)
Definition civil (t : Date) : Z * Z * Z :=
  let z := (t + 719468)%Z in
  let era := (z / 146097)%Z in
  let doe := (z - era * 146097)%Z in
  let yoe := ((doe - doe / 1460 + doe / 36524 - doe / 146096) / 365)%Z in
  let doy := (doe - (365 * yoe + yoe / 4 - yoe / 100))%Z in
  let mp := ((5 * doy + 2) / 153)%Z in
  let d := (doy - (153 * mp + 2) / 5 + 1)%Z in
  let m := (if mp <? 10 then mp + 3 else mp - 9)%Z in
  let y := (yoe + era * 400 + (if m <=? 2 then 1 else 0))%Z in
  (y, m, d).

Definition getFullYear (t : Date) : Z := fst (fst (civil t)).
Definition getMonth (t : Date) : Z := (snd (fst (civil t)) - 1)%Z.
Definition getDate (t : Date) : Z := snd (civil t).
Definition getDay (t : Date) : Z := ((t + 4) mod 7)%Z.

(** [t.setDate(n)]: day [n] of the month of [t], where [n] may fall outside
    the month; the first of the month is day [t - getDate t + 1]. *)
Definition setDate (t : Date) (n : Z) : Date := (t - getDate t + n)%Z.

(* ===================================================================== *)
(** * Part II.  The program *)
(* ===================================================================== *)

(** The pattern [/^\d{1,2}\.\d{1,2}\.\d{4}$/], written out at each of its
    uses in both classes. *)
Definition DATE_HEADER : regex :=
  seqs [Bol; times 1 2 digit; chr "."; times 1 2 digit; chr ".";
        times 4 4 digit; Eol].

(** [`${today.getMonth() + 1}.${today.getDate()}.${today.getFullYear()}`];
    [today] stands for [new Date()]. *)
Definition formatDate (today : Date) : jsstring :=
  stringOfZ (getMonth today + 1) ++ str "." ++ stringOfZ (getDate today)
  ++ str "." ++ stringOfZ (getFullYear today).

(** The interfaces [ProcessedText], [DateSection] and
    [MultiDateSynthesisResult] of the client; an optional field is an
    [option], an optional flag is [false] when absent. *)
Module ProcessedText.
Record t : Type := Make {
  bullets : list jsstring;
  dateHeader : jsstring;
  synthesized : bool;
  originalLength : option N;
  summarizedLength : option N
}.
End ProcessedText.

Module DateSection.
Record t : Type := Make {
  date : jsstring;
  events : list jsstring
}.
End DateSection.

Module MultiDateSynthesisResult.
Record t : Type := Make {
  dateSections : list DateSection.t;
  originalLength : N;
  summarizedLength : N;
  fallback : bool
}.
End MultiDateSynthesisResult.

Module TextProcessor.

Definition SPLITTER_REGEX : regex :=
  Alt (Seq (chr ".") (Alt ws Eol))
      (Alt (chr ";")
           (seqs [opt (chr ","); star ws;
                  Alt (litI (str "and then")) (litI (str "then")); plus ws])).

Definition PREFIXES_TO_REMOVE : list regex :=
  [ seqs [Bol; litI (str "I"); plus ws];
    seqs [Bol; litI (str "I'm"); plus ws];
    seqs [Bol; litI (str "I"); plus ws; litI (str "went"); plus ws;
          litI (str "and"); plus ws];
    seqs [Bol; litI (str "I"); plus ws; litI (str "had"); plus ws];
    seqs [Bol; litI (str "I"); plus ws; litI (str "was"); plus ws];
    seqs [Bol; litI (str "I"); plus ws; litI (str "did"); plus ws];
    seqs [Bol; litI (str "then"); plus ws; litI (str "I"); plus ws];
    seqs [Bol; litI (str "and"); plus ws; litI (str "I"); plus ws];
    seqs [Bol; litI (str "so"); plus ws; litI (str "I"); plus ws];
    seqs [Bol; litI (str "after"); plus ws; litI (str "that"); plus ws;
          litI (str "I"); plus ws] ].

(** [/[.!?]+$/] *)
Definition TRAILING_PUNCTUATION : regex := Seq (plus (oneOf ".!?")) Eol.

Definition formatDateHeader (today : Date) : jsstring := formatDate today.

Definition splitIntoBullets (text : jsstring) : list jsstring :=
  filter (fun bullet => 0 <? length bullet)
         (List.map trim (splitRegex SPLITTER_REGEX text)).

Section CleanBullet.

(** [String.prototype.toUpperCase], left abstract: the program applies it
    to the first code unit of a piece and nothing below depends on what it
    returns. *)
Variable toUpperCase : jsstring -> jsstring.

Definition cleanBullet (bullet : jsstring) : jsstring :=
  let cleaned := trim bullet in
  let cleaned :=
    fold_left (fun cleaned prefix => replaceEmpty prefix cleaned)
              PREFIXES_TO_REMOVE cleaned in
  let cleaned :=
    if 0 <? length cleaned
    then toUpperCase (firstn 1 cleaned) ++ skipn 1 cleaned
    else cleaned in
  let cleaned := replaceEmpty TRAILING_PUNCTUATION cleaned in
  trim cleaned.

End CleanBullet.

Definition hasDateHeader (journalContent dateHeader : jsstring) : bool :=
  existsb (fun line => eqs (trim line) dateHeader) (split NL journalContent).

Definition hasMultipleDates (newBullets : list jsstring) : bool :=
  existsb (fun bullet => test DATE_HEADER (trim bullet)) newBullets.

(** [new Set<string>()] filled with [add] and read with [Array.from]:
    insertion order, no duplicates. *)
Definition setAdd (x : jsstring) (s : list jsstring) : list jsstring :=
  if arrayIncludes s x then s else s ++ [x].

Definition getAffectedDates (today : Date) (newBullets : list jsstring)
  : list jsstring :=
  if hasMultipleDates newBullets then
    fold_left (fun affectedDatesSet bullet =>
                 let trimmed := trim bullet in
                 if test DATE_HEADER trimmed
                 then setAdd trimmed affectedDatesSet
                 else affectedDatesSet)
              newBullets []
  else setAdd (formatDateHeader today) [].

Definition getExistingDates (journalContent : jsstring)
  (affectedDates : list jsstring) : list jsstring :=
  filter (fun date => hasDateHeader journalContent date) affectedDates.

(** The object [dateEvents]: its keys are date headers, which are never
    integer-like and never names of [Object.prototype], so [Object.entries]
    lists them in the order of their first assignment.  An association list
    in that order. *)
Definition dateEventsT := list (jsstring * list jsstring).

Fixpoint hasKey (date : jsstring) (dateEvents : dateEventsT) : bool :=
  match dateEvents with
  | [] => false
  | (k, _) :: de' => eqs k date || hasKey date de'
  end.

(** [dateEvents[date].push(event)] *)
Fixpoint pushEvent (date event : jsstring) (dateEvents : dateEventsT)
  : dateEventsT :=
  match dateEvents with
  | [] => []
  | (k, v) :: de' =>
      if eqs k date then (k, v ++ [event]) :: de'
      else (k, v) :: pushEvent date event de'
  end.

(** One turn of the loop that parses the new bullets into date sections;
    the state is [currentDate] and [dateEvents]. *)
Definition parseBullet (st : jsstring * dateEventsT) (bullet : jsstring)
  : jsstring * dateEventsT :=
  let '(currentDate, dateEvents) := st in
  let trimmed := trim bullet in
  if test DATE_HEADER trimmed then
    (trimmed,
     if hasKey trimmed dateEvents then dateEvents
     else dateEvents ++ [(trimmed, [])])
  else if startsWith trimmed (str "- ") && (0 <? length currentDate) then
    (currentDate, pushEvent currentDate trimmed dateEvents)
  else st.

Definition parseDateEvents (newBullets : list jsstring) : dateEventsT :=
  snd (fold_left parseBullet newBullets ([], [])).

(** [while (i < lines.length && p(lines[i])) i++], entered with
    [tail] the lines from index [i] on. *)
Fixpoint scanWhile (p : jsstring -> bool) (tail : list jsstring) (i : nat)
  : nat :=
  match tail with
  | [] => i
  | line :: tail' => if p line then scanWhile p tail' (S i) else i
  end.

(** The body of the loop of [mergeMultiDateContent] over
    [Object.entries(dateEvents)]. *)
Definition mergeDateSection (result : jsstring)
  (entry : jsstring * list jsstring) : jsstring :=
  let '(date, events) := entry in
  if length events =? 0 then result
  else if negb (hasDateHeader result date) then
    (if 0 <? length result then result ++ [NL; NL] else result)
    ++ date ++ [NL] ++ join [NL] events
  else
    let lines := split NL result in
    match findIndex (fun line => eqs (trim line) date) lines with
    | None => result
    | Some dateIndex =>
        let insertIndex :=
          scanWhile (fun line => startsWith line (str "- ")
                                 || eqs (trim line) [])
                    (skipn (dateIndex + 1) lines) (dateIndex + 1) in
        join [NL] (firstn insertIndex lines ++ events
                   ++ skipn insertIndex lines)
    end.

Definition mergeMultiDateContent (currentContent : jsstring)
  (newBullets : list jsstring) : jsstring :=
  fold_left mergeDateSection (parseDateEvents newBullets)
            (trim currentContent).

Definition appendToJournal (today : Date) (currentContent : jsstring)
  (newBullets : list jsstring) : jsstring :=
  if length newBullets =? 0 then currentContent
  else if hasMultipleDates newBullets then
    mergeMultiDateContent currentContent newBullets
  else
    let dateHeader := formatDateHeader today in
    let hasDate := hasDateHeader currentContent dateHeader in
    let result := trim currentContent in
    let result :=
      if negb hasDate then
        (if 0 <? length result
         then result ++ [NL; NL] else result) ++ dateHeader ++ [NL]
      else if (0 <? length result) && negb (endsWith result [NL]) then
        result ++ [NL]
      else result in
    result ++ join [NL] newBullets.

Definition overwriteSingleDate (today : Date) (currentContent : jsstring)
  (newBullets : list jsstring) (dateToOverwrite : jsstring) : jsstring :=
  let lines := split NL currentContent in
  match findIndex (fun line => eqs (trim line) dateToOverwrite) lines with
  | None =>
      appendToJournal today currentContent (dateToOverwrite :: newBullets)
  | Some dateIndex =>
      let endIndex :=
        scanWhile (fun line => negb (test DATE_HEADER (trim line)))
                  (skipn (dateIndex + 1) lines) (dateIndex + 1) in
      let before := firstn (dateIndex + 1) lines in
      let after := skipn endIndex lines in
      join [NL] (before ++ newBullets ++ after)
  end.

(** The body of the loop of [overwriteMultiDateContent]. *)
Definition overwriteDateSection (today : Date)
  (datesToOverwrite : list jsstring) (result : jsstring)
  (entry : jsstring * list jsstring) : jsstring :=
  let '(date, events) := entry in
  if length events =? 0 then result
  else if arrayIncludes datesToOverwrite date then
    overwriteSingleDate today result events date
  else
    appendToJournal today result (date :: events).

Definition overwriteMultiDateContent (today : Date)
  (currentContent : jsstring) (newBullets : list jsstring)
  (datesToOverwrite : list jsstring) : jsstring :=
  fold_left (overwriteDateSection today datesToOverwrite)
            (parseDateEvents newBullets) currentContent.

Definition overwriteJournal (today : Date) (currentContent : jsstring)
  (newBullets : list jsstring) (datesToOverwrite : list jsstring)
  : jsstring :=
  if length newBullets =? 0 then currentContent
  else if hasMultipleDates newBullets then
    overwriteMultiDateContent today currentContent newBullets datesToOverwrite
  else
    let dateHeader := formatDateHeader today in
    if arrayIncludes datesToOverwrite dateHeader then
      overwriteSingleDate today currentContent newBullets dateHeader
    else
      appendToJournal today currentContent newBullets.

Section ProcessText.

Variable toUpperCase : jsstring -> jsstring.

Definition processText (today : Date) (speechText : jsstring)
  : ProcessedText.t :=
  let dateHeader := formatDateHeader today in
  let rawBullets := splitIntoBullets speechText in
  let bullets :=
    List.map (fun bullet => str "- " ++ bullet)
      (filter (fun bullet => 0 <? length bullet)
         (List.map (cleanBullet toUpperCase) rawBullets)) in
  ProcessedText.Make bullets dateHeader false None None.

Definition synthesizeTextSingleDate (today : Date) (speechText : jsstring)
  : ProcessedText.t :=
  processText today speechText.

(** One turn of the loop of [synthesizeText] over [result.dateSections]. *)
Definition pushSection (allBullets : list jsstring) (section : DateSection.t)
  : list jsstring :=
  if 0 <? length (DateSection.events section) then
    (allBullets ++ [[]]) ++ [DateSection.date section]
    ++ List.map (fun event => str "- " ++ trim event)
                (DateSection.events section)
  else allBullets.

(** [synthesizeText]: [response] is the answer of [/api/synthesize] read as
    a [MultiDateSynthesisResult], [None] when the request throws or is not
    [ok], which is the [catch] branch. *)
Definition synthesizeText (today : Date)
  (response : option MultiDateSynthesisResult.t) (speechText : jsstring)
  : ProcessedText.t :=
  match response with
  | Some result =>
      let allBullets :=
        fold_left pushSection
                  (MultiDateSynthesisResult.dateSections result) [] in
      let allBullets :=
        match allBullets with
        | [] :: shifted => shifted
        | _ => allBullets
        end in
      ProcessedText.Make allBullets []
        (negb (MultiDateSynthesisResult.fallback result))
        (Some (MultiDateSynthesisResult.originalLength result))
        (Some (MultiDateSynthesisResult.summarizedLength result))
  | None => synthesizeTextSingleDate today speechText
  end.

End ProcessText.





End TextProcessor.

Module OpenAIService.

Definition formatDateHeader (today : Date) : jsstring := formatDate today.

(** [/^(\d{1,2})[\/\-](\d{1,2})[\/\-](\d{4})$/] *)
Definition FULL_DATE : regex :=
  seqs [Bol; Grp 1 (times 1 2 digit); oneOf "/-"; Grp 2 (times 1 2 digit);
        oneOf "/-"; Grp 3 (times 4 4 digit); Eol].

(** [/^(\d{1,2})[\/\-](\d{1,2})$/] *)
Definition SHORT_DATE : regex :=
  seqs [Bol; Grp 1 (times 1 2 digit); oneOf "/-"; Grp 2 (times 1 2 digit);
        Eol].

(** [/(?:last\s+)?(\w+day)/] *)
Definition DAY_NAME : regex :=
  Seq (opt (Seq (lit (str "last")) (plus ws)))
      (Grp 1 (Seq (plus word) (lit (str "day")))).

(** [/(\w+)\s+(\d{1,2})(?:st|nd|rd|th)?(?:\s+(\d{4}))?/] *)
Definition MONTH_NAME : regex :=
  seqs [Grp 1 (plus word); plus ws; Grp 2 (times 1 2 digit);
        opt (Alt (lit (str "st")) (Alt (lit (str "nd"))
                 (Alt (lit (str "rd")) (lit (str "th")))));
        opt (Seq (plus ws) (Grp 3 (times 4 4 digit)))].

Definition dayNames : list jsstring :=
  List.map str ["sunday"; "monday"; "tuesday"; "wednesday"; "thursday";
                "friday"; "saturday"]%string.

Definition monthNames : list jsstring :=
  List.map str ["january"; "february"; "march"; "april"; "may"; "june";
                "july"; "august"; "september"; "october"; "november";
                "december"]%string.

(** A capture of a match, the empty string for one that did not take part
    (none is read below without being tested first). *)
Definition group (i : nat) (m : nat * mstate) : jsstring :=
  match getCap i (caps (snd m)) with
  | Some v => v
  | None => []
  end.

(** [normalizeDateFormat]: [None] is [null].  The steps are those of the
    source, in its order; [today] stands for [new Date()]. *)
Definition normalizeDateFormat (today : Date) (dateStr : jsstring)
  : option jsstring :=
  if length dateStr =? 0 then None
  else
  let currentYear := getFullYear today in
  if test DATE_HEADER dateStr then Some dateStr
  else
  match exec FULL_DATE dateStr with
  | Some fullDateMatch =>
      Some (stringOfN (parseDigits (group 1 fullDateMatch)) ++ str "."
            ++ stringOfN (parseDigits (group 2 fullDateMatch)) ++ str "."
            ++ group 3 fullDateMatch)
  | None =>
  match exec SHORT_DATE dateStr with
  | Some shortDateMatch =>
      Some (stringOfN (parseDigits (group 1 shortDateMatch)) ++ str "."
            ++ stringOfN (parseDigits (group 2 shortDateMatch)) ++ str "."
            ++ stringOfZ currentYear)
  | None =>
  if includes (toLowerCase dateStr) (str "today") then
    Some (formatDateHeader today)
  else if includes (toLowerCase dateStr) (str "yesterday") then
    let yesterday := setDate today (getDate today - 1) in
    Some (formatDate yesterday)
  else
  let dayResult :=
    match exec DAY_NAME (toLowerCase dateStr) with
    | Some dayMatch =>
        match findIndex (fun day => startsWith day
                                      (toLowerCase (group 1 dayMatch)))
                        dayNames with
        | Some dayIndex =>
            let currentDay := getDay today in
            let daysBack := (currentDay - Z.of_nat dayIndex)%Z in
            let daysBack :=
              if (daysBack <=? 0)%Z then (daysBack + 7)%Z else daysBack in
            let daysBack :=
              if includes (toLowerCase dateStr) (str "last")
              then (daysBack + 7)%Z else daysBack in
            let targetDate := setDate today (getDate today - daysBack) in
            Some (formatDate targetDate)
        | None => None
        end
    | None => None
    end in
  match dayResult with
  | Some r => Some r
  | None =>
  match exec MONTH_NAME (toLowerCase dateStr) with
  | Some monthMatch =>
      match findIndex (fun month => startsWith month
                                      (toLowerCase (group 1 monthMatch)))
                      monthNames with
      | Some monthIndex =>
          let day := parseDigits (group 2 monthMatch) in
          let year :=
            match getCap 3 (caps (snd monthMatch)) with
            | Some y => Z.of_N (parseDigits y)
            | None => currentYear
            end in
          Some (stringOfN (N.of_nat monthIndex + 1) ++ str "."
                ++ stringOfN day ++ str "." ++ stringOfZ year)
      | None => None
      end
  | None => None
  end
  end
  end
  end.

End OpenAIService.

(* ===================================================================== *)
(** * Part III.  Vocabulary of the properties *)
(* ===================================================================== *)

Import TextProcessor.

(** ** Documents *)

(** The lines of a document. *)
Definition docLines (doc : jsstring) : list jsstring := split NL doc.

(** A line is a header when its trimmed form is a canonical date key. *)
Definition isHeaderLine (line : jsstring) : bool :=
  test DATE_HEADER (trim line).

(** The keys of the header lines of a document, top to bottom. *)
Definition headers (doc : jsstring) : list jsstring :=
  filter (test DATE_HEADER) (List.map trim (docLines doc)).


(** A string without line break, and a payload of such strings. *)
Definition oneLine (s : jsstring) : Prop := ~ In NL s.
Definition singleLines (bullets : list jsstring) : Prop :=
  Forall oneLine bullets.

(** No white space at either end: what [trim] returns. *)
Definition trimmed (s : jsstring) : Prop := trim s = s.

(** A string of white space only. *)
Definition allWs (s : jsstring) : Prop :=
  Forall (fun c => isWhiteSpace c = true) s.

(** A text that starts, or ends, with a code unit that is no white space. *)
Definition headOk (s : jsstring) : Prop :=
  exists c t, s = c :: t /\ isWhiteSpace c = false.
Definition lastOk (s : jsstring) : Prop :=
  exists a d, s = a ++ [d] /\ isWhiteSpace d = false.

(** ** Payloads *)

(** The payload lines the parser retains: those that come after a header
    and whose trimmed form starts with "- ". *)
Definition isEntryLine (line : jsstring) : bool :=
  startsWith (trim line) (str "- ").

(** An entry as the parser of the new bullets retains it. *)
Definition isEvent (e : jsstring) : Prop :=
  startsWith e (str "- ") = true /\ trimmed e.

(** A date section as the parser builds it. *)
Definition isSection (entry : jsstring * list jsstring) : Prop :=
  test DATE_HEADER (fst entry) = true /\ Forall isEvent (snd entry).

(** What holds of the parser's state after any number of bullets. *)
Definition parserInv (st : jsstring * dateEventsT) : Prop :=
  Forall isSection (snd st) /\ NoDup (List.map fst (snd st)).

(** The date sections that take part in a merge: those with an event. *)
Definition hasEvents (entry : jsstring * list jsstring) : bool :=
  negb (length (snd entry) =? 0).

Definition groupsOfPayload (bullets : list jsstring) : dateEventsT :=
  filter hasEvents (parseDateEvents bullets).

(** The lines a list of events adds to a document (the events themselves
    when none holds a line break). *)
Definition eventLines (events : list jsstring) : list jsstring :=
  flat_map (split NL) events.

(** The dates of the sections [gs] that have no header among [hs], in the
    order of [gs]. *)
Definition newDates (hs : list jsstring) (gs : dateEventsT) : list jsstring :=
  filter (fun d => negb (arrayIncludes hs d)) (List.map fst gs).

(** A new section written at the end of a text. *)
Definition appendSection (r : jsstring) (entry : jsstring * list jsstring)
  : jsstring :=
  (if 0 <? length r then r ++ [NL; NL] else r)
  ++ fst entry ++ [NL] ++ join [NL] (snd entry).

(** The dates of the payload whose section is overwritten. *)
Definition overwrittenDates (dates bullets : list jsstring) : list jsstring :=
  filter (arrayIncludes dates) (List.map fst (groupsOfPayload bullets)).

(** ** Scans and frames *)

(** Where a scan stops: after the longest run of lines satisfying [p]. *)
Definition stopsAt (p : jsstring -> bool) (tail : list jsstring) : Prop :=
  match tail with
  | [] => True
  | x :: _ => p x = false
  end.

(** The lines the append scan steps over below a header. *)
Definition entryOrBlank (line : jsstring) : bool :=
  startsWith line (str "- ") || eqs (trim line) [].

(** [l1] is [l2] with some elements left out. *)
Inductive sublist {A : Type} : list A -> list A -> Prop :=
| sublist_nil : sublist [] []
| sublist_skip : forall x l1 l2, sublist l1 l2 -> sublist l1 (x :: l2)
| sublist_cons : forall x l1 l2, sublist l1 l2 -> sublist (x :: l1) (x :: l2).

(** The lines of a document outside the bodies of the sections whose key is
    in [dates]: header lines stay, and so does every line of the prologue and
    of the other sections.  [inside] tells whether the last header seen has
    its key in [dates]. *)
Fixpoint outsideOf (dates : list jsstring) (inside : bool)
  (lines : list jsstring) : list jsstring :=
  match lines with
  | [] => []
  | line :: lines' =>
      if isHeaderLine line
      then line :: outsideOf dates (arrayIncludes dates (trim line)) lines'
      else if inside then outsideOf dates inside lines'
           else line :: outsideOf dates inside lines'
  end.

(** The value of [inside] after [outsideOf] has gone through [lines]. *)
Fixpoint insideAfter (dates : list jsstring) (inside : bool)
  (lines : list jsstring) : bool :=
  match lines with
  | [] => inside
  | line :: lines' =>
      insideAfter dates
        (if isHeaderLine line then arrayIncludes dates (trim line)
         else inside) lines'
  end.

(** ** Patterns *)

(** Code units a pattern can consume, and the shape of anchored patterns. *)
Fixpoint alphabet (r : regex) (c : char) : bool :=
  match r with
  | Chr p => p c
  | Seq a b | Alt a b => alphabet a c || alphabet b c
  | Rep _ _ a | Grp _ a => alphabet a c
  | _ => false
  end.

Fixpoint startsWithBol (r : regex) : bool :=
  match r with
  | Bol => true
  | Seq a _ => startsWithBol a
  | _ => false
  end.

Fixpoint endsWithEol (r : regex) : bool :=
  match r with
  | Eol => true
  | Seq _ b => endsWithEol b
  | _ => false
  end.

(** [st'] is [st] after some code units accepted by [A] were consumed. *)
Definition consumes (A : char -> bool) (st st' : mstate) : Prop :=
  exists w, rest st = w ++ rest st' /\ Forall (fun c => A c = true) w
            /\ pos st' = pos st + length w.

(** The end states of [p*] at a position, longest match first. *)
Fixpoint classStates (p : char -> bool) (pos : nat) (s : jsstring)
  : list mstate :=
  match s with
  | [] => [MState pos [] []]
  | c :: s' =>
      if p c then classStates p (S pos) s' ++ [MState pos s []]
      else [MState pos s []]
  end.

Definition firstRest (l : list mstate) : option jsstring :=
  match l with
  | st :: _ => Some (rest st)
  | [] => None
  end.

(** The pattern of a list of words: each word, then [\s+]. *)
Fixpoint wordsRegex (words : list jsstring) : regex :=
  match words with
  | [] => Eps
  | w :: words' =>
      match words' with
      | [] => Seq (litI w) (plus ws)
      | _ :: _ => Seq (litI w) (Seq (plus ws) (wordsRegex words'))
      end
  end.

(** A word that starts with a code unit that is no white space in either
    case. *)
Definition goodWord (w : jsstring) : Prop :=
  match w with
  | c :: _ => isWhiteSpace (upper1 c) = false
              /\ isWhiteSpace (lower1 c) = false
  | [] => False
  end.

(** ** Cleanup of a piece, described without patterns *)

(** [w] read at the start of [s] whatever the case of its letters: what
    follows it. *)
Fixpoint dropLitI (w s : jsstring) : option jsstring :=
  match w with
  | [] => Some s
  | c :: w' =>
      match s with
      | x :: s' =>
          if ((x =? upper1 c) || (x =? lower1 c))%N then dropLitI w' s'
          else None
      | [] => None
      end
  end.

(** One white space at least, and all that follow. *)
Definition dropSpaces (s : jsstring) : option jsstring :=
  match s with
  | c :: s' => if isWhiteSpace c then Some (trimStart s') else None
  | [] => None
  end.

(** Each word of [words] followed by white space. *)
Fixpoint dropWords (words : list jsstring) (s : jsstring)
  : option jsstring :=
  match words with
  | [] => Some s
  | w :: words' =>
      match dropLitI w s with
      | Some s1 =>
          match dropSpaces s1 with
          | Some s2 => dropWords words' s2
          | None => None
          end
      | None => None
      end
  end.

Definition stripPrefix (words : list jsstring) (s : jsstring) : jsstring :=
  match dropWords words s with
  | Some r => r
  | None => s
  end.

(** The words of the ten patterns of [PREFIXES_TO_REMOVE]. *)
Definition PREFIX_WORDS : list (list jsstring) :=
  List.map (List.map str)
    [ ["I"]; ["I'm"]; ["I"; "went"; "and"]; ["I"; "had"]; ["I"; "was"];
      ["I"; "did"]; ["then"; "I"]; ["and"; "I"]; ["so"; "I"];
      ["after"; "that"; "I"] ]%string.

Definition isTrailingPunct (c : char) : bool :=
  existsb (N.eqb c) (str ".!?").

(** [s] without the run of '.', '!', '?' it ends with. *)
Fixpoint stripTrailing (s : jsstring) : jsstring :=
  match s with
  | [] => []
  | c :: s' =>
      if forallb isTrailingPunct (c :: s') then [] else c :: stripTrailing s'
  end.

Definition capitalizeFirst (toUpperCase : jsstring -> jsstring)
  (s : jsstring) : jsstring :=
  match s with
  | [] => []
  | c :: s' => toUpperCase [c] ++ s'
  end.

(** What [cleanBullet] does, step by step: every word list of
    [PREFIX_WORDS] is tried once, in order, on what the earlier ones left. *)
Definition cleanBulletSteps (toUpperCase : jsstring -> jsstring)
  (bullet : jsstring) : jsstring :=
  trim (stripTrailing (capitalizeFirst toUpperCase
          (fold_left (fun s words => stripPrefix words s) PREFIX_WORDS
                     (trim bullet)))).

(** Cleanup as the specification words it: the first prefix that matches is
    stripped and no other. *)
Fixpoint stripFirstMatch (prefixes : list regex) (s : jsstring) : jsstring :=
  match prefixes with
  | [] => s
  | p :: prefixes' =>
      if test p s then replaceEmpty p s else stripFirstMatch prefixes' s
  end.

Definition cleanBulletAsSpecified (toUpperCase : jsstring -> jsstring)
  (piece : jsstring) : jsstring :=
  trim (replaceEmpty TRAILING_PUNCTUATION
          (capitalizeFirst toUpperCase
             (stripFirstMatch PREFIXES_TO_REMOVE (trim piece)))).

(** Basic Latin upper-casing, for the examples. *)
Definition toUpperCaseAscii (s : jsstring) : jsstring := List.map upper1 s.

(** ** Weekdays *)

Inductive weekday : Type :=
| Sunday | Monday | Tuesday | Wednesday | Thursday | Friday | Saturday.

(** The index of a weekday in [dayNames], which is what [getDay] returns
    on such a day. *)
Definition dayIndex (w : weekday) : Z :=
  match w with
  | Sunday => 0 | Monday => 1 | Tuesday => 2 | Wednesday => 3
  | Thursday => 4 | Friday => 5 | Saturday => 6
  end%Z.

Definition dayName (w : weekday) : jsstring :=
  str (match w with
       | Sunday => "sunday" | Monday => "monday" | Tuesday => "tuesday"
       | Wednesday => "wednesday" | Thursday => "thursday"
       | Friday => "friday" | Saturday => "saturday"
       end).

Definition titleName (w : weekday) : jsstring :=
  str (match w with
       | Sunday => "Sunday" | Monday => "Monday" | Tuesday => "Tuesday"
       | Wednesday => "Wednesday" | Thursday => "Thursday"
       | Friday => "Friday" | Saturday => "Saturday"
       end).

(** How many days before [today] the last [w] not later than yesterday
    is. *)
Definition daysBackTo (today : Date) (w : weekday) : Z :=
  let d := (getDay today - dayIndex w)%Z in
  if (d <=? 0)%Z then (d + 7)%Z else d.

(** ** Synthesized payloads *)

(** The entry lines [synthesizeText] writes for a section that the parser
    of the payload retains: those of the events that are not blank. *)
Definition sectionEntries (section : DateSection.t) : list jsstring :=
  List.map (fun event => str "- " ++ trim event)
    (filter (fun event => 0 <? length (trim event))
            (DateSection.events section)).

(** The date sections of a synthesis result that hold an event, as the
    parser of the payload is to read them back. *)
Definition sectionsWritten (dateSections : list DateSection.t) : dateEventsT :=
  List.map (fun section => (DateSection.date section, sectionEntries section))
    (filter (fun section => 0 <? length (DateSection.events section))
            dateSections).

(** The payload lines of one section of a synthesis result. *)
Definition sectionBlock (section : DateSection.t) : list jsstring :=
  if 0 <? length (DateSection.events section) then
    [] :: DateSection.date section
    :: List.map (fun event => str "- " ++ trim event)
                (DateSection.events section)
  else [].

(** ** Section texts *)

(** The text of a section: its date, then its events, one per line. *)
Definition sectionText (entry : jsstring * list jsstring) : jsstring :=
  fst entry ++ [NL] ++ join [NL] (snd entry).

(** A text as a list of texts, empty when the text is. *)
Definition nonEmptyText (r : jsstring) : list jsstring :=
  if 0 <? length r then [r] else [].

(** ** Previews *)


(** ** Numerals *)

(** One or two digits, four digits; the separators of a numeric date. *)
Definition digits12 (s : jsstring) : Prop :=
  Forall (fun c => isDigit c = true) s /\ (length s = 1 \/ length s = 2).
Definition digits4 (s : jsstring) : Prop :=
  Forall (fun c => isDigit c = true) s /\ length s = 4.
Definition isDateSep (c : char) : bool := ((c =? 47) || (c =? 45))%N.

(** Between [lo] and [hi] code units, all of them digits. *)
Definition checkDigits (lo hi : nat) (s : jsstring) : bool :=
  forallb isDigit s && (lo <=? length s) && (length s <=? hi).

(* ===================================================================== *)
(** * Part IV.  Properties *)
(* ===================================================================== *)

(** ** Strings *)

Lemma eqs_eq (a b : jsstring) : eqs a b = true <-> a = b.
Proof.
  revert b; induction a as [|x a IH]; intros [|y b]; simpl;
    try (split; congruence).
  rewrite andb_true_iff, N.eqb_eq, IH. split.
  - intros [-> ->]; reflexivity.
  - intros H; inversion H; auto.
Qed.

Lemma eqs_refl (a : jsstring) : eqs a a = true.
Proof. apply eqs_eq; reflexivity. Qed.

Lemma eqs_neq (a b : jsstring) : eqs a b = false <-> a <> b.
Proof.
  rewrite <- eqs_eq. destruct (eqs a b); split; congruence.
Qed.

Lemma trimStart_ws (w s : jsstring) : allWs w -> trimStart (w ++ s) = trimStart s.
Proof.
  induction 1 as [|c w Hc _ IH]; simpl; [reflexivity|].
  rewrite Hc; exact IH.
Qed.

Lemma trimStart_allWs (w : jsstring) : allWs w -> trimStart w = [].
Proof.
  intros H. rewrite <- (app_nil_r w), trimStart_ws by assumption. reflexivity.
Qed.

Lemma trimStart_split (s : jsstring) :
  exists w, allWs w /\ s = w ++ trimStart s.
Proof.
  induction s as [|c s [w [Hw E]]]; simpl.
  - exists []; split; [constructor | reflexivity].
  - destruct (isWhiteSpace c) eqn:Hc.
    + exists (c :: w); split; [constructor; assumption|].
      simpl; congruence.
    + exists []; split; [constructor | reflexivity].
Qed.

Lemma trimStart_head (s : jsstring) :
  match trimStart s with
  | [] => allWs s
  | c :: _ => isWhiteSpace c = false
  end.
Proof.
  induction s as [|c s IH]; simpl; [constructor|].
  destruct (isWhiteSpace c) eqn:Hc; [|assumption].
  destruct (trimStart s); [constructor; assumption | assumption].
Qed.

Lemma trimStart_app (x y : jsstring) :
  trimStart (x ++ y) =
  match trimStart x with
  | [] => trimStart y
  | _ :: _ => trimStart x ++ y
  end.
Proof.
  induction x as [|c x IH]; simpl; [reflexivity|].
  destruct (isWhiteSpace c); [exact IH | reflexivity].
Qed.

Lemma allWs_rev (w : jsstring) : allWs w -> allWs (rev w).
Proof. unfold allWs; rewrite !Forall_forall; intros H c Hc; apply H, in_rev, Hc. Qed.

Lemma trimEnd_ws (s w : jsstring) : allWs w -> trimEnd (s ++ w) = trimEnd s.
Proof.
  intros H. unfold trimEnd. rewrite rev_app_distr, trimStart_ws; auto using allWs_rev.
Qed.

Lemma trimEnd_split (s : jsstring) :
  exists w, allWs w /\ s = trimEnd s ++ w.
Proof.
  destruct (trimStart_split (rev s)) as [w [Hw E]].
  exists (rev w); split; [apply allWs_rev, Hw|].
  unfold trimEnd. rewrite <- rev_app_distr, <- E, rev_involutive; reflexivity.
Qed.

Lemma trimEnd_last (s : jsstring) :
  trimEnd s = [] /\ allWs s \/
  exists a c, trimEnd s = a ++ [c] /\ isWhiteSpace c = false.
Proof.
  unfold trimEnd. pose proof (trimStart_head (rev s)) as H.
  destruct (trimStart (rev s)) as [|c t].
  - left; split; [reflexivity|].
    rewrite <- (rev_involutive s); apply allWs_rev, H.
  - right; exists (rev t), c; split; [reflexivity | exact H].
Qed.

Lemma trimEnd_keeps_head (c : char) (s : jsstring) :
  isWhiteSpace c = false -> exists t, trimEnd (c :: s) = c :: t.
Proof.
  intros Hc. destruct (trimEnd_split (c :: s)) as [w [Hw E]].
  destruct (trimEnd (c :: s)) as [|d t] eqn:Et.
  - simpl in E. subst w. inversion Hw; congruence.
  - simpl in E. inversion E; subst. exists t; reflexivity.
Qed.

(** What [trim] returns: the argument without a white-space prefix and a
    white-space suffix, with no white space left at either end. *)
Lemma trim_split (s : jsstring) :
  exists w1 w2, allWs w1 /\ allWs w2 /\ s = w1 ++ trim s ++ w2.
Proof.
  destruct (trimStart_split s) as [w1 [H1 E1]].
  destruct (trimEnd_split (trimStart s)) as [w2 [H2 E2]].
  exists w1, w2; repeat split; auto. unfold trim.
  rewrite <- E2; exact E1.
Qed.

Lemma trim_ends (s : jsstring) :
  trim s = [] \/
  exists c t a d, trim s = c :: t /\ trim s = a ++ [d]
                  /\ isWhiteSpace c = false /\ isWhiteSpace d = false.
Proof.
  unfold trim. pose proof (trimStart_head s) as H.
  destruct (trimStart s) as [|c t] eqn:E.
  - left; reflexivity.
  - right. destruct (trimEnd_keeps_head c t H) as [t' Et].
    destruct (trimEnd_last (c :: t)) as [[E0 _]|[a [d [Ea Hd]]]].
    + congruence.
    + exists c, t', a, d; auto.
Qed.

Lemma trimmed_intro (s : jsstring) :
  (s = [] \/ exists c t a d, s = c :: t /\ s = a ++ [d]
                  /\ isWhiteSpace c = false /\ isWhiteSpace d = false) ->
  trimmed s.
Proof.
  intros [->|[c [t [a [d [E1 [E2 [Hc Hd]]]]]]]]; [reflexivity|].
  unfold trimmed, trim. rewrite E1; simpl; rewrite Hc. rewrite <- E1, E2.
  unfold trimEnd. rewrite rev_app_distr; simpl. rewrite Hd; simpl.
  rewrite rev_involutive; reflexivity.
Qed.

Lemma trim_trimmed (s : jsstring) : trimmed (trim s).
Proof.
  apply trimmed_intro. destruct (trim_ends s) as [E|H]; [left; exact E|].
  right; exact H.
Qed.

Lemma trimmed_ends (s : jsstring) :
  trimmed s ->
  s = [] \/ exists c t a d, s = c :: t /\ s = a ++ [d]
                  /\ isWhiteSpace c = false /\ isWhiteSpace d = false.
Proof. intros H. pose proof (trim_ends s) as T. rewrite H in T. exact T. Qed.

Lemma trim_ws_l (w s : jsstring) : allWs w -> trim (w ++ s) = trim s.
Proof. intros H; unfold trim; rewrite trimStart_ws by assumption; reflexivity. Qed.

Lemma trim_ws_r (s w : jsstring) : allWs w -> trim (s ++ w) = trim s.
Proof.
  intros H; unfold trim. rewrite trimStart_app.
  pose proof (trimStart_head s) as Hs.
  destruct (trimStart s) as [|c t].
  - rewrite trimStart_allWs by assumption. reflexivity.
  - apply trimEnd_ws; assumption.
Qed.

Lemma trim_allWs (w : jsstring) : allWs w -> trim w = [].
Proof.
  intros H. rewrite <- (app_nil_r w), trim_ws_l by assumption. reflexivity.
Qed.

Lemma trim_noWs (s : jsstring) :
  Forall (fun c => isWhiteSpace c = false) s -> trimmed s.
Proof.
  intros H. apply trimmed_intro. destruct s as [|c t]; [left; reflexivity|].
  right. destruct (@exists_last _ (c :: t)) as [a [d E]]; [discriminate|].
  exists c, t, a, d. repeat split; auto.
  - inversion H; assumption.
  - rewrite Forall_forall in H. apply H. rewrite E. apply in_or_app; right; left; reflexivity.
Qed.

Lemma oneLine_trim (s : jsstring) : oneLine s -> oneLine (trim s).
Proof.
  intros H Hin. apply H. destruct (trim_split s) as [w1 [w2 [_ [_ E]]]].
  rewrite E. apply in_or_app; right; apply in_or_app; left; exact Hin.
Qed.

Lemma oneLine_check (s : jsstring) :
  existsb (N.eqb NL) s = false -> oneLine s.
Proof.
  intros H Hin. assert (existsb (N.eqb NL) s = true); [|congruence].
  apply existsb_exists. exists NL; split; [exact Hin | apply N.eqb_refl].
Qed.

Ltac single_lines :=
  unfold singleLines;
  repeat (apply Forall_cons; [apply oneLine_check; reflexivity|]);
  apply Forall_nil.

(** ** Lines: [split] and [join] *)

Lemma split_cons (c : char) (s : jsstring) :
  exists l ls, split c s = l :: ls.
Proof.
  destruct s as [|x s]; simpl; [eauto|].
  destruct (x =? c)%N; [eauto|]. destruct (split c s); eauto.
Qed.

Lemma split_not_nil (c : char) (s : jsstring) : split c s <> [].
Proof. destruct (split_cons c s) as [l [ls E]]; rewrite E; discriminate. Qed.

Lemma split_sep (c : char) (s : jsstring) :
  split c (c :: s) = [] :: split c s.
Proof. simpl; rewrite N.eqb_refl; reflexivity. Qed.

Lemma split_lines_free (c : char) (s : jsstring) :
  Forall (fun l => ~ In c l) (split c s).
Proof.
  induction s as [|x s IH]; simpl.
  - constructor; [intros []|constructor].
  - destruct (x =? c)%N eqn:E.
    + constructor; [intros []|exact IH].
    + apply N.eqb_neq in E.
      destruct (split c s) as [|l ls]; inversion IH; subst;
        constructor; auto; intros [H|H]; auto; destruct H.
Qed.

Lemma join_cons2 (sep x : jsstring) (y : jsstring) (l : list jsstring) :
  join sep (x :: y :: l) = x ++ sep ++ join sep (y :: l).
Proof. reflexivity. Qed.

Lemma join_split (c : char) (s : jsstring) : join [c] (split c s) = s.
Proof.
  induction s as [|x s IH]; simpl; [reflexivity|].
  destruct (x =? c)%N eqn:E.
  - apply N.eqb_eq in E; subst x.
    destruct (split_cons c s) as [l [ls El]]. rewrite El in *.
    rewrite join_cons2, IH; reflexivity.
  - destruct (split c s) as [|l [|l' ls]]; simpl in *; congruence.
Qed.

Lemma split_free (c : char) (s : jsstring) : ~ In c s -> split c s = [s].
Proof.
  induction s as [|x s IH]; intros H; simpl; [reflexivity|].
  destruct (x =? c)%N eqn:E.
  - apply N.eqb_eq in E; subst; exfalso; apply H; left; reflexivity.
  - rewrite IH; [reflexivity|]. intros Hin; apply H; right; exact Hin.
Qed.

(** Splitting a concatenation: the last line of the first part and the
    first line of the second are glued. *)
Lemma split_app_glue (c : char) (a b : jsstring) :
  exists ia la hb tb,
    split c a = ia ++ [la] /\ split c b = hb :: tb /\
    split c (a ++ b) = ia ++ (la ++ hb) :: tb.
Proof.
  induction a as [|x a IH].
  - destruct (split_cons c b) as [hb [tb E]].
    exists [], [], hb, tb; repeat split; auto.
  - destruct IH as [ia [la [hb [tb [Ea [Eb Eab]]]]]].
    simpl. destruct (x =? c)%N.
    + exists ([] :: ia), la, hb, tb. rewrite Ea, Eab; repeat split; auto.
    + rewrite Ea, Eab. destruct ia as [|i0 ia]; simpl.
      * exists [], (x :: la), hb, tb; repeat split; auto.
      * exists ((x :: i0) :: ia), la, hb, tb; repeat split; auto.
Qed.

Lemma split_app_sep (c : char) (a b : jsstring) :
  split c (a ++ c :: b) = split c a ++ split c b.
Proof.
  destruct (split_app_glue c a (c :: b)) as [ia [la [hb [tb [Ea [Eb Eab]]]]]].
  rewrite split_sep in Eb; inversion Eb; subst.
  rewrite Eab, Ea, app_nil_r, <- app_assoc; reflexivity.
Qed.

Lemma split_join (c : char) (ls : list jsstring) :
  ls <> [] -> Forall (fun l => ~ In c l) ls -> split c (join [c] ls) = ls.
Proof.
  induction ls as [|l ls IH]; intros Hne H; [congruence|].
  inversion H as [|? ? Hl Hls]; subst.
  destruct ls as [|l' ls].
  - simpl; apply split_free; assumption.
  - rewrite join_cons2.
    change ([c] ++ join [c] (l' :: ls)) with (c :: join [c] (l' :: ls)).
    rewrite split_app_sep, (split_free c l) by assumption.
    rewrite IH; [reflexivity | discriminate | assumption].
Qed.

Lemma join_app (sep : jsstring) (xs ys : list jsstring) :
  xs <> [] -> ys <> [] ->
  join sep (xs ++ ys) = join sep xs ++ sep ++ join sep ys.
Proof.
  induction xs as [|x xs IH]; intros Hx Hy; [congruence|].
  destruct xs as [|x' xs].
  - destruct ys; [congruence|]; reflexivity.
  - change ((x :: x' :: xs) ++ ys) with (x :: (x' :: xs) ++ ys).
    simpl app at 1. rewrite !join_cons2.
    change (x' :: xs ++ ys) with ((x' :: xs) ++ ys).
    rewrite IH by (auto; discriminate). rewrite <- !app_assoc; reflexivity.
Qed.

Lemma allWs_split (w : jsstring) : allWs w -> Forall allWs (split NL w).
Proof.
  induction 1 as [|x w Hx Hw IH]; simpl.
  - repeat constructor.
  - destruct (x =? NL)%N.
    + constructor; [constructor | exact IH].
    + destruct (split NL w); inversion IH; subst; repeat constructor; auto.
Qed.

(** Trimming a document changes its lines only by white space: the lines
    that are not blank have the same trimmed forms, in the same order. *)
Lemma filter_trim_lines_ws_l (P : jsstring -> bool) (w s : jsstring) :
  P [] = false -> allWs w ->
  filter P (List.map trim (split NL (w ++ s)))
  = filter P (List.map trim (split NL s)).
Proof.
  intros HP Hw.
  destruct (split_app_glue NL w s) as [ia [la [hb [tb [Ea [Eb Eab]]]]]].
  rewrite Eab, Eb. pose proof (allWs_split w Hw) as F. rewrite Ea in F.
  apply Forall_app in F; destruct F as [Fi Fl]. inversion Fl; subst.
  rewrite map_app, filter_app; simpl.
  rewrite trim_ws_l by assumption.
  replace (filter P (List.map trim ia)) with (@nil jsstring); [reflexivity|].
  clear -Fi HP. induction Fi as [|l ia Hl _ IH]; simpl; [reflexivity|].
  rewrite (trim_allWs l Hl), HP; exact IH.
Qed.

Lemma filter_trim_lines_ws_r (P : jsstring -> bool) (s w : jsstring) :
  P [] = false -> allWs w ->
  filter P (List.map trim (split NL (s ++ w)))
  = filter P (List.map trim (split NL s)).
Proof.
  intros HP Hw.
  destruct (split_app_glue NL s w) as [ia [la [hb [tb [Ea [Eb Eab]]]]]].
  rewrite Eab, Ea. pose proof (allWs_split w Hw) as F. rewrite Eb in F.
  inversion F as [|? ? Fh Ft]; subst.
  rewrite !map_app, !filter_app; simpl.
  rewrite trim_ws_r by assumption.
  replace (filter P (List.map trim tb)) with (@nil jsstring); [reflexivity|].
  clear -Ft HP. induction Ft as [|l tb Hl _ IH]; simpl; [reflexivity|].
  rewrite (trim_allWs l Hl), HP; exact IH.
Qed.

Lemma filter_trim_lines_trim (P : jsstring -> bool) (s : jsstring) :
  P [] = false ->
  filter P (List.map trim (split NL (trim s)))
  = filter P (List.map trim (split NL s)).
Proof.
  intros HP. destruct (trim_split s) as [w1 [w2 [H1 [H2 E]]]].
  rewrite E at 2.
  rewrite filter_trim_lines_ws_l, filter_trim_lines_ws_r by assumption.
  reflexivity.
Qed.

(** ** The matcher *)

Lemma consumes_refl (A : char -> bool) (st : mstate) : consumes A st st.
Proof. exists []; repeat split; auto. Qed.

Lemma consumes_trans (A : char -> bool) (a b c : mstate) :
  consumes A a b -> consumes A b c -> consumes A a c.
Proof.
  intros [w1 [E1 [F1 P1]]] [w2 [E2 [F2 P2]]]. exists (w1 ++ w2).
  rewrite E1, E2, <- app_assoc, length_app. repeat split; auto.
  - apply Forall_app; auto.
  - lia.
Qed.

Lemma consumes_weaken (A B : char -> bool) (a b : mstate) :
  (forall c, A c = true -> B c = true) -> consumes A a b -> consumes B a b.
Proof.
  intros H [w [E [F P]]]. exists w; repeat split; auto.
  eapply Forall_impl; [|exact F]. exact H.
Qed.

Lemma repeat_consumes (A : char -> bool) (m : mstate -> list mstate)
  (gs : list nat) :
  (forall st st', In st' (m st) -> consumes A st st') ->
  forall fuel min max st st',
    In st' (repeat m gs fuel min max st) -> consumes A st st'.
Proof.
  intros Hm. induction fuel as [|fuel IH]; intros min max st st' Hin;
    simpl in Hin; [destruct Hin|].
  assert (Hmore : forall st',
    In st' (flat_map (fun st'0 =>
              if (min =? 0) && (length (rest st) <=? length (rest st'0))
              then [] else repeat m gs fuel (Nat.pred min) (decMax max) st'0)
            (m (MState (pos st) (rest st) (clearCaps gs (caps st))))) ->
    consumes A st st').
  { intros x Hx. apply in_flat_map in Hx. destruct Hx as [y [Hy Hx]].
    apply Hm in Hy.
    destruct ((min =? 0) && (length (rest st) <=? length (rest y)));
      [destruct Hx|].
    apply IH in Hx. destruct Hy as [w1 [E1 [F1 P1]]]. simpl in E1, P1.
    eapply consumes_trans; [|exact Hx]. exists w1; auto. }
  destruct max as [[|n]|].
  - destruct Hin as [<-|[]]. apply consumes_refl.
  - destruct (min =? 0); [apply in_app_or in Hin; destruct Hin as [H|[<-|[]]]|];
      auto using consumes_refl.
  - destruct (min =? 0); [apply in_app_or in Hin; destruct Hin as [H|[<-|[]]]|];
      auto using consumes_refl.
Qed.

(** Every end state of a pattern is reached over the pattern's alphabet. *)
Lemma run_consumes (r : regex) :
  forall st st', In st' (run r st) -> consumes (alphabet r) st st'.
Proof.
  induction r as [|p|r1 IH1 r2 IH2|r1 IH1 r2 IH2|min max r IH|i r IH| |];
    intros st st' Hin;
    [simpl in Hin|simpl in Hin|simpl in Hin|simpl in Hin|
     change (run (Rep min max r) st)
       with (repeat (run r) (groupsOf r) (S (min + length (rest st)))
                    min max st) in Hin
     |simpl in Hin|simpl in Hin|simpl in Hin].
  - destruct Hin as [<-|[]]; apply consumes_refl.
  - destruct (rest st) as [|c s'] eqn:E; [destruct Hin|].
    destruct (p c) eqn:Hp; [|destruct Hin]. destruct Hin as [<-|[]].
    exists [c]; simpl; rewrite E; repeat split; auto; lia.
  - apply in_flat_map in Hin. destruct Hin as [x [H1 H2]].
    eapply consumes_trans.
    + eapply consumes_weaken; [|apply IH1, H1].
      intros c Hc; simpl; rewrite Hc; reflexivity.
    + eapply consumes_weaken; [|apply IH2, H2].
      intros c Hc; simpl; rewrite Hc; apply orb_true_r.
  - apply in_app_or in Hin. destruct Hin as [H|H].
    + eapply consumes_weaken; [|apply IH1, H].
      intros c Hc; simpl; rewrite Hc; reflexivity.
    + eapply consumes_weaken; [|apply IH2, H].
      intros c Hc; simpl; rewrite Hc; apply orb_true_r.
  - eapply repeat_consumes; [|exact Hin]. exact IH.
  - apply in_map_iff in Hin. destruct Hin as [x [<- Hx]].
    apply IH in Hx. destruct Hx as [w [E [F P]]]. exists w; auto.
  - destruct (pos st =? 0); [|destruct Hin]. destruct Hin as [<-|[]].
    apply consumes_refl.
  - destruct (rest st); [|destruct Hin]. destruct Hin as [<-|[]].
    apply consumes_refl.
Qed.

Lemma flat_map_ext_in {A B : Type} (f g : A -> list B) (l : list A) :
  (forall x, In x l -> f x = g x) -> flat_map f l = flat_map g l.
Proof.
  induction l as [|x l IH]; intros H; simpl; [reflexivity|].
  rewrite H by (left; reflexivity). f_equal.
  apply IH. intros; apply H; right; assumption.
Qed.

Lemma consumes_length (A : char -> bool) (st st' : mstate) :
  consumes A st st' ->
  length (rest st') <= length (rest st)
  /\ (pos st' <> pos st -> length (rest st') < length (rest st)).
Proof.
  intros [w [E [_ P]]]. rewrite E, length_app. split; [lia|].
  intros H. destruct w; simpl in *; lia.
Qed.

(** The fuel of a repetition is never exhausted: any amount above [min]
    plus the length of the remaining input gives the same end states. *)
Lemma repeat_fuel (m : mstate -> list mstate) (gs : list nat) :
  (forall st st', In st' (m st) -> length (rest st') <= length (rest st)) ->
  forall fuel1 fuel2 min max st,
    min + length (rest st) < fuel1 -> min + length (rest st) < fuel2 ->
    repeat m gs fuel1 min max st = repeat m gs fuel2 min max st.
Proof.
  intros Hm. induction fuel1 as [|fuel1 IH]; intros fuel2 min max st H1 H2;
    [inversion H1|].
  destruct fuel2 as [|fuel2]; [inversion H2|].
  assert (Body : forall st',
    In st' (m (MState (pos st) (rest st) (clearCaps gs (caps st)))) ->
    (if (min =? 0) && (length (rest st) <=? length (rest st'))
     then [] else repeat m gs fuel1 (Nat.pred min) (decMax max) st')
    = (if (min =? 0) && (length (rest st) <=? length (rest st'))
       then [] else repeat m gs fuel2 (Nat.pred min) (decMax max) st')).
  { intros st' Hst'. apply Hm in Hst'. simpl in Hst'.
    destruct (min =? 0) eqn:E0.
    - destruct (length (rest st) <=? length (rest st')) eqn:E1;
        [reflexivity|]. simpl. apply Nat.leb_gt in E1.
      apply Nat.eqb_eq in E0. apply IH; subst; simpl; lia.
    - simpl. apply Nat.eqb_neq in E0. apply IH; lia. }
  cbn [repeat]. destruct max as [[|n]|]; [reflexivity| |];
    rewrite (flat_map_ext_in _ _ _ Body); reflexivity.
Qed.

Lemma run_rep_fuel (min : nat) (max : option nat) (r : regex)
  (st : mstate) (fuel : nat) :
  min + length (rest st) < fuel ->
  run (Rep min max r) st = repeat (run r) (groupsOf r) fuel min max st.
Proof.
  intros H. cbn [run]. apply repeat_fuel; [|lia|exact H].
  intros x y Hy. apply run_consumes in Hy.
  apply (consumes_length _ _ _ Hy).
Qed.

(** Nor is the fuel of the split loop. *)
Lemma splitLoop_fuel (r : regex) :
  forall fuel1 fuel2 q piece s,
    2 * length s + length (firstn 1 piece) < fuel1 ->
    2 * length s + length (firstn 1 piece) < fuel2 ->
    splitLoop r fuel1 q piece s = splitLoop r fuel2 q piece s.
Proof.
  induction fuel1 as [|fuel1 IH]; intros fuel2 q piece s H1 H2;
    [inversion H1|].
  destruct fuel2 as [|fuel2]; [inversion H2|].
  cbn [splitLoop]. destruct s as [|c s]; [reflexivity|].
  assert (Adv : splitLoop r fuel1 (S q) (c :: piece) s
                = splitLoop r fuel2 (S q) (c :: piece) s).
  { apply IH; simpl in *; lia. }
  destruct (run r (MState q (c :: s) [])) as [|st l] eqn:E; [exact Adv|].
  destruct (pos st =? q - length piece) eqn:Ep; [exact Adv|].
  f_equal. apply Nat.eqb_neq in Ep.
  assert (Hst : consumes (alphabet r) (MState q (c :: s) []) st).
  { apply run_consumes. rewrite E. left; reflexivity. }
  destruct (consumes_length _ _ _ Hst) as [L1 L2]. simpl in L1, L2.
  destruct piece as [|x piece].
  - assert (length (rest st) < S (length s)) by (apply L2; simpl in Ep; lia).
    apply IH; simpl in *; lia.
  - apply IH; simpl in *; lia.
Qed.

Lemma run_bol (r : regex) (st : mstate) :
  startsWithBol r = true -> pos st <> 0 -> run r st = [].
Proof.
  induction r; simpl; try discriminate; intros H Hp.
  - rewrite IHr1 by assumption; reflexivity.
  - apply Nat.eqb_neq in Hp; rewrite Hp; reflexivity.
Qed.

Lemma run_eol (r : regex) :
  endsWithEol r = true ->
  forall st st', In st' (run r st) -> rest st' = [].
Proof.
  induction r; simpl; try discriminate; intros H st st' Hin.
  - apply in_flat_map in Hin. destruct Hin as [x [_ Hx]]. eauto.
  - destruct (rest st) eqn:E; [|destruct Hin].
    destruct Hin as [<-|[]]; exact E.
Qed.

Lemma searchFrom_bol (r : regex) (s : jsstring) :
  startsWithBol r = true ->
  forall i, i <> 0 -> searchFrom r i s = None.
Proof.
  intros H. induction s as [|c s IH]; intros i Hi; simpl;
    rewrite run_bol by assumption; [reflexivity|].
  apply IH; lia.
Qed.

(** A pattern anchored at both ends matches the whole string or nothing. *)
Lemma test_anchored (r : regex) (s : jsstring) :
  startsWithBol r = true -> endsWithEol r = true ->
  test r s = true -> Forall (fun c => alphabet r c = true) s.
Proof.
  intros Hb He Ht. unfold test, exec in Ht.
  assert (Hrun : exists st, In st (run r (MState 0 s []))).
  { destruct s as [|c s]; simpl in Ht.
    - destruct (run r (MState 0 [] [])) as [|st l]; [discriminate|].
      exists st; left; reflexivity.
    - destruct (run r (MState 0 (c :: s) [])) as [|st l].
      + rewrite searchFrom_bol in Ht by (auto; lia). discriminate.
      + exists st; left; reflexivity. }
  destruct Hrun as [st Hst]. pose proof (run_eol r He _ _ Hst) as Hr.
  apply run_consumes in Hst. destruct Hst as [w [E [F _]]].
  simpl in E. rewrite Hr, app_nil_r in E. subst w; exact F.
Qed.

(** ** Date keys *)

Lemma date_header_chars (s : jsstring) :
  test DATE_HEADER s = true ->
  s <> [] /\ Forall (fun c => isDigit c = true \/ c = 46%N) s.
Proof.
  intros H. split.
  - intros ->. vm_compute in H. discriminate.
  - apply test_anchored in H; [|reflexivity|reflexivity].
    eapply Forall_impl; [|exact H]. intros c Hc. cbv beta in Hc.
    change (alphabet DATE_HEADER c)
      with (false || (isDigit c || ((46 =? c)%N || (isDigit c
            || ((46 =? c)%N || (isDigit c || false)))))) in Hc.
    destruct (isDigit c); [left; reflexivity|]. right.
    destruct (46 =? c)%N eqn:E; [apply N.eqb_eq in E; auto|discriminate].
Qed.

Lemma digit_not_ws (c : char) :
  isDigit c = true \/ c = 46%N -> isWhiteSpace c = false.
Proof.
  unfold isDigit, isWhiteSpace. intros [H| ->]; [|reflexivity].
  apply andb_true_iff in H. destruct H as [H1 H2].
  apply N.leb_le in H1, H2.
  repeat rewrite orb_false_iff. repeat split; try (apply N.eqb_neq; lia).
  apply andb_false_iff; left; apply N.leb_gt; lia.
Qed.

Lemma date_header_trimmed (d : jsstring) :
  test DATE_HEADER d = true -> trimmed d.
Proof.
  intros H. apply date_header_chars in H. destruct H as [_ F].
  apply trim_noWs. eapply Forall_impl; [|exact F].
  intros c; apply digit_not_ws.
Qed.

Lemma date_header_oneLine (d : jsstring) :
  test DATE_HEADER d = true -> oneLine d.
Proof.
  intros H Hin. apply date_header_chars in H. destruct H as [_ F].
  rewrite Forall_forall in F. apply F in Hin. apply digit_not_ws in Hin.
  discriminate.
Qed.

Lemma date_header_not_event (d : jsstring) :
  test DATE_HEADER d = true -> startsWith d (str "- ") = false.
Proof.
  intros H. apply date_header_chars in H. destruct H as [Hne F].
  destruct d as [|c d]; [congruence|]. inversion F as [|? ? Hc _]; subst.
  change (startsWith (c :: d) (str "- "))
    with ((45 =? c)%N && startsWith d [32%N]).
  destruct (45 =? c)%N eqn:E; [|reflexivity].
  apply N.eqb_eq in E; subst c. destruct Hc as [Hc|Hc]; discriminate.
Qed.

Lemma event_not_date_header (e : jsstring) :
  startsWith e (str "- ") = true -> test DATE_HEADER e = false.
Proof.
  intros H. destruct (test DATE_HEADER e) eqn:E; [|reflexivity].
  apply date_header_not_event in E. congruence.
Qed.

Lemma date_header_nil : test DATE_HEADER [] = false.
Proof. reflexivity. Qed.

(** ** Headers of a document *)

Lemma headers_trim (doc : jsstring) : headers (trim doc) = headers doc.
Proof. apply filter_trim_lines_trim, date_header_nil. Qed.

Lemma hasDateHeader_In (doc d : jsstring) :
  hasDateHeader doc d = true <-> In d (List.map trim (docLines doc)).
Proof.
  unfold hasDateHeader, docLines. rewrite existsb_exists, in_map_iff.
  split; intros [l [H1 H2]]; exists l.
  - apply eqs_eq in H2; auto.
  - split; [exact H2 | apply eqs_eq; exact H1].
Qed.

Lemma hasDateHeader_headers (doc d : jsstring) :
  test DATE_HEADER d = true ->
  (hasDateHeader doc d = true <-> In d (headers doc)).
Proof.
  intros Hd. rewrite hasDateHeader_In. unfold headers.
  rewrite filter_In. tauto.
Qed.

Lemma hasDateHeader_trim (doc d : jsstring) :
  test DATE_HEADER d = true ->
  hasDateHeader (trim doc) d = hasDateHeader doc d.
Proof.
  intros Hd.
  pose proof (hasDateHeader_headers (trim doc) d Hd) as H1.
  pose proof (hasDateHeader_headers doc d Hd) as H2.
  rewrite headers_trim in H1.
  destruct (hasDateHeader (trim doc) d), (hasDateHeader doc d); auto.
  - symmetry; apply H2, H1; reflexivity.
  - apply H1, H2; reflexivity.
Qed.

Lemma headers_of_lines (ls : list jsstring) :
  ls <> [] -> Forall oneLine ls ->
  headers (join [NL] ls) = filter (test DATE_HEADER) (List.map trim ls).
Proof.
  intros Hne H. unfold headers, docLines. rewrite split_join; auto.
Qed.

Lemma docLines_oneLine (doc : jsstring) : Forall oneLine (docLines doc).
Proof. apply split_lines_free. Qed.

(** ** Ends of a trimmed text *)

Lemma trimmed_append (u v a : jsstring) (d : char) :
  trimmed u -> u <> [] -> v = a ++ [d] -> isWhiteSpace d = false ->
  trimmed (u ++ v).
Proof.
  intros Hu Hne -> Hd. apply trimmed_ends in Hu.
  destruct Hu as [->|[c [t [a' [d' [E1 [E2 [Hc Hd']]]]]]]]; [congruence|].
  apply trimmed_intro; right.
  exists c, (t ++ a ++ [d]), (u ++ a), d. rewrite E1 at 1.
  repeat split; auto. rewrite <- app_assoc; reflexivity.
Qed.

Lemma trimmed_insert (u m v : jsstring) :
  trimmed (u ++ NL :: v) -> trimmed (u ++ NL :: m ++ NL :: v).
Proof.
  intros H. apply trimmed_ends in H.
  destruct H as [E|[c [t [a [d [E1 [E2 [Hc Hd]]]]]]]].
  - destruct u; discriminate.
  - apply trimmed_intro; right.
    destruct u as [|c' u'].
    { simpl in E1. inversion E1; subst c. discriminate. }
    simpl in E1. inversion E1; subst c' t.
    destruct (@exists_last _ (NL :: v)) as [v' [d' Ev]]; [discriminate|].
    assert (d' = d).
    { rewrite Ev in E2. change (c :: u' ++ v' ++ [d']) with ((c :: u') ++ v' ++ [d']) in E2.
      rewrite app_assoc in E2. apply app_inj_tail in E2. tauto. }
    subst d'. destruct v' as [|x v''].
    { simpl in Ev. inversion Ev; subst. discriminate. }
    simpl in Ev. injection Ev as Ex Ev'. subst v.
    exists c, (u' ++ NL :: m ++ NL :: v'' ++ [d]),
           ((c :: u') ++ NL :: m ++ NL :: v''), d.
    repeat split; auto.
    simpl. rewrite <- !app_assoc. simpl. rewrite <- !app_assoc. reflexivity.
Qed.

Lemma join_last (ls : list jsstring) (l a : jsstring) (d : char) :
  exists b, join [NL] (ls ++ [l ++ a ++ [d]]) = b ++ [d].
Proof.
  induction ls as [|x ls [b Hb]].
  - exists (l ++ a). simpl. rewrite app_assoc; reflexivity.
  - destruct ls as [|y ls].
    + exists (x ++ NL :: l ++ a). simpl. rewrite <- !app_assoc. simpl.
      rewrite <- app_assoc. reflexivity.
    + exists (x ++ NL :: b). change ((x :: y :: ls) ++ [l ++ a ++ [d]])
        with (x :: (y :: ls) ++ [l ++ a ++ [d]]).
      simpl app at 1. rewrite join_cons2.
      change (y :: ls ++ [l ++ a ++ [d]]) with ((y :: ls) ++ [l ++ a ++ [d]]).
      rewrite Hb. rewrite <- !app_assoc. reflexivity.
Qed.

(** ** Events and sections *)

Lemma isEvent_last (e : jsstring) :
  isEvent e -> exists a d, e = a ++ [d] /\ isWhiteSpace d = false.
Proof.
  intros [Hs Ht]. apply trimmed_ends in Ht.
  destruct Ht as [->|[c [t [a [d [E1 [E2 [Hc Hd]]]]]]]]; [discriminate|].
  eauto.
Qed.

Lemma events_join_last (ev : list jsstring) :
  ev <> [] -> Forall isEvent ev ->
  exists b d, join [NL] ev = b ++ [d] /\ isWhiteSpace d = false.
Proof.
  intros Hne F. destruct (@exists_last _ ev Hne) as [ev' [e E]]. subst ev.
  apply Forall_app in F. destruct F as [_ F]. inversion F; subst.
  destruct (isEvent_last e) as [a [d [Ea Hd]]]; [assumption|].
  destruct (join_last ev' [] a d) as [b Hb]. simpl in Hb.
  exists b, d. rewrite Ea. auto.
Qed.

Lemma events_no_headers (ev : list jsstring) :
  Forall isEvent ev ->
  filter (test DATE_HEADER) (List.map trim ev) = [].
Proof.
  induction 1 as [|e ev [Hs Ht] _ IH]; simpl; [reflexivity|].
  rewrite Ht, (event_not_date_header e Hs). exact IH.
Qed.

Lemma length_eqb_0 {A : Type} (l : list A) :
  l <> [] -> (length l =? 0) = false.
Proof. destruct l; [congruence | reflexivity]. Qed.

(** ** Array scans *)

Lemma findIndex_first {A : Type} (p : A -> bool) (before : list A) (x : A)
  (after : list A) :
  Forall (fun y => p y = false) before -> p x = true ->
  findIndex p (before ++ x :: after) = Some (length before).
Proof.
  induction 1 as [|y before Hy _ IH]; intros Hx; simpl.
  - rewrite Hx; reflexivity.
  - rewrite Hy, IH by assumption. reflexivity.
Qed.

Lemma findIndex_Some {A : Type} (p : A -> bool) (l : list A) (i : nat) :
  findIndex p l = Some i ->
  exists before x after,
    l = before ++ x :: after /\ length before = i /\ p x = true
    /\ Forall (fun y => p y = false) before.
Proof.
  revert i; induction l as [|y l IH]; intros i H; simpl in H; [discriminate|].
  destruct (p y) eqn:Hy.
  - injection H as <-. exists [], y, l; repeat split; auto.
  - destruct (findIndex p l) as [j|]; [|discriminate]. injection H as <-.
    destruct (IH j eq_refl) as [b [x [a [E [L [Hx F]]]]]].
    exists (y :: b), x, a. subst l; simpl; repeat split; auto.
Qed.

Lemma findIndex_None {A : Type} (p : A -> bool) (l : list A) :
  findIndex p l = None <-> existsb p l = false.
Proof.
  induction l as [|y l IH]; simpl; [tauto|].
  destruct (p y); simpl; [split; discriminate|].
  destruct (findIndex p l) as [j|]; split; intros H; try discriminate.
  - apply IH in H; discriminate.
  - apply IH; reflexivity.
  - reflexivity.
Qed.

Lemma findIndex_existsb {A : Type} (p : A -> bool) (l : list A) :
  existsb p l = true ->
  exists before x after,
    l = before ++ x :: after /\ p x = true
    /\ Forall (fun y => p y = false) before.
Proof.
  intros H. destruct (findIndex p l) as [i|] eqn:E.
  - destruct (findIndex_Some p l i E) as [b [x [a [E1 [_ [E2 E3]]]]]].
    exists b, x, a; auto.
  - apply findIndex_None in E. congruence.
Qed.

Lemma scanWhile_run (p : jsstring -> bool) (run tail : list jsstring)
  (i : nat) :
  Forall (fun l => p l = true) run -> stopsAt p tail ->
  scanWhile p (run ++ tail) i = i + length run.
Proof.
  intros F; revert i; induction F as [|l run Hl _ IH]; intros i Ht; simpl.
  - destruct tail; simpl in *; [lia | rewrite Ht; lia].
  - rewrite Hl, IH by assumption. lia.
Qed.

Lemma span_exists (p : jsstring -> bool) (l : list jsstring) :
  exists run tail,
    l = run ++ tail /\ Forall (fun x => p x = true) run /\ stopsAt p tail.
Proof.
  induction l as [|x l [run [tail [E [F S]]]]].
  - exists [], []; simpl; auto.
  - destruct (p x) eqn:Hx.
    + exists (x :: run), tail; subst; simpl; auto.
    + exists [], (x :: l); simpl; auto.
Qed.

Lemma firstn_exact {A : Type} (a b : list A) (n : nat) :
  n = length a -> firstn n (a ++ b) = a.
Proof.
  intros ->. rewrite firstn_app, Nat.sub_diag, firstn_all; simpl.
  apply app_nil_r.
Qed.

Lemma skipn_exact {A : Type} (a b : list A) (n : nat) :
  n = length a -> skipn n (a ++ b) = b.
Proof.
  intros ->. rewrite skipn_app, Nat.sub_diag, skipn_all; reflexivity.
Qed.

(** ** One date section merged into a document *)

(** The first section of [d] in a document that has one. *)
Lemma locate_header (doc d : jsstring) :
  hasDateHeader doc d = true ->
  exists before hdr after,
    docLines doc = before ++ hdr :: after /\ trim hdr = d
    /\ Forall (fun l => eqs (trim l) d = false) before.
Proof.
  intros H. unfold hasDateHeader in H.
  destruct (findIndex_existsb _ _ H) as [b [x [a [E [Hx F]]]]].
  exists b, x, a; repeat split; auto. apply eqs_eq; exact Hx.
Qed.

Lemma merge_new (r d : jsstring) (ev : list jsstring) :
  ev <> [] -> hasDateHeader r d = false ->
  mergeDateSection r (d, ev)
  = (if 0 <? length r then r ++ [NL; NL] else r) ++ d ++ [NL] ++ join [NL] ev.
Proof.
  intros Hne H. unfold mergeDateSection.
  rewrite (length_eqb_0 ev Hne), H. reflexivity.
Qed.

Lemma merge_existing (r d : jsstring) (ev : list jsstring)
  (before : list jsstring) (hdr : jsstring) (run tail : list jsstring) :
  ev <> [] ->
  docLines r = before ++ hdr :: run ++ tail ->
  trim hdr = d ->
  Forall (fun l => eqs (trim l) d = false) before ->
  Forall (fun l => entryOrBlank l = true) run ->
  stopsAt entryOrBlank tail ->
  mergeDateSection r (d, ev)
  = join [NL] (before ++ hdr :: run ++ ev ++ tail).
Proof.
  intros Hne E Hh Fb Fr St. unfold mergeDateSection, docLines in *.
  rewrite (length_eqb_0 ev Hne).
  assert (Hp : eqs (trim hdr) d = true) by (apply eqs_eq; exact Hh).
  assert (Hhas : hasDateHeader r d = true).
  { unfold hasDateHeader. rewrite E. apply existsb_exists. exists hdr.
    split; [apply in_elt | exact Hp]. }
  rewrite Hhas. simpl negb. cbv iota. rewrite E.
  rewrite (findIndex_first _ before hdr (run ++ tail) Fb Hp).
  replace (before ++ hdr :: run ++ tail)
    with ((before ++ [hdr]) ++ run ++ tail)
    by (rewrite <- app_assoc; reflexivity).
  rewrite (skipn_exact (before ++ [hdr]) (run ++ tail))
    by (rewrite length_app; simpl; lia).
  fold entryOrBlank.
  change (fun line : jsstring =>
            startsWith line (str "- ") || eqs (trim line) [])
    with entryOrBlank.
  rewrite (scanWhile_run entryOrBlank run tail _ Fr St).
  replace ((before ++ [hdr]) ++ run ++ tail)
    with (((before ++ [hdr]) ++ run) ++ tail)
    by (symmetry; apply app_assoc).
  rewrite (firstn_exact ((before ++ [hdr]) ++ run) tail),
          (skipn_exact ((before ++ [hdr]) ++ run) tail)
    by (rewrite !length_app; simpl; lia).
  f_equal. rewrite <- !app_assoc. reflexivity.
Qed.

Lemma merge_existing_ex (r d : jsstring) (ev : list jsstring) :
  ev <> [] -> hasDateHeader r d = true ->
  exists before hdr run tail,
    docLines r = before ++ hdr :: run ++ tail /\ trim hdr = d
    /\ Forall (fun l => eqs (trim l) d = false) before
    /\ Forall (fun l => entryOrBlank l = true) run
    /\ stopsAt entryOrBlank tail
    /\ mergeDateSection r (d, ev)
       = join [NL] (before ++ hdr :: run ++ ev ++ tail).
Proof.
  intros Hne H. destruct (locate_header r d H) as [b [h [a [E [Hh Fb]]]]].
  destruct (span_exists entryOrBlank a) as [run [tail [Ea [Fr St]]]].
  subst a. exists b, h, run, tail. repeat split; auto.
  apply merge_existing; auto.
Qed.

(** ** Sublists *)

Lemma sublist_refl {A : Type} (l : list A) : sublist l l.
Proof. induction l; [apply sublist_nil | apply sublist_cons; auto]. Qed.

Lemma sublist_nil_l {A : Type} (l : list A) : sublist [] l.
Proof. induction l; [apply sublist_nil | apply sublist_skip; auto]. Qed.

Lemma sublist_app {A : Type} (a a' b b' : list A) :
  sublist a a' -> sublist b b' -> sublist (a ++ b) (a' ++ b').
Proof.
  induction 1; simpl; intros; auto;
    [apply sublist_skip | apply sublist_cons]; auto.
Qed.

Lemma sublist_trans {A : Type} (a b c : list A) :
  sublist a b -> sublist b c -> sublist a c.
Proof.
  intros Hab Hbc; revert a Hab.
  induction Hbc as [|x b c Hbc IH|x b c Hbc IH]; intros a Hab.
  - exact Hab.
  - apply sublist_skip; auto.
  - inversion Hab; subst; [apply sublist_skip | apply sublist_cons]; auto.
Qed.

Lemma sublist_insert {A : Type} (a m b : list A) :
  sublist (a ++ b) (a ++ m ++ b).
Proof.
  apply sublist_app; [apply sublist_refl|].
  rewrite <- (app_nil_l b) at 1. apply sublist_app;
    [apply sublist_nil_l | apply sublist_refl].
Qed.

Lemma sublist_app_r {A : Type} (a m : list A) : sublist a (a ++ m).
Proof.
  rewrite <- (app_nil_r a) at 1.
  apply sublist_app; [apply sublist_refl | apply sublist_nil_l].
Qed.

(** ** Lines of joined lines *)

Lemma split_join_gen (c : char) (ls : list jsstring) :
  ls <> [] -> split c (join [c] ls) = flat_map (split c) ls.
Proof.
  induction ls as [|l ls IH]; intros Hne; [congruence|].
  destruct ls as [|l' ls].
  - simpl. rewrite app_nil_r. reflexivity.
  - rewrite join_cons2.
    change ([c] ++ join [c] (l' :: ls)) with (c :: join [c] (l' :: ls)).
    rewrite split_app_sep, IH by discriminate. reflexivity.
Qed.

Lemma flat_map_split_free (c : char) (ls : list jsstring) :
  Forall (fun l => ~ In c l) ls -> flat_map (split c) ls = ls.
Proof.
  induction 1 as [|l ls Hl _ IH]; simpl; [reflexivity|].
  rewrite (split_free c l Hl), IH. reflexivity.
Qed.

Lemma eventLines_oneLine (ev : list jsstring) :
  Forall oneLine ev -> eventLines ev = ev.
Proof. apply flat_map_split_free. Qed.

Lemma docLines_join (ls : list jsstring) :
  ls <> [] -> docLines (join [NL] ls) = eventLines ls.
Proof. apply split_join_gen. Qed.

Lemma eventLines_app (a b : list jsstring) :
  eventLines (a ++ b) = eventLines a ++ eventLines b.
Proof. apply flat_map_app. Qed.

Lemma docLines_nil_inv (doc : jsstring) : docLines doc = [[]] -> doc = [].
Proof.
  intros H. rewrite <- (join_split NL doc). unfold docLines in H.
  rewrite H. reflexivity.
Qed.

Lemma hasDateHeader_nonempty (r d : jsstring) :
  d <> [] -> hasDateHeader r d = true -> r <> [].
Proof.
  intros Hd H ->. unfold hasDateHeader in H. simpl in H.
  destruct d; [congruence | discriminate].
Qed.

(** The lines of a document after one section was merged into it. *)
Lemma merge_lines_new (r d : jsstring) (ev : list jsstring) :
  ev <> [] -> oneLine d -> hasDateHeader r d = false ->
  docLines (mergeDateSection r (d, ev))
  = (if 0 <? length r then docLines r ++ [[]] else []) ++ d :: eventLines ev.
Proof.
  intros Hne Hd H. rewrite merge_new by assumption. unfold docLines.
  assert (E : split NL (d ++ [NL] ++ join [NL] ev) = d :: eventLines ev).
  { change (d ++ [NL] ++ join [NL] ev) with (d ++ NL :: join [NL] ev).
    rewrite split_app_sep, (split_free NL d Hd), split_join_gen by assumption.
    reflexivity. }
  destruct r as [|c r]; [exact E|].
  change (0 <? length (c :: r)) with true. cbv iota.
  rewrite <- !app_assoc.
  change ([NL; NL] ++ d ++ [NL] ++ join [NL] ev)
    with (NL :: ([] ++ NL :: (d ++ [NL] ++ join [NL] ev))).
  rewrite !split_app_sep, E. reflexivity.
Qed.

Lemma merge_lines_existing (r d : jsstring) (ev : list jsstring) :
  ev <> [] -> hasDateHeader r d = true ->
  exists before hdr run tail,
    docLines r = before ++ hdr :: run ++ tail /\ trim hdr = d
    /\ Forall (fun l => eqs (trim l) d = false) before
    /\ Forall (fun l => entryOrBlank l = true) run
    /\ stopsAt entryOrBlank tail
    /\ docLines (mergeDateSection r (d, ev))
       = before ++ hdr :: run ++ eventLines ev ++ tail.
Proof.
  intros Hne H.
  destruct (merge_existing_ex r d ev Hne H)
    as [b [h [run [tail [E [Hh [Fb [Fr [St Em]]]]]]]]].
  exists b, h, run, tail. repeat split; auto.
  rewrite Em, docLines_join by (destruct b; discriminate).
  pose proof (docLines_oneLine r) as F. rewrite E in F.
  apply Forall_app in F. destruct F as [F1 F]. inversion F as [|? ? F2 F3].
  subst. apply Forall_app in F3. destruct F3 as [F3 F4].
  change (b ++ h :: run ++ ev ++ tail) with (b ++ [h] ++ run ++ ev ++ tail).
  rewrite !eventLines_app.
  rewrite (eventLines_oneLine b), (eventLines_oneLine run),
          (eventLines_oneLine tail), (eventLines_oneLine [h]); auto.
Qed.

Lemma filter_headers_app (a b : list jsstring) :
  filter (test DATE_HEADER) (List.map trim (a ++ b))
  = filter (test DATE_HEADER) (List.map trim a)
    ++ filter (test DATE_HEADER) (List.map trim b).
Proof. rewrite map_app, filter_app; reflexivity. Qed.

Lemma merge_headers (r d : jsstring) (ev : list jsstring) :
  isSection (d, ev) -> Forall oneLine ev -> ev <> [] ->
  headers (mergeDateSection r (d, ev))
  = if hasDateHeader r d then headers r else headers r ++ [d].
Proof.
  intros [Hd Fe] Fo Hne. simpl in Hd, Fe.
  pose proof (date_header_trimmed d Hd) as Ht.
  pose proof (events_no_headers ev Fe) as Hev.
  destruct (hasDateHeader r d) eqn:H.
  - destruct (merge_lines_existing r d ev Hne H)
      as [b [h [run [tail [E [_ [_ [_ [_ El]]]]]]]]].
    unfold headers. rewrite El, E, (eventLines_oneLine ev Fo).
    change (b ++ h :: run ++ ev ++ tail) with (b ++ [h] ++ run ++ ev ++ tail).
    change (b ++ h :: run ++ tail) with (b ++ [h] ++ run ++ tail).
    rewrite !filter_headers_app, Hev. reflexivity.
  - unfold headers.
    rewrite merge_lines_new, (eventLines_oneLine ev Fo);
      auto using date_header_oneLine.
    change (d :: ev) with ([d] ++ ev).
    rewrite !filter_headers_app, Hev, app_nil_r.
    assert (Ed : filter (test DATE_HEADER) (List.map trim [d]) = [d]).
    { simpl. rewrite Ht, Hd. reflexivity. }
    rewrite Ed. destruct r as [|c r]; [reflexivity|].
    change (0 <? length (c :: r)) with true. cbv iota.
    rewrite filter_headers_app. simpl. rewrite app_nil_r. reflexivity.
Qed.

Lemma merge_sublist (r d : jsstring) (ev : list jsstring) :
  ev <> [] -> oneLine d -> r <> [] ->
  sublist (docLines r) (docLines (mergeDateSection r (d, ev))).
Proof.
  intros Hne Hd Hr. destruct (hasDateHeader r d) eqn:H.
  - destruct (merge_lines_existing r d ev Hne H)
      as [b [h [run [tail [E [_ [_ [_ [_ El]]]]]]]]].
    rewrite El, E.
    change (b ++ h :: run ++ eventLines ev ++ tail)
      with (b ++ [h] ++ run ++ eventLines ev ++ tail).
    change (b ++ h :: run ++ tail) with (b ++ [h] ++ run ++ tail).
    repeat (apply sublist_app; [apply sublist_refl|]).
    apply (sublist_insert [] (eventLines ev) tail).
  - rewrite merge_lines_new by assumption.
    destruct r as [|c r]; [congruence|].
    change (0 <? length (c :: r)) with true. cbv iota.
    rewrite <- app_assoc. apply sublist_app_r.
Qed.

Lemma sublist_singleton {A : Type} (l : list A) (x : A) :
  sublist l [x] -> l = [] \/ l = [x].
Proof.
  intros S. inversion S as [|y l1 l2 S'|y l1 l2 S']; subst.
  - inversion S'; auto.
  - inversion S'; auto.
Qed.

Lemma docLines_nonempty (r r' : jsstring) :
  r <> [] -> sublist (docLines r) (docLines r') -> r' <> [].
Proof.
  intros Hr S ->. change (docLines []) with [@nil char] in S.
  apply sublist_singleton in S. destruct S as [S|S].
  - apply (split_not_nil NL r S).
  - apply Hr, docLines_nil_inv, S.
Qed.

Lemma merge_nonempty (r d : jsstring) (ev : list jsstring) :
  ev <> [] -> oneLine d -> r <> [] -> mergeDateSection r (d, ev) <> [].
Proof.
  intros Hne Hd Hr. apply (docLines_nonempty r); auto.
  apply merge_sublist; auto.
Qed.

Lemma merge_trimmed (r d : jsstring) (ev : list jsstring) :
  isSection (d, ev) -> ev <> [] -> trimmed r ->
  trimmed (mergeDateSection r (d, ev)).
Proof.
  intros [Hd Fe] Hne Hr. simpl in Hd, Fe.
  destruct (events_join_last ev Hne Fe) as [b [c [Ej Hc]]].
  pose proof (date_header_chars d Hd) as [Hdn _].
  destruct (hasDateHeader r d) eqn:H.
  - destruct (merge_existing_ex r d ev Hne H)
      as [bf [h [run [tail [E [_ [_ [_ [_ Em]]]]]]]]].
    rewrite Em. pose proof (join_split NL r) as Er.
    fold (docLines r) in Er. rewrite E in Er.
    assert (Hr0 : r <> []) by (apply (hasDateHeader_nonempty r d); auto).
    destruct tail as [|t0 tail].
    + rewrite app_nil_r in *.
      change (bf ++ h :: run ++ ev) with (bf ++ (h :: run) ++ ev).
      rewrite app_assoc, join_app; auto; [|destruct bf; discriminate].
      change (bf ++ h :: run) with (bf ++ (h :: run)) in Er.
      rewrite Er. apply (trimmed_append r _ (NL :: b) c); auto.
      rewrite Ej. reflexivity.
    + change (bf ++ h :: run ++ ev ++ t0 :: tail)
        with (bf ++ (h :: run) ++ ev ++ t0 :: tail).
      rewrite app_assoc, join_app; [|destruct bf; discriminate|
        destruct ev; simpl; discriminate].
      rewrite (join_app [NL] ev (t0 :: tail)) by (auto; discriminate).
      change (bf ++ h :: run ++ t0 :: tail)
        with (bf ++ (h :: run) ++ t0 :: tail) in Er.
      rewrite app_assoc, join_app in Er;
        [|destruct bf; discriminate|discriminate].
      apply (trimmed_insert (join [NL] (bf ++ h :: run)) (join [NL] ev)
                            (join [NL] (t0 :: tail))).
      change (trimmed (join [NL] (bf ++ h :: run) ++ [NL]
                       ++ join [NL] (t0 :: tail))).
      rewrite Er. exact Hr.
  - rewrite merge_new by assumption.
    destruct r as [|x r].
    + simpl. apply (trimmed_append d _ (NL :: b) c); auto.
      * apply date_header_trimmed; assumption.
      * rewrite Ej; reflexivity.
    + change (0 <? length (x :: r)) with true. cbv iota.
      rewrite <- app_assoc.
      apply (trimmed_append (x :: r) _ ([NL; NL] ++ d ++ NL :: b) c);
        auto; [discriminate|].
      rewrite <- !app_assoc. simpl. rewrite Ej. reflexivity.
Qed.

(** ** The parser of the new bullets *)

Lemma hasKey_In (d : jsstring) (de : dateEventsT) :
  hasKey d de = true <-> In d (List.map fst de).
Proof.
  induction de as [|[k v] de IH]; simpl; [split; [discriminate|tauto]|].
  rewrite orb_true_iff, IH, eqs_eq. tauto.
Qed.

Lemma pushEvent_keys (d e : jsstring) (de : dateEventsT) :
  List.map fst (pushEvent d e de) = List.map fst de.
Proof.
  induction de as [|[k v] de IH]; simpl; [reflexivity|].
  destruct (eqs k d); simpl; congruence.
Qed.

Lemma pushEvent_sections (d e : jsstring) (de : dateEventsT) :
  isEvent e -> Forall isSection de -> Forall isSection (pushEvent d e de).
Proof.
  intros He. induction 1 as [|[k v] de [Hk Hv] Fde IH]; simpl; [constructor|].
  simpl in Hk, Hv. destruct (eqs k d); constructor; auto.
  - split; [exact Hk|]. simpl. apply Forall_app; auto.
  - split; assumption.
Qed.

Lemma pushEvent_oneLine (d e : jsstring) (de : dateEventsT) :
  oneLine e -> Forall (fun s => Forall oneLine (snd s)) de ->
  Forall (fun s => Forall oneLine (snd s)) (pushEvent d e de).
Proof.
  intros He. induction 1 as [|[k v] de Hv Fde IH]; simpl; [constructor|].
  destruct (eqs k d); constructor; auto. simpl in *. apply Forall_app; auto.
Qed.

Lemma parseBullet_inv (st : jsstring * dateEventsT) (bullet : jsstring) :
  parserInv st -> parserInv (parseBullet st bullet).
Proof.
  destruct st as [cur de]. intros [F N]. simpl in F, N.
  unfold parseBullet.
  destruct (test DATE_HEADER (trim bullet)) eqn:Hd.
  - destruct (hasKey (trim bullet) de) eqn:Hk; split; simpl; auto.
    + apply Forall_app; split; auto. constructor; [|constructor].
      split; [exact Hd | constructor].
    + rewrite map_app. simpl. apply NoDup_app; auto.
      * constructor; [intros []|constructor].
      * intros x Hx [<-|[]]. apply hasKey_In in Hx. congruence.
  - destruct (startsWith (trim bullet) (str "- ") && (0 <? length cur)) eqn:E;
      [|split; auto].
    apply andb_true_iff in E. destruct E as [E _].
    split; simpl.
    + apply pushEvent_sections; auto. split; [exact E | apply trim_trimmed].
    + rewrite pushEvent_keys; exact N.
Qed.

Lemma fold_parse_inv (bullets : list jsstring) (st : jsstring * dateEventsT) :
  parserInv st -> parserInv (fold_left parseBullet bullets st).
Proof.
  revert st; induction bullets as [|b bs IH]; intros st H; simpl; auto.
  apply IH, parseBullet_inv, H.
Qed.

Lemma parse_sections (bullets : list jsstring) :
  Forall isSection (parseDateEvents bullets).
Proof.
  apply (fold_parse_inv bullets ([], [])). split; constructor.
Qed.

Lemma parse_NoDup (bullets : list jsstring) :
  NoDup (List.map fst (parseDateEvents bullets)).
Proof.
  apply (fold_parse_inv bullets ([], [])). split; constructor.
Qed.

Lemma fold_parse_oneLine (bullets : list jsstring)
  (st : jsstring * dateEventsT) :
  singleLines bullets ->
  Forall (fun s => Forall oneLine (snd s)) (snd st) ->
  Forall (fun s => Forall oneLine (snd s))
         (snd (fold_left parseBullet bullets st)).
Proof.
  intros Hb; revert st; induction Hb as [|b bs Hb _ IH]; intros st H;
    simpl; auto.
  apply IH. destruct st as [cur de]. unfold parseBullet. simpl in H.
  destruct (test DATE_HEADER (trim b)).
  - destruct (hasKey (trim b) de); simpl; auto.
    apply Forall_app; split; auto; repeat constructor.
  - destruct (startsWith (trim b) (str "- ") && (0 <? length cur)); simpl; auto.
    apply pushEvent_oneLine; auto; apply oneLine_trim, Hb.
Qed.

Lemma parse_oneLine (bullets : list jsstring) :
  singleLines bullets ->
  Forall (fun s => Forall oneLine (snd s)) (parseDateEvents bullets).
Proof.
  intros H. apply (fold_parse_oneLine bullets ([], [])); auto; constructor.
Qed.

(** A header followed by its events parses back to the one section. *)
Lemma fold_parse_events (d : jsstring) (ev acc : list jsstring) :
  d <> [] -> Forall isEvent ev ->
  fold_left parseBullet ev (d, [(d, acc)]) = (d, [(d, acc ++ ev)]).
Proof.
  intros Hd F; revert acc; induction F as [|e ev [Hs Ht] _ IH]; intros acc;
    simpl.
  - rewrite app_nil_r; reflexivity.
  - rewrite Ht, (event_not_date_header e Hs), Hs.
    destruct d as [|c d]; [congruence|]. simpl length. cbn [Nat.ltb Nat.leb andb].
    rewrite eqs_refl. rewrite IH, <- app_assoc. reflexivity.
Qed.

Lemma parse_section (d : jsstring) (ev : list jsstring) :
  isSection (d, ev) -> parseDateEvents (d :: ev) = [(d, ev)].
Proof.
  intros [Hd Fe]. simpl in Hd, Fe. unfold parseDateEvents. simpl.
  rewrite (date_header_trimmed d Hd), Hd. simpl.
  rewrite fold_parse_events; auto. apply (date_header_chars d Hd).
Qed.

Lemma hasMultipleDates_section (d : jsstring) (ev : list jsstring) :
  test DATE_HEADER d = true -> hasMultipleDates (d :: ev) = true.
Proof.
  intros Hd. unfold hasMultipleDates. simpl.
  rewrite (date_header_trimmed d Hd), Hd. reflexivity.
Qed.

Lemma appendToJournal_section (today : Date) (r d : jsstring)
  (ev : list jsstring) :
  isSection (d, ev) ->
  appendToJournal today r (d :: ev) = mergeDateSection (trim r) (d, ev).
Proof.
  intros H. unfold appendToJournal.
  rewrite hasMultipleDates_section by apply H.
  unfold mergeMultiDateContent. rewrite parse_section by assumption.
  reflexivity.
Qed.

(** ** The two loops over the date sections *)

Lemma fold_merge_no_events (gs : dateEventsT) (r : jsstring) :
  existsb hasEvents gs = false -> fold_left mergeDateSection gs r = r.
Proof.
  revert r; induction gs as [|[d ev] gs IH]; intros r H; simpl in *; auto.
  apply orb_false_iff in H. destruct H as [H1 H2].
  destruct ev; [|discriminate]. apply IH, H2.
Qed.

Lemma fold_merge_filter (gs : dateEventsT) (r : jsstring) :
  fold_left mergeDateSection gs r
  = fold_left mergeDateSection (filter hasEvents gs) r.
Proof.
  revert r; induction gs as [|[d ev] gs IH]; intros r; [reflexivity|].
  destruct ev as [|e ev]; simpl; [apply IH|].
  rewrite <- IH. reflexivity.
Qed.

Lemma fold_merge_trimmed (gs : dateEventsT) (r : jsstring) :
  Forall isSection gs -> trimmed r ->
  trimmed (fold_left mergeDateSection gs r).
Proof.
  intros F; revert r; induction F as [|[d ev] gs H _ IH]; intros r Hr;
    cbn [fold_left]; auto.
  apply IH. destruct ev as [|e ev]; [exact Hr|].
  apply merge_trimmed; auto; discriminate.
Qed.

Lemma existsb_filter_nil {A : Type} (p : A -> bool) (l : list A) :
  existsb p l = false <-> filter p l = [].
Proof.
  induction l as [|x l IH]; simpl; [tauto|].
  destruct (p x); simpl; [split; discriminate | exact IH].
Qed.

Lemma overwrite_unselected (today : Date) (r d : jsstring)
  (ev : list jsstring) (dates : list jsstring) :
  isSection (d, ev) -> arrayIncludes dates d = false ->
  overwriteDateSection today dates r (d, ev)
  = if length ev =? 0 then r else mergeDateSection (trim r) (d, ev).
Proof.
  intros H Hd. unfold overwriteDateSection. rewrite Hd.
  destruct (length ev =? 0); [reflexivity|].
  apply appendToJournal_section, H.
Qed.

Lemma fold_overwrite_nil (today : Date) (gs : dateEventsT) (r : jsstring) :
  Forall isSection gs ->
  fold_left (overwriteDateSection today []) gs r
  = if existsb hasEvents gs
    then fold_left mergeDateSection gs (trim r) else r.
Proof.
  intros F; revert r; induction F as [|[d ev] gs H _ IH]; intros r;
    [reflexivity|].
  cbn [fold_left]. rewrite (overwrite_unselected today r d ev []) by auto.
  destruct ev as [|e ev].
  - simpl. apply IH.
  - change (length (e :: ev) =? 0) with false. cbv iota.
    change (existsb hasEvents ((d, e :: ev) :: gs)) with true. cbv iota.
    assert (T : trimmed (mergeDateSection (trim r) (d, e :: ev))).
    { apply merge_trimmed; auto; [discriminate | apply trim_trimmed]. }
    rewrite IH, T. destruct (existsb hasEvents gs) eqn:E; [reflexivity|].
    symmetry; apply fold_merge_no_events, E.
Qed.

Lemma groups_nonempty (bullets : list jsstring) :
  groupsOfPayload bullets <> [] <->
  existsb hasEvents (parseDateEvents bullets) = true.
Proof.
  unfold groupsOfPayload.
  pose proof (existsb_filter_nil hasEvents (parseDateEvents bullets)) as H.
  destruct (existsb hasEvents (parseDateEvents bullets)).
  - split; auto. intros _ E. apply H in E. discriminate.
  - split; [|discriminate]. intros E. exfalso; apply E, H; reflexivity.
Qed.

Lemma hasMultipleDates_nonempty (bullets : list jsstring) :
  hasMultipleDates bullets = true -> (length bullets =? 0) = false.
Proof. destruct bullets; [discriminate | reflexivity]. Qed.

Lemma appendToJournal_multi (today : Date) (doc : jsstring)
  (bullets : list jsstring) :
  hasMultipleDates bullets = true ->
  appendToJournal today doc bullets
  = fold_left mergeDateSection (groupsOfPayload bullets) (trim doc).
Proof.
  intros H. unfold appendToJournal.
  rewrite (hasMultipleDates_nonempty bullets H), H.
  apply fold_merge_filter.
Qed.

Lemma overwriteJournal_multi (today : Date) (doc : jsstring)
  (bullets dates : list jsstring) :
  hasMultipleDates bullets = true ->
  overwriteJournal today doc bullets dates
  = fold_left (overwriteDateSection today dates) (parseDateEvents bullets) doc.
Proof.
  intros H. unfold overwriteJournal.
  rewrite (hasMultipleDates_nonempty bullets H), H. reflexivity.
Qed.

Lemma overwriteJournal_nil (today : Date) (doc : jsstring)
  (bullets : list jsstring) :
  hasMultipleDates bullets = true ->
  overwriteJournal today doc bullets []
  = if existsb hasEvents (parseDateEvents bullets)
    then appendToJournal today doc bullets else doc.
Proof.
  intros H. rewrite overwriteJournal_multi by assumption.
  rewrite fold_overwrite_nil by apply parse_sections.
  destruct (existsb hasEvents (parseDateEvents bullets)); [|reflexivity].
  unfold appendToJournal.
  rewrite (hasMultipleDates_nonempty bullets H), H. reflexivity.
Qed.

Lemma appendToJournal_multi_trimmed (today : Date) (doc : jsstring)
  (bullets : list jsstring) :
  hasMultipleDates bullets = true ->
  trimmed (appendToJournal today doc bullets).
Proof.
  intros H. unfold appendToJournal.
  rewrite (hasMultipleDates_nonempty bullets H), H.
  apply fold_merge_trimmed; [apply parse_sections | apply trim_trimmed].
Qed.

(** ** C1: overwrite with no date selected, against append *)

(** C1, as stated, fails: when no date section of the bullets retains an
    entry line, [overwriteJournal] returns the document as it is while
    [appendToJournal] returns it trimmed. *)
Lemma overwrite_empty_set_differs :
  hasMultipleDates [str "9.21.2025"] = true /\
  overwriteJournal 20352%Z (str " x ") [str "9.21.2025"] []
  <> appendToJournal 20352%Z (str " x ") [str "9.21.2025"].
Proof. split; [reflexivity | vm_compute; discriminate]. Qed.

(** C1, amended.  For every document and every multi-date bullet list,
    [appendToJournal] returns what [overwriteJournal] returns for the empty
    set of dates, trimmed; the two outputs are identical as soon as a date
    section of the bullets retains an entry line, or the document has no
    white space at its ends. *)
Theorem overwrite_empty_set_equivalence (today : Date) (doc : jsstring)
  (bullets : list jsstring) :
  hasMultipleDates bullets = true ->
  trim (overwriteJournal today doc bullets [])
  = appendToJournal today doc bullets
  /\ (groupsOfPayload bullets <> [] \/ trimmed doc ->
      overwriteJournal today doc bullets []
      = appendToJournal today doc bullets).
Proof.
  intros H. rewrite overwriteJournal_nil by assumption.
  pose proof (appendToJournal_multi_trimmed today doc bullets H) as T.
  destruct (existsb hasEvents (parseDateEvents bullets)) eqn:E.
  - split; [exact T | reflexivity].
  - assert (A : appendToJournal today doc bullets = trim doc).
    { rewrite appendToJournal_multi by assumption.
      unfold groupsOfPayload.
      apply existsb_filter_nil in E. rewrite E. reflexivity. }
    split; [symmetry; exact A|]. intros [G|G].
    + apply groups_nonempty in G. congruence.
    + rewrite A. symmetry; exact G.
Qed.

Lemma overwrite_empty_set_equivalence_witness :
  hasMultipleDates [str "9.21.2025"; str "- b"] = true /\
  (trim (overwriteJournal 20352%Z (str "9.21.2025
- a") [str "9.21.2025"; str "- b"] [])
   = appendToJournal 20352%Z (str "9.21.2025
- a") [str "9.21.2025"; str "- b"]
   /\ (groupsOfPayload [str "9.21.2025"; str "- b"] <> [] \/
       trimmed (str "9.21.2025
- a") ->
       overwriteJournal 20352%Z (str "9.21.2025
- a") [str "9.21.2025"; str "- b"] []
       = appendToJournal 20352%Z (str "9.21.2025
- a") [str "9.21.2025"; str "- b"])).
Proof.
  split; [reflexivity|].
  apply (overwrite_empty_set_equivalence 20352%Z); reflexivity.
Defined.

(** ** One date section overwritten *)

Lemma hasDateHeader_findIndex (r d : jsstring) :
  hasDateHeader r d = false ->
  findIndex (fun line => eqs (trim line) d) (split NL r) = None.
Proof. intros H. apply findIndex_None. exact H. Qed.

Lemma overwrite_missing (today : Date) (r d : jsstring)
  (ev : list jsstring) :
  hasDateHeader r d = false ->
  overwriteSingleDate today r ev d = appendToJournal today r (d :: ev).
Proof.
  intros H. unfold overwriteSingleDate.
  rewrite hasDateHeader_findIndex by assumption. reflexivity.
Qed.

Lemma overwrite_existing (today : Date) (r d : jsstring)
  (ev before : list jsstring) (hdr : jsstring) (body after : list jsstring) :
  docLines r = before ++ hdr :: body ++ after ->
  trim hdr = d ->
  Forall (fun l => eqs (trim l) d = false) before ->
  Forall (fun l => isHeaderLine l = false) body ->
  stopsAt (fun l => negb (isHeaderLine l)) after ->
  overwriteSingleDate today r ev d
  = join [NL] (before ++ hdr :: ev ++ after).
Proof.
  intros E Hh Fb Fbody St. unfold overwriteSingleDate, docLines in *.
  assert (Hp : eqs (trim hdr) d = true) by (apply eqs_eq; exact Hh).
  rewrite E.
  rewrite (findIndex_first _ before hdr (body ++ after) Fb Hp).
  replace (before ++ hdr :: body ++ after)
    with ((before ++ [hdr]) ++ body ++ after)
    by (rewrite <- app_assoc; reflexivity).
  rewrite (skipn_exact (before ++ [hdr]) (body ++ after) (length before + 1))
    by (rewrite length_app; simpl; lia).
  change (fun line : jsstring => negb (test DATE_HEADER (trim line)))
    with (fun line : jsstring => negb (isHeaderLine line)).
  rewrite (scanWhile_run (fun l => negb (isHeaderLine l)) body after).
  - rewrite (firstn_exact (before ++ [hdr]) (body ++ after))
      by (rewrite length_app; simpl; lia).
    replace ((before ++ [hdr]) ++ body ++ after)
      with (((before ++ [hdr]) ++ body) ++ after)
      by (symmetry; apply app_assoc).
    rewrite (skipn_exact ((before ++ [hdr]) ++ body) after)
      by (rewrite !length_app; simpl; lia).
    rewrite <- !app_assoc. reflexivity.
  - eapply Forall_impl; [|exact Fbody]. intros l Hl. simpl. rewrite Hl.
    reflexivity.
  - exact St.
Qed.

Lemma overwrite_existing_ex (today : Date) (r d : jsstring)
  (ev : list jsstring) :
  hasDateHeader r d = true ->
  exists before hdr body after,
    docLines r = before ++ hdr :: body ++ after /\ trim hdr = d
    /\ Forall (fun l => eqs (trim l) d = false) before
    /\ Forall (fun l => isHeaderLine l = false) body
    /\ stopsAt (fun l => negb (isHeaderLine l)) after
    /\ overwriteSingleDate today r ev d
       = join [NL] (before ++ hdr :: ev ++ after).
Proof.
  intros H. destruct (locate_header r d H) as [b [h [a [E [Hh Fb]]]]].
  destruct (span_exists (fun l => negb (isHeaderLine l)) a)
    as [body [after [Ea [Fr St]]]].
  subst a. exists b, h, body, after.
  assert (Fbody : Forall (fun l => isHeaderLine l = false) body).
  { eapply Forall_impl; [|exact Fr]. intros l Hl. simpl in Hl.
    destruct (isHeaderLine l); [discriminate | reflexivity]. }
  repeat split; auto. apply (overwrite_existing today r d ev b h body after); auto.
Qed.

Lemma overwrite_selected (today : Date) (r d : jsstring)
  (ev dates : list jsstring) :
  ev <> [] -> arrayIncludes dates d = true ->
  overwriteDateSection today dates r (d, ev)
  = overwriteSingleDate today r ev d.
Proof.
  intros Hne H. unfold overwriteDateSection.
  rewrite (length_eqb_0 ev Hne), H. reflexivity.
Qed.

Lemma append_new_section (today : Date) (doc d : jsstring)
  (ev : list jsstring) :
  isSection (d, ev) -> ev <> [] -> hasDateHeader doc d = false ->
  appendToJournal today doc (d :: ev)
  = (if 0 <? length (trim doc) then trim doc ++ [NL; NL] else trim doc)
    ++ d ++ [NL] ++ join [NL] ev.
Proof.
  intros S Hne H. rewrite appendToJournal_section by assumption.
  apply merge_new; auto. rewrite hasDateHeader_trim; [exact H | apply S].
Qed.

Lemma fold_overwrite_filter (today : Date) (dates : list jsstring)
  (gs : dateEventsT) (r : jsstring) :
  fold_left (overwriteDateSection today dates) gs r
  = fold_left (overwriteDateSection today dates) (filter hasEvents gs) r.
Proof.
  revert r; induction gs as [|[d ev] gs IH]; intros r; [reflexivity|].
  destruct ev as [|e ev]; simpl; [apply IH|].
  rewrite <- IH. reflexivity.
Qed.

Lemma overwriteJournal_groups (today : Date) (doc : jsstring)
  (bullets dates : list jsstring) :
  hasMultipleDates bullets = true ->
  overwriteJournal today doc bullets dates
  = fold_left (overwriteDateSection today dates) (groupsOfPayload bullets) doc.
Proof.
  intros H. rewrite overwriteJournal_multi by assumption.
  apply fold_overwrite_filter.
Qed.

(** ** C2: a selected section is replaced *)



(** ** Headers after a merge or an overwrite *)

Lemma arrayIncludes_In (a : list jsstring) (x : jsstring) :
  arrayIncludes a x = true <-> In x a.
Proof.
  unfold arrayIncludes. rewrite existsb_exists. split.
  - intros [y [Hy E]]. apply eqs_eq in E. subst; exact Hy.
  - intros H. exists x; split; [exact H | apply eqs_refl].
Qed.

Lemma hasDateHeader_arrayIncludes (r d : jsstring) :
  test DATE_HEADER d = true ->
  hasDateHeader r d = arrayIncludes (headers r) d.
Proof.
  intros Hd. pose proof (hasDateHeader_headers r d Hd) as H.
  pose proof (arrayIncludes_In (headers r) d) as H'.
  destruct (hasDateHeader r d), (arrayIncludes (headers r) d); auto.
  - symmetry; apply H', H; reflexivity.
  - apply H, H'; reflexivity.
Qed.

Lemma merge_headers' (r d : jsstring) (ev : list jsstring) :
  isSection (d, ev) -> Forall oneLine ev -> ev <> [] ->
  headers (mergeDateSection r (d, ev))
  = headers r ++ newDates (headers r) [(d, ev)].
Proof.
  intros S Fo Hne. rewrite merge_headers by assumption.
  rewrite (hasDateHeader_arrayIncludes r d) by apply S.
  unfold newDates. simpl.
  destruct (arrayIncludes (headers r) d); simpl;
    [rewrite app_nil_r|]; reflexivity.
Qed.

Lemma overwrite_existing_headers (today : Date) (r d : jsstring)
  (ev : list jsstring) :
  Forall isEvent ev -> Forall oneLine ev ->
  hasDateHeader r d = true ->
  headers (overwriteSingleDate today r ev d) = headers r.
Proof.
  intros Fe Fo H.
  destruct (overwrite_existing_ex today r d ev H)
    as [b [h [body [after [E [Hh [Fb [Fbody [St Eo]]]]]]]]].
  rewrite Eo. pose proof (docLines_oneLine r) as F. rewrite E in F.
  apply Forall_app in F. destruct F as [F1 F]. inversion F as [|? ? F2 F3].
  subst. apply Forall_app in F3. destruct F3 as [F3 F4].
  rewrite headers_of_lines.
  - unfold headers. rewrite E.
    change (b ++ h :: ev ++ after) with (b ++ [h] ++ ev ++ after).
    change (b ++ h :: body ++ after) with (b ++ [h] ++ body ++ after).
    rewrite !filter_headers_app, (events_no_headers ev Fe).
    replace (filter (test DATE_HEADER) (List.map trim body))
      with (@nil jsstring); [reflexivity|].
    clear -Fbody. induction Fbody as [|l body Hl _ IH]; [reflexivity|].
    simpl. unfold isHeaderLine in Hl. rewrite Hl. exact IH.
  - destruct b; discriminate.
  - apply Forall_app; split; auto. constructor; auto.
    apply Forall_app; split; auto.
Qed.

(** Every turn of either loop leaves the headers in place and adds the
    section's date at the end when the document has no header for it. *)
Lemma overwrite_step_headers (today : Date) (dates : list jsstring)
  (r d : jsstring) (ev : list jsstring) :
  isSection (d, ev) -> Forall oneLine ev -> ev <> [] ->
  headers (overwriteDateSection today dates r (d, ev))
  = headers r ++ newDates (headers r) [(d, ev)].
Proof.
  intros S Fo Hne.
  assert (A : headers (appendToJournal today r (d :: ev))
              = headers r ++ newDates (headers r) [(d, ev)]).
  { rewrite appendToJournal_section, merge_headers', headers_trim by auto.
    reflexivity. }
  unfold overwriteDateSection. rewrite (length_eqb_0 ev Hne).
  destruct (arrayIncludes dates d); [|exact A].
  destruct (hasDateHeader r d) eqn:H.
  - rewrite overwrite_existing_headers; auto; [|apply S].
    unfold newDates. simpl.
    rewrite <- (hasDateHeader_arrayIncludes r d), H by apply S.
    simpl. rewrite app_nil_r. reflexivity.
  - rewrite overwrite_missing by assumption. exact A.
Qed.

Lemma newDates_app (hs : list jsstring) (a b : dateEventsT) :
  newDates hs (a ++ b) = newDates hs a ++ newDates hs b.
Proof. unfold newDates. rewrite map_app, filter_app. reflexivity. Qed.

Lemma newDates_extend (hs extra : list jsstring) (gs : dateEventsT) :
  (forall d, In d extra -> ~ In d (List.map fst gs)) ->
  newDates (hs ++ extra) gs = newDates hs gs.
Proof.
  intros H. unfold newDates. apply filter_ext_in. intros d Hd.
  f_equal. unfold arrayIncludes. rewrite existsb_app.
  replace (existsb (eqs d) extra) with false; [apply orb_false_r|].
  symmetry. destruct (existsb (eqs d) extra) eqn:E; [|reflexivity].
  exfalso. apply existsb_exists in E. destruct E as [y [Hy E]].
  apply eqs_eq in E. subst y. exact (H d Hy Hd).
Qed.

Lemma newDates_In (hs : list jsstring) (gs : dateEventsT) (d : jsstring) :
  In d (newDates hs gs) -> In d (List.map fst gs) /\ ~ In d hs.
Proof.
  unfold newDates. rewrite filter_In. intros [H1 H2]. split; [exact H1|].
  intros Hin. apply arrayIncludes_In in Hin. rewrite Hin in H2.
  discriminate.
Qed.

(** The headers after a loop whose turns behave as above. *)
Lemma fold_headers (step : jsstring -> jsstring * list jsstring -> jsstring)
  (gs : dateEventsT) :
  (forall r g, In g gs ->
     headers (step r g) = headers r ++ newDates (headers r) [g]) ->
  NoDup (List.map fst gs) ->
  forall r,
    headers (fold_left step gs r) = headers r ++ newDates (headers r) gs.
Proof.
  induction gs as [|g gs IH]; intros Hstep N r.
  - simpl. unfold newDates. simpl. rewrite app_nil_r. reflexivity.
  - inversion N as [|? ? Hg N']; subst. cbn [fold_left].
    rewrite IH; auto; [|intros; apply Hstep; right; assumption].
    rewrite Hstep by (left; reflexivity).
    rewrite <- app_assoc. f_equal.
    change (g :: gs) with ([g] ++ gs). rewrite newDates_app. f_equal.
    apply newDates_extend. intros d Hd. apply newDates_In in Hd.
    destruct Hd as [[<-|[]] _]. exact Hg.
Qed.

Lemma groups_sections (bullets : list jsstring) :
  Forall isSection (groupsOfPayload bullets).
Proof.
  unfold groupsOfPayload. pose proof (parse_sections bullets) as F.
  rewrite Forall_forall in *. intros g Hg. apply filter_In in Hg.
  apply F, Hg.
Qed.

Lemma groups_oneLine (bullets : list jsstring) :
  singleLines bullets ->
  Forall (fun s => Forall oneLine (snd s)) (groupsOfPayload bullets).
Proof.
  intros H. unfold groupsOfPayload. pose proof (parse_oneLine bullets H) as F.
  rewrite Forall_forall in *. intros g Hg. apply filter_In in Hg.
  apply F, Hg.
Qed.

Lemma NoDup_map_filter {A B : Type} (f : A -> B) (p : A -> bool)
  (l : list A) :
  NoDup (List.map f l) -> NoDup (List.map f (filter p l)).
Proof.
  induction l as [|x l IH]; simpl; intros N; [constructor|].
  inversion N as [|? ? Hx N']; subst. destruct (p x); simpl; auto.
  constructor; auto. intros Hin. apply Hx.
  apply in_map_iff in Hin. destruct Hin as [y [E Hy]].
  apply filter_In in Hy. apply in_map_iff. exists y; tauto.
Qed.

Lemma groups_NoDup (bullets : list jsstring) :
  NoDup (List.map fst (groupsOfPayload bullets)).
Proof. apply NoDup_map_filter, parse_NoDup. Qed.

Lemma groups_hasEvents (bullets : list jsstring) (g : jsstring * list jsstring) :
  In g (groupsOfPayload bullets) -> snd g <> [].
Proof.
  unfold groupsOfPayload. rewrite filter_In. intros [_ H] E.
  unfold hasEvents in H. rewrite E in H. discriminate.
Qed.

Lemma append_headers (today : Date) (doc : jsstring)
  (bullets : list jsstring) :
  hasMultipleDates bullets = true -> singleLines bullets ->
  headers (appendToJournal today doc bullets)
  = headers doc ++ newDates (headers doc) (groupsOfPayload bullets).
Proof.
  intros Hm Hs. rewrite appendToJournal_multi by assumption.
  rewrite fold_headers, headers_trim; auto using groups_NoDup.
  intros r [d ev] Hg. apply merge_headers'.
  - pose proof (groups_sections bullets) as F. rewrite Forall_forall in F.
    apply (F _ Hg).
  - pose proof (groups_oneLine bullets Hs) as F. rewrite Forall_forall in F.
    apply (F _ Hg).
  - apply (groups_hasEvents bullets (d, ev) Hg).
Qed.

Lemma overwrite_headers (today : Date) (doc : jsstring)
  (bullets dates : list jsstring) :
  hasMultipleDates bullets = true -> singleLines bullets ->
  headers (overwriteJournal today doc bullets dates)
  = headers doc ++ newDates (headers doc) (groupsOfPayload bullets).
Proof.
  intros Hm Hs. rewrite overwriteJournal_groups by assumption.
  rewrite fold_headers; auto using groups_NoDup.
  intros r [d ev] Hg. apply overwrite_step_headers.
  - pose proof (groups_sections bullets) as F. rewrite Forall_forall in F.
    apply (F _ Hg).
  - pose proof (groups_oneLine bullets Hs) as F. rewrite Forall_forall in F.
    apply (F _ Hg).
  - apply (groups_hasEvents bullets (d, ev) Hg).
Qed.







(** ** C5: append keeps the order of the sections *)



(** ** C7: no duplicate header is created *)



(** ** C10: what the parser keeps of the payload *)

Lemma hasMultipleDates_app (a b : list jsstring) :
  hasMultipleDates (a ++ b) = hasMultipleDates a || hasMultipleDates b.
Proof. apply existsb_app. Qed.

Lemma fold_parse_no_header (pre : list jsstring) (cur : jsstring)
  (de : dateEventsT) :
  hasMultipleDates pre = false ->
  fst (fold_left parseBullet pre (cur, de)) = cur.
Proof.
  revert de; induction pre as [|b pre IH]; intros de H; [reflexivity|].
  unfold hasMultipleDates in H. simpl in H. apply orb_false_iff in H.
  destruct H as [Hb Hpre]. cbn [fold_left].
  assert (E : exists de', parseBullet (cur, de) b = (cur, de')).
  { unfold parseBullet. rewrite Hb.
    destruct (startsWith (trim b) (str "- ") && (0 <? length cur)); eauto. }
  destruct E as [de' E]. rewrite E. apply IH, Hpre.
Qed.

(** A payload line that is no header, and is no entry line or comes before
    the first header, leaves the parser's state as it is. *)
Lemma parseBullet_discards (st : jsstring * dateEventsT) (l : jsstring) :
  isHeaderLine l = false ->
  isEntryLine l = false \/ fst st = [] ->
  parseBullet st l = st.
Proof.
  destruct st as [cur de]. intros Hh H. unfold parseBullet.
  unfold isHeaderLine in Hh. rewrite Hh. unfold isEntryLine in H.
  destruct H as [H|H]; simpl in H.
  - rewrite H. reflexivity.
  - subst cur. rewrite andb_false_r. reflexivity.
Qed.

Lemma parse_discards (pre post : list jsstring) (l : jsstring) :
  isHeaderLine l = false ->
  isEntryLine l = false \/ hasMultipleDates pre = false ->
  parseDateEvents (pre ++ l :: post) = parseDateEvents (pre ++ post).
Proof.
  intros Hh H. unfold parseDateEvents. rewrite !fold_left_app.
  cbn [fold_left]. rewrite parseBullet_discards; auto.
  destruct H as [H|H]; [left; exact H | right].
  apply fold_parse_no_header, H.
Qed.

(** Every event of every section is the trimmed form of a payload line
    that is an entry line. *)
Lemma fold_parse_events_from (bullets : list jsstring)
  (st : jsstring * dateEventsT) (P : jsstring -> Prop) :
  (forall l, In l bullets -> isEntryLine l = true -> P (trim l)) ->
  Forall (fun s => Forall P (snd s)) (snd st) ->
  Forall (fun s => Forall P (snd s)) (snd (fold_left parseBullet bullets st)).
Proof.
  revert st; induction bullets as [|b bs IH]; intros st HP H; [exact H|].
  cbn [fold_left]. apply IH; [intros l Hl; apply HP; right; exact Hl|].
  destruct st as [cur de]. unfold parseBullet. simpl in H.
  destruct (test DATE_HEADER (trim b)).
  - destruct (hasKey (trim b) de); simpl; auto.
    apply Forall_app; split; auto; repeat constructor.
  - destruct (startsWith (trim b) (str "- ")) eqn:E; simpl; auto.
    destruct (0 <? length cur); simpl; auto.
    clear IH. induction H as [|[k v] de Hv Hde IHde]; simpl; [constructor|].
    destruct (eqs k cur); constructor; auto. simpl.
    apply Forall_app; split; auto. constructor; [|constructor].
    apply HP; [left; reflexivity | exact E].
Qed.

(** C10.  With a multi-date payload both engines work from the date
    sections that hold an event, and from nothing else of the payload: a
    line that is no header, and is no entry line or comes before the first
    header, can be left out of the payload without changing either output;
    every event the engines insert is the trimmed form of a payload line
    that starts, trimmed, with "- "; a header whose section has no event is
    skipped by both loops. *)
Theorem payload_lines_retained (today : Date) (doc : jsstring)
  (dates : list jsstring) :
  (forall pre post l,
     hasMultipleDates (pre ++ post) = true ->
     isHeaderLine l = false ->
     isEntryLine l = false \/ hasMultipleDates pre = false ->
     appendToJournal today doc (pre ++ l :: post)
     = appendToJournal today doc (pre ++ post)
     /\ overwriteJournal today doc (pre ++ l :: post) dates
        = overwriteJournal today doc (pre ++ post) dates)
  /\ (forall bullets,
        hasMultipleDates bullets = true ->
        appendToJournal today doc bullets
        = fold_left mergeDateSection (groupsOfPayload bullets) (trim doc)
        /\ overwriteJournal today doc bullets dates
           = fold_left (overwriteDateSection today dates)
                       (groupsOfPayload bullets) doc
        /\ Forall (fun s =>
             snd s <> [] /\
             Forall (fun e => exists l, In l bullets /\ e = trim l
                                        /\ isEntryLine l = true) (snd s))
             (groupsOfPayload bullets)).
Proof.
  split.
  - intros pre post l Hm Hh H.
    assert (Hm' : hasMultipleDates (pre ++ l :: post) = true).
    { rewrite hasMultipleDates_app in *. unfold hasMultipleDates at 2.
      simpl. unfold isHeaderLine in Hh. rewrite Hh. exact Hm. }
    rewrite !appendToJournal_multi, !overwriteJournal_groups by assumption.
    unfold groupsOfPayload. rewrite parse_discards by assumption. auto.
  - intros bullets Hm.
    split; [apply appendToJournal_multi, Hm|].
    split; [apply overwriteJournal_groups, Hm|].
    rewrite Forall_forall. intros g Hg. split.
    + apply (groups_hasEvents bullets g Hg).
    + unfold groupsOfPayload in Hg. apply filter_In in Hg.
      destruct Hg as [Hg _].
      assert (F : Forall (fun s => Forall
                (fun e => exists l, In l bullets /\ e = trim l
                                    /\ isEntryLine l = true) (snd s))
                (parseDateEvents bullets)).
      { apply (fold_parse_events_from bullets ([], [])).
        - intros l Hl He. exists l; auto.
        - constructor. }
      rewrite Forall_forall in F. apply (F g Hg).
Qed.

Lemma payload_lines_retained_witness :
  appendToJournal 20352%Z (str "9.20.2025
- b")
    ([str "- orphan"] ++ str "junk" ::
     [str "9.21.2025"; str "- a"; str "9.22.2025"])
  = appendToJournal 20352%Z (str "9.20.2025
- b")
    ([str "- orphan"] ++ [str "9.21.2025"; str "- a"; str "9.22.2025"]).
Proof.
  refine (proj1 (proj1 (payload_lines_retained 20352%Z _ []) _ _ _ _ _ _));
    try reflexivity.
  left; reflexivity.
Defined.

(** ** C9: what the outputs depend on *)

Lemma appendToJournal_same_day (t1 t2 : Date) (doc : jsstring)
  (bullets : list jsstring) :
  formatDateHeader t1 = formatDateHeader t2 ->
  appendToJournal t1 doc bullets = appendToJournal t2 doc bullets.
Proof. intros H. unfold appendToJournal. rewrite H. reflexivity. Qed.

Lemma overwriteSingleDate_same_day (t1 t2 : Date) (doc : jsstring)
  (bullets : list jsstring) (d : jsstring) :
  formatDateHeader t1 = formatDateHeader t2 ->
  overwriteSingleDate t1 doc bullets d = overwriteSingleDate t2 doc bullets d.
Proof.
  intros H. unfold overwriteSingleDate.
  rewrite (appendToJournal_same_day t1 t2 doc (d :: bullets) H).
  reflexivity.
Qed.

Lemma fold_left_ext_in {A B : Type} (f g : A -> B -> A) (l : list B) :
  (forall a b, In b l -> f a b = g a b) ->
  forall a, fold_left f l a = fold_left g l a.
Proof.
  induction l as [|b l IH]; intros H a; [reflexivity|].
  cbn [fold_left]. rewrite H by (left; reflexivity).
  apply IH. intros; apply H; right; assumption.
Qed.

Lemma overwriteJournal_same_day (t1 t2 : Date) (doc : jsstring)
  (bullets dates : list jsstring) :
  formatDateHeader t1 = formatDateHeader t2 ->
  overwriteJournal t1 doc bullets dates = overwriteJournal t2 doc bullets dates.
Proof.
  intros H. unfold overwriteJournal, overwriteMultiDateContent.
  rewrite H, (appendToJournal_same_day t1 t2 doc bullets H),
    (overwriteSingleDate_same_day t1 t2 doc bullets _ H).
  rewrite (fold_left_ext_in (overwriteDateSection t1 dates)
             (overwriteDateSection t2 dates)); [reflexivity|].
  intros r [d ev] _. unfold overwriteDateSection.
  rewrite (appendToJournal_same_day t1 t2 r (d :: ev) H),
    (overwriteSingleDate_same_day t1 t2 r ev d H). reflexivity.
Qed.

Lemma overwriteDateSection_any_day (t1 t2 : Date) (dates : list jsstring)
  (r d : jsstring) (ev : list jsstring) :
  isSection (d, ev) ->
  overwriteDateSection t1 dates r (d, ev)
  = overwriteDateSection t2 dates r (d, ev).
Proof.
  intros S. unfold overwriteDateSection, overwriteSingleDate.
  rewrite !appendToJournal_section by assumption. reflexivity.
Qed.

(** C9, as stated, fails: for a bullet list without date header the output
    holds the date of the day of the call, so two runs on the same document
    and bullets differ when they are made on different days. *)
Lemma output_depends_on_the_day :
  appendToJournal 20352%Z [] [str "- x"]
  <> appendToJournal 20353%Z [] [str "- x"]
  /\ overwriteJournal 20352%Z [] [str "- x"] []
     <> overwriteJournal 20353%Z [] [str "- x"] []
  /\ getAffectedDates 20352%Z [str "- x"]
     <> getAffectedDates 20353%Z [str "- x"].
Proof. repeat split; vm_compute; discriminate. Qed.

(** C9, amended.  The outputs of [appendToJournal], [overwriteJournal] and
    [getAffectedDates] are determined by their arguments when the bullet
    list is multi-date, and by their arguments and the date header of the
    current day otherwise ([getExistingDates] reads no clock at all). *)
Theorem entry_points_deterministic (today1 today2 : Date) (doc : jsstring)
  (bullets dates : list jsstring) :
  hasMultipleDates bullets = true
  \/ formatDateHeader today1 = formatDateHeader today2 ->
  appendToJournal today1 doc bullets = appendToJournal today2 doc bullets
  /\ overwriteJournal today1 doc bullets dates
     = overwriteJournal today2 doc bullets dates
  /\ getAffectedDates today1 bullets = getAffectedDates today2 bullets.
Proof.
  intros [Hm|Hd].
  - rewrite !appendToJournal_multi, !overwriteJournal_multi by assumption.
    unfold getAffectedDates. rewrite Hm.
    repeat split. apply fold_left_ext_in. intros r [d ev] Hg.
    apply overwriteDateSection_any_day.
    pose proof (parse_sections bullets) as F. rewrite Forall_forall in F.
    apply (F _ Hg).
  - repeat split.
    + apply appendToJournal_same_day, Hd.
    + apply overwriteJournal_same_day, Hd.
    + unfold getAffectedDates. rewrite Hd. reflexivity.
Qed.

Lemma entry_points_deterministic_witness :
  appendToJournal 20352%Z (str "9.21.2025
- a") [str "9.21.2025"; str "- b"]
  = appendToJournal 20353%Z (str "9.21.2025
- a") [str "9.21.2025"; str "- b"]
  /\ overwriteJournal 20352%Z (str "9.21.2025
- a") [str "9.21.2025"; str "- b"] [str "9.21.2025"]
     = overwriteJournal 20353%Z (str "9.21.2025
- a") [str "9.21.2025"; str "- b"] [str "9.21.2025"]
  /\ getAffectedDates 20352%Z [str "9.21.2025"; str "- b"]
     = getAffectedDates 20353%Z [str "9.21.2025"; str "- b"].
Proof.
  apply (entry_points_deterministic 20352%Z 20353%Z). left; reflexivity.
Defined.

(** ** Ends of a text, once more *)

Lemma trimmed_iff (s : jsstring) :
  trimmed s <-> s = [] \/ (headOk s /\ lastOk s).
Proof.
  split.
  - intros H. apply trimmed_ends in H.
    destruct H as [E|[c [t [a [d [E1 [E2 [Hc Hd]]]]]]]]; [left; exact E|].
    right; split; [exists c, t | exists a, d]; auto.
  - intros [E|[[c [t [E1 Hc]]] [a [d [E2 Hd]]]]]; apply trimmed_intro;
      [left; exact E | right].
    exists c, t, a, d; auto.
Qed.

Lemma headOk_app (a b : jsstring) : headOk a -> headOk (a ++ b).
Proof. intros [c [t [-> H]]]. exists c, (t ++ b); auto. Qed.

Lemma lastOk_app (a b : jsstring) : lastOk b -> lastOk (a ++ b).
Proof.
  intros [x [d [-> H]]]. exists (a ++ x), d.
  rewrite app_assoc; auto.
Qed.

Lemma headOk_app_inv (a b : jsstring) : a <> [] -> headOk (a ++ b) -> headOk a.
Proof.
  intros Ha [c [t [E H]]]. destruct a as [|x a]; [congruence|].
  simpl in E. injection E as -> _. exists c, a; auto.
Qed.

Lemma lastOk_app_inv (a b : jsstring) : b <> [] -> lastOk (a ++ b) -> lastOk b.
Proof.
  intros Hb [x [d [E H]]].
  destruct (@exists_last _ b Hb) as [b' [d' Eb]]. subst b.
  rewrite app_assoc in E. apply app_inj_tail in E. destruct E as [_ ->].
  exists b', d; auto.
Qed.

Lemma join_In_nonempty (ls : list jsstring) (l : jsstring) :
  In l ls -> l <> [] -> join [NL] ls <> [].
Proof.
  induction ls as [|x ls IH]; intros Hin Hl; [destruct Hin|].
  destruct ls as [|y ls].
  - destruct Hin as [->|[]]. exact Hl.
  - rewrite join_cons2. destruct x; simpl; discriminate.
Qed.

Lemma trimmed_not_endsWith_NL (s : jsstring) :
  trimmed s -> endsWith s [NL] = false.
Proof.
  intros H. apply trimmed_ends in H.
  destruct H as [->|[c [t [a [d [E1 [E2 [Hc Hd]]]]]]]]; [reflexivity|].
  unfold endsWith. rewrite E2, rev_app_distr.
  change (startsWith (rev [d] ++ rev a) (rev [NL]))
    with ((10 =? d)%N && startsWith (rev a) []).
  destruct (10 =? d)%N eqn:E; [|reflexivity].
  apply N.eqb_eq in E. subst d. discriminate.
Qed.

(** ** Lines kept by append *)

Lemma docLines_app_NL (a b : jsstring) :
  docLines (a ++ NL :: b) = docLines a ++ docLines b.
Proof. apply split_app_sep. Qed.

Lemma append_single_prefix (today : Date) (doc : jsstring)
  (bullets : list jsstring) :
  hasMultipleDates bullets = false -> bullets <> [] -> trim doc <> [] ->
  exists rest,
    appendToJournal today doc bullets = trim doc ++ NL :: rest.
Proof.
  intros Hm Hne Hd. unfold appendToJournal.
  rewrite (length_eqb_0 bullets Hne), Hm.
  assert (L : (0 <? length (trim doc)) = true)
    by (destruct (trim doc); [congruence | reflexivity]).
  rewrite L, (trimmed_not_endsWith_NL _ (trim_trimmed doc)).
  destruct (hasDateHeader doc (formatDateHeader today)); simpl.
  - exists (join [NL] bullets). rewrite <- app_assoc. reflexivity.
  - exists (NL :: formatDateHeader today ++ [NL] ++ join [NL] bullets).
    rewrite <- !app_assoc. reflexivity.
Qed.

Lemma fold_merge_sublist (gs : dateEventsT) (r : jsstring) :
  Forall isSection gs -> r <> [] ->
  sublist (docLines r) (docLines (fold_left mergeDateSection gs r))
  /\ fold_left mergeDateSection gs r <> [].
Proof.
  intros F; revert r; induction F as [|[d ev] gs S _ IH]; intros r Hr.
  - split; [apply sublist_refl | exact Hr].
  - cbn [fold_left]. destruct ev as [|e ev]; [apply IH, Hr|].
    assert (Hd : oneLine d) by (apply date_header_oneLine, S).
    assert (Hne : e :: ev <> []) by discriminate.
    destruct (IH (mergeDateSection r (d, e :: ev))) as [H1 H2].
    { apply merge_nonempty; auto. }
    split; [|exact H2].
    eapply sublist_trans; [|exact H1]. apply merge_sublist; auto.
Qed.

(** ** Lines kept by overwrite *)

Lemma outsideOf_app (dates : list jsstring) (inside : bool)
  (a b : list jsstring) :
  outsideOf dates inside (a ++ b)
  = outsideOf dates inside a
    ++ outsideOf dates (insideAfter dates inside a) b.
Proof.
  revert inside; induction a as [|l a IH]; intros inside; [reflexivity|].
  simpl. destruct (isHeaderLine l).
  - rewrite IH. reflexivity.
  - destruct inside; rewrite IH; reflexivity.
Qed.

Lemma insideAfter_plain (dates : list jsstring) (inside : bool)
  (a : list jsstring) :
  Forall (fun l => isHeaderLine l = false) a ->
  insideAfter dates inside a = inside.
Proof.
  induction 1 as [|l a Hl _ IH]; simpl; [reflexivity|].
  rewrite Hl. exact IH.
Qed.

Lemma outsideOf_plain_inside (dates : list jsstring) (a : list jsstring) :
  Forall (fun l => isHeaderLine l = false) a ->
  outsideOf dates true a = [].
Proof.
  induction 1 as [|l a Hl _ IH]; simpl; [reflexivity|].
  rewrite Hl. exact IH.
Qed.

Lemma outsideOf_sublist (dates : list jsstring) (inside : bool)
  (a : list jsstring) :
  sublist (outsideOf dates inside a) a.
Proof.
  revert inside; induction a as [|l a IH]; intros inside;
    [apply sublist_nil|].
  simpl. destruct (isHeaderLine l); [apply sublist_cons, IH|].
  destruct inside; [apply sublist_skip | apply sublist_cons]; apply IH.
Qed.

Lemma events_plain (ev : list jsstring) :
  Forall isEvent ev -> Forall (fun l => isHeaderLine l = false) ev.
Proof.
  apply Forall_impl. intros e [Hs Ht]. unfold isHeaderLine. rewrite Ht.
  apply event_not_date_header, Hs.
Qed.

Lemma outsideOf_insert (dates : list jsstring) (inside : bool)
  (a ev b : list jsstring) :
  Forall (fun l => isHeaderLine l = false) ev ->
  sublist (outsideOf dates inside (a ++ b))
          (outsideOf dates inside (a ++ ev ++ b)).
Proof.
  intros F. rewrite !outsideOf_app, (insideAfter_plain _ _ ev F).
  apply sublist_insert.
Qed.

Lemma merge_outside (dates : list jsstring) (r d : jsstring)
  (ev : list jsstring) :
  isSection (d, ev) -> Forall oneLine ev -> ev <> [] -> r <> [] ->
  sublist (outsideOf dates false (docLines r))
          (outsideOf dates false (docLines (mergeDateSection r (d, ev)))).
Proof.
  intros S Fo Hne Hr. destruct (hasDateHeader r d) eqn:H.
  - destruct (merge_lines_existing r d ev Hne H)
      as [b [h [run [tail [E [_ [_ [_ [_ El]]]]]]]]].
    rewrite El, E, (eventLines_oneLine ev Fo).
    change (b ++ h :: run ++ ev ++ tail) with (b ++ (h :: run) ++ ev ++ tail).
    change (b ++ h :: run ++ tail) with (b ++ (h :: run) ++ tail).
    rewrite !app_assoc, <- (app_assoc (b ++ h :: run)).
    apply outsideOf_insert, events_plain, S.
  - rewrite merge_lines_new by (auto; apply date_header_oneLine, S).
    destruct r as [|c r]; [congruence|].
    change (0 <? length (c :: r)) with true. cbv iota.
    rewrite <- app_assoc, outsideOf_app. apply sublist_app_r.
Qed.

Lemma overwrite_existing_outside (today : Date) (dates : list jsstring)
  (r d : jsstring) (ev : list jsstring) :
  isSection (d, ev) -> Forall oneLine ev -> ev <> [] ->
  arrayIncludes dates d = true -> hasDateHeader r d = true ->
  outsideOf dates false (docLines (overwriteSingleDate today r ev d))
  = outsideOf dates false (docLines r).
Proof.
  intros S Fo Hne Hsel H.
  destruct (overwrite_existing_ex today r d ev H)
    as [b [h [body [after [E [Hh [Fb [Fbody [St Eo]]]]]]]]].
  pose proof (docLines_oneLine r) as F. rewrite E in F.
  apply Forall_app in F. destruct F as [F1 F]. inversion F as [|? ? F2 F3].
  subst. apply Forall_app in F3. destruct F3 as [F3 F4].
  rewrite Eo, E. unfold docLines at 1. rewrite split_join.
  - rewrite !outsideOf_app. f_equal. simpl.
    assert (Hhd : isHeaderLine h = true) by (apply S).
    rewrite Hhd, Hsel, !outsideOf_app.
    rewrite (outsideOf_plain_inside dates body Fbody),
      (outsideOf_plain_inside dates ev (events_plain ev (proj2 S))),
      (insideAfter_plain dates true body Fbody),
      (insideAfter_plain dates true ev (events_plain ev (proj2 S))).
    reflexivity.
  - destruct b; discriminate.
  - apply Forall_app; split; auto. constructor; auto.
    apply Forall_app; split; auto.
Qed.

Lemma overwrite_existing_trimmed (today : Date) (r d : jsstring)
  (ev : list jsstring) :
  isSection (d, ev) -> ev <> [] -> trimmed r ->
  hasDateHeader r d = true ->
  trimmed (overwriteSingleDate today r ev d)
  /\ overwriteSingleDate today r ev d <> [].
Proof.
  intros [Hd Fe] Hne Hr H. simpl in Hd, Fe.
  destruct (overwrite_existing_ex today r d ev H)
    as [b [h [body [after [E [Hh [Fb [Fbody [St Eo]]]]]]]]].
  pose proof (date_header_chars d Hd) as [Hdn _].
  assert (Hh0 : h <> []).
  { intros ->. apply Hdn. rewrite <- Hh. reflexivity. }
  assert (Hr0 : r <> []) by (apply (hasDateHeader_nonempty r d); auto).
  pose proof (join_split NL r) as Er. fold (docLines r) in Er.
  rewrite E in Er. apply trimmed_iff in Hr.
  destruct Hr as [Hr|[Hhead Hlast]]; [congruence|].
  assert (Hf0 : join [NL] (b ++ [h]) <> []).
  { apply (join_In_nonempty _ h); auto. apply in_or_app; right; left; auto. }
  assert (Hfn : b ++ [h] <> []) by (destruct b; discriminate).
  assert (Hf : headOk (join [NL] (b ++ [h]))).
  { change (b ++ h :: body ++ after) with (b ++ [h] ++ body ++ after) in Er.
    rewrite app_assoc in Er. rewrite <- Er in Hhead.
    destruct (body ++ after) as [|x xs] eqn:Ex.
    - rewrite app_nil_r in Hhead. exact Hhead.
    - rewrite join_app in Hhead by (auto; discriminate).
      apply headOk_app_inv in Hhead; auto. }
  destruct (events_join_last ev Hne Fe) as [jb [jd [Ej Hjd]]].
  assert (Hjl : lastOk (join [NL] ev)) by (exists jb, jd; auto).
  rewrite Eo.
  change (b ++ h :: ev ++ after) with (b ++ [h] ++ ev ++ after).
  rewrite app_assoc.
  assert (T : headOk (join [NL] ((b ++ [h]) ++ ev ++ after))
              /\ lastOk (join [NL] ((b ++ [h]) ++ ev ++ after))).
  { assert (Hea : ev ++ after <> [])
      by (destruct ev; [congruence | simpl; discriminate]).
    rewrite join_app by auto.
    split; [apply headOk_app, Hf|].
    apply lastOk_app, lastOk_app.
    destruct after as [|a0 after].
    - rewrite app_nil_r. exact Hjl.
    - rewrite join_app by (auto; discriminate).
      apply lastOk_app. apply (lastOk_app [] ([NL] ++ join [NL] (a0 :: after))).
      change (b ++ h :: body ++ a0 :: after)
        with (b ++ [h] ++ body ++ a0 :: after) in Er.
      rewrite !app_assoc in Er.
      rewrite join_app in Er by (try discriminate;
        destruct b; discriminate).
      rewrite <- Er in Hlast. apply lastOk_app_inv in Hlast; [|discriminate].
      exact Hlast. }
  destruct T as [T1 T2]. split.
  - apply trimmed_iff. right; auto.
  - destruct T1 as [c [t [Ec _]]]. rewrite Ec. discriminate.
Qed.

Lemma overwrite_step_frame (today : Date) (dates T : list jsstring)
  (r d : jsstring) (ev : list jsstring) :
  isSection (d, ev) -> Forall oneLine ev -> ev <> [] ->
  trimmed r -> r <> [] ->
  (arrayIncludes dates d = true -> arrayIncludes T d = true) ->
  trimmed (overwriteDateSection today dates r (d, ev))
  /\ overwriteDateSection today dates r (d, ev) <> []
  /\ sublist (outsideOf T false (docLines r))
       (outsideOf T false
          (docLines (overwriteDateSection today dates r (d, ev)))).
Proof.
  intros S Fo Hne Hr Hr0 HT.
  assert (A : trimmed (mergeDateSection (trim r) (d, ev))
              /\ mergeDateSection (trim r) (d, ev) <> []
              /\ sublist (outsideOf T false (docLines r))
                   (outsideOf T false
                      (docLines (mergeDateSection (trim r) (d, ev))))).
  { rewrite Hr. split; [apply merge_trimmed; auto|].
    split; [apply merge_nonempty; auto; apply date_header_oneLine, S|].
    apply merge_outside; auto. }
  destruct (arrayIncludes dates d) eqn:Hsel.
  - rewrite overwrite_selected by assumption.
    destruct (hasDateHeader r d) eqn:H.
    + destruct (overwrite_existing_trimmed today r d ev S Hne Hr H)
        as [T1 T2].
      split; [exact T1|]. split; [exact T2|].
      rewrite (overwrite_existing_outside today T r d ev); auto.
      apply sublist_refl.
    + rewrite overwrite_missing, appendToJournal_section by assumption.
      exact A.
  - rewrite overwrite_unselected, (length_eqb_0 ev Hne) by assumption.
    exact A.
Qed.

Lemma fold_overwrite_frame (today : Date) (dates T : list jsstring)
  (gs : dateEventsT) :
  Forall isSection gs ->
  Forall (fun s => Forall oneLine (snd s)) gs ->
  Forall (fun s => snd s <> []) gs ->
  (forall d, In d (List.map fst gs) -> arrayIncludes dates d = true ->
             arrayIncludes T d = true) ->
  forall r, trimmed r -> r <> [] ->
    sublist (outsideOf T false (docLines r))
      (outsideOf T false
         (docLines (fold_left (overwriteDateSection today dates) gs r))).
Proof.
  intros F; induction F as [|[d ev] gs S _ IH]; intros Fo Fne HT r Hr Hr0.
  - apply sublist_refl.
  - inversion Fo as [|? ? Fo1 Fo2]; inversion Fne as [|? ? Fne1 Fne2]; subst.
    simpl in Fo1, Fne1. cbn [fold_left].
    destruct (overwrite_step_frame today dates T r d ev S Fo1 Fne1 Hr Hr0)
      as [T1 [T2 T3]].
    { apply HT. left; reflexivity. }
    eapply sublist_trans; [exact T3|].
    apply IH; auto. intros d' Hd'. apply HT. right; exact Hd'.
Qed.

(** ** C6: what a merge or an overwrite leaves alone *)

(** C6, as stated, fails: append strips the white space at both ends of the
    document whatever the payload targets.  Here the first line of the
    document, which belongs to no section of the payload, loses its
    indentation. *)
Lemma untouched_content_is_trimmed :
  In (str "  note") (docLines (str "  note
9.20.2025
- keep"))
  /\ ~ In (str "  note")
       (docLines (appendToJournal 20352%Z (str "  note
9.20.2025
- keep") [str "9.21.2025"; str "- a"]))
  /\ includes (appendToJournal 20352%Z (str "  note
9.20.2025
- keep") [str "9.21.2025"; str "- a"]) (str "  note") = false.
Proof.
  split; [left; reflexivity|]. split; [|reflexivity].
  vm_compute. intros H.
  repeat (destruct H as [H|H]; [discriminate|]). exact H.
Qed.

(** C6, amended.  [appendToJournal] works on the document with the white
    space at its two ends stripped, and only inserts lines: every line of
    the stripped document is in the output, unchanged and in order.  On a
    document without white space at its ends, [overwriteJournal] with a
    multi-date payload of single lines keeps, unchanged and in order, every
    line outside the bodies of the sections it overwrites.  And overwriting
    one section that exists strips nothing: the lines before its header and
    from the next header on are those of the document as it is. *)
Theorem untouched_content_preserved :
  (forall (today : Date) (doc : jsstring) (bullets : list jsstring),
     bullets <> [] -> trim doc <> [] ->
     sublist (docLines (trim doc))
             (docLines (appendToJournal today doc bullets)))
  /\ (forall (today : Date) (doc : jsstring) (bullets dates : list jsstring),
        hasMultipleDates bullets = true -> singleLines bullets ->
        trimmed doc -> doc <> [] ->
        sublist (outsideOf (overwrittenDates dates bullets) false
                           (docLines doc))
                (docLines (overwriteJournal today doc bullets dates)))
  /\ (forall (today : Date) (doc d : jsstring) (ev dates : list jsstring),
        isSection (d, ev) -> Forall oneLine ev -> ev <> [] ->
        arrayIncludes dates d = true -> hasDateHeader doc d = true ->
        exists before hdr body after,
          docLines doc = before ++ hdr :: body ++ after
          /\ trim hdr = d
          /\ Forall (fun l => isHeaderLine l = false) body
          /\ docLines (overwriteJournal today doc (d :: ev) dates)
             = before ++ hdr :: ev ++ after).
Proof.
  split; [|split].
  - intros today doc bullets Hne Hd.
    destruct (hasMultipleDates bullets) eqn:Hm.
    + rewrite appendToJournal_multi by assumption.
      apply fold_merge_sublist; auto using groups_sections.
    + destruct (append_single_prefix today doc bullets Hm Hne Hd) as [y E].
      rewrite E, docLines_app_NL. apply sublist_app_r.
  - intros today doc bullets dates Hm Hs Ht Hd.
    rewrite overwriteJournal_groups by assumption.
    eapply sublist_trans; [|apply outsideOf_sublist].
    apply fold_overwrite_frame; auto using groups_sections, groups_oneLine.
    + rewrite Forall_forall. intros g Hg.
      apply (groups_hasEvents bullets g Hg).
    + intros d Hin Hsel. apply arrayIncludes_In. unfold overwrittenDates.
      apply filter_In. auto.
  - intros today doc d ev dates S Fo Hne Hsel H.
    rewrite overwriteJournal_multi, parse_section
      by (auto; apply hasMultipleDates_section, S).
    cbn [fold_left]. rewrite overwrite_selected by assumption.
    destruct (overwrite_existing_ex today doc d ev H)
      as [b [h [body [after [E [Hh [Fb [Fbody [St Eo]]]]]]]]].
    exists b, h, body, after. repeat split; auto.
    rewrite Eo. pose proof (docLines_oneLine doc) as F. rewrite E in F.
    apply Forall_app in F. destruct F as [F1 F]. inversion F as [|? ? F2 F3].
    subst. apply Forall_app in F3. destruct F3 as [F3 F4].
    unfold docLines at 1. apply split_join; [destruct b; discriminate|].
    apply Forall_app; split; auto. constructor; auto.
    apply Forall_app; split; auto.
Qed.

Lemma untouched_content_preserved_witness :
  sublist (outsideOf (overwrittenDates [str "9.21.2025"]
                        [str "9.21.2025"; str "- new"; str "9.19.2025";
                         str "- z"]) false
             (docLines (str "note
9.21.2025
- old

9.20.2025
- keep")))
    (docLines (overwriteJournal 20352%Z (str "note
9.21.2025
- old

9.20.2025
- keep") [str "9.21.2025"; str "- new"; str "9.19.2025"; str "- z"]
       [str "9.21.2025"])).
Proof.
  refine (proj1 (proj2 untouched_content_preserved) 20352%Z _ _ _ _ _ _ _).
  - reflexivity.
  - single_lines.
  - reflexivity.
  - discriminate.
Defined.

(** ** The patterns of the cleanup, read through the matcher *)

Lemma run_litI (w : jsstring) (pos : nat) (s : jsstring) :
  w <> [] ->
  run (litI w) (MState pos s [])
  = match dropLitI w s with
    | Some r => [MState (pos + length w) r []]
    | None => []
    end.
Proof.
  revert pos s; induction w as [|c w IH]; intros pos s Hw; [congruence|].
  destruct w as [|c' w].
  - simpl. destruct s as [|x s]; [reflexivity|].
    destruct ((x =? upper1 c) || (x =? lower1 c))%N; [|reflexivity].
    rewrite Nat.add_1_r. reflexivity.
  - change (litI (c :: c' :: w)) with (Seq (chrI c) (litI (c' :: w))).
    change (run (Seq (chrI c) (litI (c' :: w))) (MState pos s []))
      with (flat_map (run (litI (c' :: w))) (run (chrI c) (MState pos s []))).
    change (dropLitI (c :: c' :: w) s)
      with (match s with
            | x :: s' =>
                if ((x =? upper1 c) || (x =? lower1 c))%N
                then dropLitI (c' :: w) s' else None
            | [] => None
            end).
    destruct s as [|x s]; [reflexivity|].
    change (run (chrI c) (MState pos (x :: s) []))
      with (if ((x =? upper1 c) || (x =? lower1 c))%N
            then [MState (S pos) s []] else []).
    destruct ((x =? upper1 c) || (x =? lower1 c))%N; [|reflexivity].
    cbn [flat_map]. rewrite IH by discriminate. rewrite app_nil_r.
    destruct (dropLitI (c' :: w) s); [|reflexivity].
    do 2 f_equal. simpl. lia.
Qed.

Lemma repeat_star (p : char -> bool) (s : jsstring) :
  forall fuel i, length s < fuel ->
    repeat (run (Chr p)) [] fuel 0 None (MState i s [])
    = classStates p i s.
Proof.
  induction s as [|c s IH]; intros fuel i Hf;
    (destruct fuel as [|fuel]; [inversion Hf|]).
  - reflexivity.
  - cbn [repeat classStates]. cbn [run rest pos caps clearCaps filter].
    destruct (p c); [|reflexivity].
    cbn [flat_map rest length Nat.eqb andb].
    replace (S (length s) <=? length s) with false
      by (symmetry; apply Nat.leb_gt; lia).
    rewrite app_nil_r. cbn [Nat.pred decMax].
    rewrite IH by (simpl in Hf; lia). reflexivity.
Qed.

Lemma run_plus (p : char -> bool) (i : nat) (s : jsstring) :
  run (plus (Chr p)) (MState i s [])
  = match s with
    | c :: s' => if p c then classStates p (S i) s' else []
    | [] => []
    end.
Proof.
  unfold plus. cbn [run groupsOf rest]. cbn [repeat].
  cbn [run rest pos caps clearCaps filter]. destruct s as [|c s]; [reflexivity|].
  destruct (p c); [|reflexivity].
  cbn [flat_map Nat.eqb andb Nat.pred decMax]. rewrite app_nil_r.
  apply repeat_star. simpl. lia.
Qed.

Lemma classStates_ws_first (pos : nat) (s : jsstring) :
  exists p' others,
    classStates isWhiteSpace pos s = MState p' (trimStart s) [] :: others /\
    Forall (fun o => exists c t, rest o = c :: t /\ isWhiteSpace c = true)
           others.
Proof.
  revert pos; induction s as [|c s IH]; intros pos.
  - exists pos, []. split; [reflexivity | constructor].
  - simpl. destruct (isWhiteSpace c) eqn:E.
    + destruct (IH (S pos)) as [p' [others [E1 E2]]].
      exists p', (others ++ [MState pos (c :: s) []]). rewrite E1.
      split; [reflexivity|]. apply Forall_app; split; auto.
      constructor; [|constructor]. exists c, s; auto.
    + exists pos, []. split; [reflexivity | constructor].
Qed.

Lemma run_plus_ws (pos : nat) (s : jsstring) :
  exists others,
    run (plus ws) (MState pos s [])
    = match dropSpaces s with
      | Some r => MState (pos + (length s - length r)) r [] :: others
      | None => []
      end
    /\ Forall (fun o => exists c t, rest o = c :: t /\ isWhiteSpace c = true)
              others.
Proof.
  unfold ws. rewrite run_plus. unfold dropSpaces.
  destruct s as [|c s]; [exists []; split; [reflexivity|constructor]|].
  destruct (isWhiteSpace c); [|exists []; split; [reflexivity|constructor]].
  destruct (classStates_ws_first (S pos) s) as [p' [others [E F]]].
  exists others. split; [|exact F]. rewrite E.
  assert (Hp : p' = pos + (length (c :: s) - length (trimStart s))).
  { clear -E. revert pos p' others E.
    induction s as [|x s IH]; intros pos p' others E; simpl in E.
    - injection E as <- _. cbn [length trimStart]. lia.
    - destruct (isWhiteSpace x) eqn:Hx.
      + destruct (classStates_ws_first (S (S pos)) s) as [q [o' [E' _]]].
        rewrite E' in E. simpl in E. injection E as <- _.
        specialize (IH (S pos) q o' E'). simpl trimStart. rewrite Hx.
        pose proof (trimStart_split s) as [w [_ Es]].
        assert (length (trimStart s) <= length s).
        { rewrite Es at 2. rewrite length_app. lia. }
        cbn [length] in *. lia.
      + injection E as <- _. simpl trimStart. rewrite Hx.
        cbn [length]. lia. }
  rewrite Hp. reflexivity.
Qed.

Lemma run_litI_ws (w : jsstring) (st : mstate) (c : char) (t : jsstring) :
  goodWord w -> rest st = c :: t -> isWhiteSpace c = true ->
  run (litI w) st = [].
Proof.
  intros Hw Hr Hc. destruct w as [|x w]; [destruct Hw|].
  destruct Hw as [Hu Hl].
  assert (E : run (chrI x) st = []).
  { simpl. rewrite Hr.
    destruct (c =? upper1 x)%N eqn:E1;
      [apply N.eqb_eq in E1; congruence|].
    destruct (c =? lower1 x)%N eqn:E2;
      [apply N.eqb_eq in E2; congruence|]. reflexivity. }
  destruct w as [|y w]; [exact E|].
  change (litI (x :: y :: w)) with (Seq (chrI x) (litI (y :: w))).
  change (run (Seq (chrI x) (litI (y :: w))) st)
    with (flat_map (run (litI (y :: w))) (run (chrI x) st)).
  rewrite E. reflexivity.
Qed.

Lemma run_wordsRegex_ws (words : list jsstring) (st : mstate)
  (c : char) (t : jsstring) :
  words <> [] -> Forall goodWord words ->
  rest st = c :: t -> isWhiteSpace c = true ->
  run (wordsRegex words) st = [].
Proof.
  intros Hne F Hr Hc. destruct words as [|w words]; [congruence|].
  inversion F as [|? ? Hw _]; subst.
  destruct words as [|w' words].
  - change (run (wordsRegex [w]) st)
      with (flat_map (run (plus ws)) (run (litI w) st)).
    rewrite (run_litI_ws w st c t); auto.
  - change (run (wordsRegex (w :: w' :: words)) st)
      with (flat_map (run (Seq (plus ws) (wordsRegex (w' :: words))))
                     (run (litI w) st)).
    rewrite (run_litI_ws w st c t); auto.
Qed.

Lemma flat_map_nil {A B : Type} (f : A -> list B) (l : list A) :
  Forall (fun x => f x = []) l -> flat_map f l = [].
Proof.
  induction 1 as [|x l Hx _ IH]; simpl; [reflexivity|].
  rewrite Hx, IH. reflexivity.
Qed.

Lemma goodWord_nonempty (w : jsstring) : goodWord w -> w <> [].
Proof. destruct w; [intros [] | discriminate]. Qed.

(** The first match of a word pattern leaves what [dropWords] leaves. *)
Lemma run_wordsRegex (words : list jsstring) :
  words <> [] -> Forall goodWord words ->
  forall pos s,
    firstRest (run (wordsRegex words) (MState pos s []))
    = dropWords words s.
Proof.
  intros Hne F. induction F as [|w words Hw F IH]; [congruence|].
  intros pos s. pose proof (goodWord_nonempty w Hw) as Hw0.
  destruct words as [|w' words].
  - change (run (wordsRegex [w]) (MState pos s []))
      with (flat_map (run (plus ws)) (run (litI w) (MState pos s []))).
    rewrite run_litI by assumption. cbn [dropWords].
    destruct (dropLitI w s) as [s1|]; [|reflexivity].
    cbn [flat_map]. rewrite app_nil_r.
    destruct (run_plus_ws (pos + length w) s1) as [others [E _]].
    rewrite E. destruct (dropSpaces s1); reflexivity.
  - change (run (wordsRegex (w :: w' :: words)) (MState pos s []))
      with (flat_map (fun st => flat_map (run (wordsRegex (w' :: words)))
                                         (run (plus ws) st))
                     (run (litI w) (MState pos s []))).
    rewrite run_litI by assumption.
    change (dropWords (w :: w' :: words) s)
      with (match dropLitI w s with
            | Some s1 =>
                match dropSpaces s1 with
                | Some s2 => dropWords (w' :: words) s2
                | None => None
                end
            | None => None
            end).
    destruct (dropLitI w s) as [s1|]; [|reflexivity].
    cbn [flat_map]. rewrite app_nil_r.
    destruct (run_plus_ws (pos + length w) s1) as [others [E Fo]].
    rewrite E. destruct (dropSpaces s1) as [s2|]; [|reflexivity].
    cbn [flat_map].
    rewrite (flat_map_nil (run (wordsRegex (w' :: words))) others).
    + rewrite app_nil_r. apply IH. discriminate.
    + eapply Forall_impl; [|exact Fo]. intros o [c [t [Hr Hc]]].
      apply (run_wordsRegex_ws (w' :: words) o c t); auto. discriminate.
Qed.

Lemma replaceEmpty_bol (r : regex) (s : jsstring) :
  replaceEmpty (Seq Bol r) s
  = match firstRest (run r (MState 0 s [])) with
    | Some x => x
    | None => s
    end.
Proof.
  unfold replaceEmpty, exec.
  assert (E : run (Seq Bol r) (MState 0 s []) = run r (MState 0 s [])).
  { simpl. apply app_nil_r. }
  destruct s as [|c s]; cbn [searchFrom]; rewrite E.
  - destruct (run r (MState 0 [] [])); reflexivity.
  - destruct (run r (MState 0 (c :: s) [])) as [|st l]; [|reflexivity].
    rewrite searchFrom_bol by (auto; lia). reflexivity.
Qed.

Lemma replaceEmpty_words (words : list jsstring) (s : jsstring) :
  words <> [] -> Forall goodWord words ->
  replaceEmpty (Seq Bol (wordsRegex words)) s = stripPrefix words s.
Proof.
  intros Hne F. rewrite replaceEmpty_bol, run_wordsRegex by assumption.
  reflexivity.
Qed.

(** The trailing punctuation. *)
Lemma eol_classStates (p : char -> bool) (pos : nat) (s : jsstring) :
  firstRest (flat_map (run Eol) (classStates p pos s))
  = if forallb p s then Some [] else None.
Proof.
  revert pos; induction s as [|c s IH]; intros pos; [reflexivity|].
  simpl. destruct (p c); [|reflexivity].
  rewrite flat_map_app. simpl. rewrite app_nil_r. apply IH.
Qed.

Lemma run_trailing (pos : nat) (s : jsstring) :
  firstRest (run TRAILING_PUNCTUATION (MState pos s []))
  = if match s with [] => false | _ :: _ => forallb isTrailingPunct s end
    then Some [] else None.
Proof.
  change TRAILING_PUNCTUATION with (Seq (plus (Chr isTrailingPunct)) Eol).
  change (run (Seq (plus (Chr isTrailingPunct)) Eol) (MState pos s []))
    with (flat_map (run Eol) (run (plus (Chr isTrailingPunct))
                                  (MState pos s []))).
  rewrite run_plus. destruct s as [|c s]; [reflexivity|].
  cbn [forallb]. destruct (isTrailingPunct c); [|reflexivity].
  apply eol_classStates.
Qed.

Lemma searchFrom_trailing (s : jsstring) :
  forall i,
    match searchFrom TRAILING_PUNCTUATION i s with
    | Some (j, st) =>
        i <= j /\ rest st = [] /\ firstn (j - i) s = stripTrailing s
    | None => stripTrailing s = s
    end.
Proof.
  induction s as [|c s IH]; intros i.
  - cbn [searchFrom]. pose proof (run_trailing i []) as H.
    destruct (run TRAILING_PUNCTUATION (MState i [] [])); [reflexivity|].
    discriminate.
  - cbn [searchFrom]. pose proof (run_trailing i (c :: s)) as H.
    cbn [stripTrailing].
    destruct (run TRAILING_PUNCTUATION (MState i (c :: s) [])) as [|st l].
    + simpl firstRest in H.
      destruct (forallb isTrailingPunct (c :: s)); [discriminate|].
      specialize (IH (S i)).
      destruct (searchFrom TRAILING_PUNCTUATION (S i) s) as [[j st]|].
      * destruct IH as [H1 [H2 H3]]. repeat split; auto; [lia|].
        replace (j - i) with (S (j - S i)) by lia. simpl. rewrite H3.
        reflexivity.
      * rewrite IH. reflexivity.
    + simpl firstRest in H.
      destruct (forallb isTrailingPunct (c :: s)); [|discriminate].
      injection H as H. rewrite Nat.sub_diag. auto.
Qed.

Lemma replaceEmpty_trailing (s : jsstring) :
  replaceEmpty TRAILING_PUNCTUATION s = stripTrailing s.
Proof.
  unfold replaceEmpty, exec. pose proof (searchFrom_trailing s 0) as H.
  destruct (searchFrom TRAILING_PUNCTUATION 0 s) as [[j st]|].
  - destruct H as [_ [H2 H3]]. rewrite H2, app_nil_r, <- H3.
    rewrite Nat.sub_0_r. reflexivity.
  - symmetry; exact H.
Qed.

(** ** C8: cleanup of a piece *)

Lemma PREFIXES_TO_REMOVE_words :
  PREFIXES_TO_REMOVE
  = List.map (fun words => Seq Bol (wordsRegex words)) PREFIX_WORDS.
Proof. reflexivity. Qed.

Lemma PREFIX_WORDS_good :
  Forall (fun words => words <> [] /\ Forall goodWord words) PREFIX_WORDS.
Proof.
  repeat (apply Forall_cons;
          [split; [discriminate |
                   repeat (apply Forall_cons; [split; reflexivity|]);
                   apply Forall_nil]|]).
  apply Forall_nil.
Qed.

Lemma fold_replace_words (l : list (list jsstring)) (s : jsstring) :
  Forall (fun words => words <> [] /\ Forall goodWord words) l ->
  fold_left (fun cleaned prefix => replaceEmpty prefix cleaned)
            (List.map (fun words => Seq Bol (wordsRegex words)) l) s
  = fold_left (fun s words => stripPrefix words s) l s.
Proof.
  intros F; revert s; induction F as [|words l [H1 H2] _ IH]; intros s;
    [reflexivity|].
  cbn [List.map fold_left]. rewrite replaceEmpty_words by assumption.
  apply IH.
Qed.

(** C8, as stated, fails: the loop over the prefixes has no exit, so a
    piece can lose more than one of them.  "I and I ran" is a piece of the
    split step; cleanup strips "I " and then "and I " from it, where the
    first match alone would leave "And I ran". *)
Lemma cleanup_strips_two_prefixes :
  splitIntoBullets (str "I and I ran") = [str "I and I ran"]
  /\ cleanBullet toUpperCaseAscii (str "I and I ran") = str "Ran"
  /\ cleanBulletAsSpecified toUpperCaseAscii (str "I and I ran")
     = str "And I ran"
  /\ cleanBullet toUpperCaseAscii (str "I and I ran")
     <> cleanBulletAsSpecified toUpperCaseAscii (str "I and I ran").
Proof. repeat split. vm_compute. discriminate. Qed.

(** C8, amended.  Cleanup of a piece trims it, then tries each of the ten
    prefixes once, in the listed order, on what the earlier ones left (a
    prefix is its words, in either case, each followed by white space, all
    of which goes with it); it then upper-cases the first code unit, strips
    the run of '.', '!', '?' the text ends with, and trims again. *)
Theorem cleanup_steps (toUpperCase : jsstring -> jsstring)
  (bullet : jsstring) :
  cleanBullet toUpperCase bullet = cleanBulletSteps toUpperCase bullet.
Proof.
  unfold cleanBullet, cleanBulletSteps.
  rewrite PREFIXES_TO_REMOVE_words, fold_replace_words
    by apply PREFIX_WORDS_good.
  rewrite replaceEmpty_trailing.
  destruct (fold_left (fun s words => stripPrefix words s) PREFIX_WORDS
                      (trim bullet)); reflexivity.
Qed.

(** ** C4: weekday names *)

Lemma dayNames_weekdays :
  OpenAIService.dayNames
  = List.map dayName
      [Sunday; Monday; Tuesday; Wednesday; Thursday; Friday; Saturday].
Proof. reflexivity. Qed.

Lemma setDate_back (today : Date) (k : Z) :
  setDate today (getDate today - k) = (today - k)%Z.
Proof. unfold setDate. lia. Qed.

Lemma getDay_range (today : Date) : (0 <= getDay today < 7)%Z.
Proof. unfold getDay. apply Z.mod_pos_bound. lia. Qed.

Ltac eval_normalize :=
  unfold OpenAIService.normalizeDateFormat;
  cbv -[formatDate setDate getDate getDay getFullYear Z.add Z.sub Z.leb
        OpenAIService.formatDateHeader stringOfZ];
  rewrite setDate_back.

(** C4, as stated, fails: the bare name of the current weekday resolves to
    the same weekday one week earlier, not to the current date.  Day 20352
    is Sunday 21 September 2025. *)
Lemma bare_weekday_of_today_is_last_week :
  getDay 20352%Z = dayIndex Sunday
  /\ formatDate 20352%Z = str "9.21.2025"
  /\ OpenAIService.normalizeDateFormat 20352%Z (dayName Sunday)
     = Some (str "9.14.2025")
  /\ OpenAIService.normalizeDateFormat 20352%Z (dayName Sunday)
     <> Some (formatDate 20352%Z).
Proof. repeat split. vm_compute. discriminate. Qed.

(** C4, amended.  A bare weekday name, in lower case or capitalised,
    resolves to the last such day before the current date, one to seven days
    back: seven when it names the current weekday.  The name after "last"
    resolves to exactly seven days before that. *)
Theorem weekday_resolution (today : Date) (w : weekday) :
  (forall name, name = dayName w \/ name = titleName w ->
     OpenAIService.normalizeDateFormat today name
     = Some (formatDate (today - daysBackTo today w)%Z)
     /\ OpenAIService.normalizeDateFormat today (str "last " ++ name)
        = Some (formatDate (today - daysBackTo today w - 7)%Z))
  /\ (1 <= daysBackTo today w <= 7)%Z
  /\ (getDay today = dayIndex w -> daysBackTo today w = 7%Z).
Proof.
  pose proof (getDay_range today) as R.
  split; [|split].
  - intros name [-> | ->]; (split;
      [destruct w; eval_normalize; reflexivity
      |destruct w; eval_normalize; unfold daysBackTo, dayIndex;
       do 2 f_equal; lia]).
  - unfold daysBackTo. destruct w; simpl dayIndex;
      destruct (getDay today - _ <=? 0)%Z eqn:E;
      try apply Z.leb_le in E; try apply Z.leb_gt in E; lia.
  - intros H. unfold daysBackTo. rewrite H, Z.sub_diag. reflexivity.
Qed.

Lemma weekday_resolution_witness :
  OpenAIService.normalizeDateFormat 20352%Z (str "last " ++ titleName Friday)
  = Some (formatDate (20352 - daysBackTo 20352 Friday - 7)%Z)
  /\ daysBackTo 20352%Z Sunday = 7%Z.
Proof.
  split.
  - apply (proj1 (weekday_resolution 20352%Z Friday) (titleName Friday)).
    right; reflexivity.
  - apply (proj2 (proj2 (weekday_resolution 20352%Z Sunday))).
    reflexivity.
Defined.

(** ** C3: the keys the normalizer returns *)

(** C3: the month-name step formats the year it has parsed as a number, so
    a year written with leading zeros comes back shorter than four digits
    and the key is not of the canonical shape; the numeric step next to it
    passes the same year through as written. *)
Lemma month_name_year_loses_zeros :
  OpenAIService.normalizeDateFormat 20352%Z (str "Sep 5 0999")
  = Some (str "9.5.999")
  /\ test DATE_HEADER (str "9.5.999") = false
  /\ OpenAIService.normalizeDateFormat 20352%Z (str "9/5/0999")
     = Some (str "9.5.0999")
  /\ test DATE_HEADER (str "9.5.0999") = true.
Proof. repeat split. Qed.

(* --------------------------------------------------------------------- *)
(** ** Further properties of the text pipeline *)
(* --------------------------------------------------------------------- *)

(** *** Affected dates and appends without conflict *)

Lemma eqs_sym (a b : jsstring) : eqs a b = eqs b a.
Proof.
  destruct (eqs a b) eqn:E.
  - apply eqs_eq in E. subst. symmetry. apply eqs_refl.
  - apply eqs_neq in E. symmetry. apply eqs_neq. congruence.
Qed.

Lemma arrayIncludes_hasKey (d : jsstring) (de : dateEventsT) :
  arrayIncludes (List.map fst de) d = hasKey d de.
Proof.
  unfold arrayIncludes. induction de as [|[k v] de IH]; simpl; auto.
  rewrite IH, (eqs_sym d k). reflexivity.
Qed.

Lemma fold_affected_keys (bullets : list jsstring) :
  forall cur de,
    fold_left (fun affectedDatesSet bullet =>
                 let trimmed := trim bullet in
                 if test DATE_HEADER trimmed
                 then setAdd trimmed affectedDatesSet
                 else affectedDatesSet)
              bullets (List.map fst de)
    = List.map fst (snd (fold_left parseBullet bullets (cur, de))).
Proof.
  induction bullets as [|b bullets IH]; intros cur de; [reflexivity|].
  cbn [fold_left]. unfold parseBullet at 2. cbv zeta.
  destruct (test DATE_HEADER (trim b)) eqn:Ht.
  - unfold setAdd. rewrite arrayIncludes_hasKey.
    destruct (hasKey (trim b) de).
    + apply IH.
    + rewrite <- IH. f_equal. rewrite map_app. reflexivity.
  - destruct (startsWith (trim b) (str "- ") && (0 <? length cur)).
    + rewrite <- IH. f_equal. symmetry. apply pushEvent_keys.
    + apply IH.
Qed.

(** X6.  For a multi-date payload, the dates [getAffectedDates] reports are
    the keys of the sections the merge parser builds from the same
    payload, in the order of their first header: each once, each a date
    header.  (A date is reported as soon as its header is in the payload,
    whether or not an entry line follows it.) *)
Theorem affected_dates_are_the_sections (today : Date)
  (bullets : list jsstring) :
  hasMultipleDates bullets = true ->
  getAffectedDates today bullets = List.map fst (parseDateEvents bullets)
  /\ NoDup (getAffectedDates today bullets)
  /\ Forall (fun d => test DATE_HEADER d = true)
            (getAffectedDates today bullets).
Proof.
  intros Hm.
  assert (E : getAffectedDates today bullets
              = List.map fst (parseDateEvents bullets)).
  { unfold getAffectedDates. rewrite Hm.
    apply (fold_affected_keys bullets [] []). }
  rewrite E. split; [reflexivity|]. split.
  - apply parse_NoDup.
  - apply Forall_map. eapply Forall_impl; [|apply parse_sections].
    intros [d ev] [H _]. exact H.
Qed.

Lemma affected_dates_are_the_sections_witness :
  getAffectedDates 20352%Z
    [str "9.21.2025"; str "- a"; str "9.20.2025"; str " 9.21.2025 "]
  = List.map fst
      (parseDateEvents
         [str "9.21.2025"; str "- a"; str "9.20.2025"; str " 9.21.2025 "]).
Proof.
  exact (proj1 (affected_dates_are_the_sections 20352%Z
                  [str "9.21.2025"; str "- a"; str "9.20.2025";
                   str " 9.21.2025 "] eq_refl)).
Defined.

Lemma getAffectedDates_multi (today : Date) (bullets : list jsstring) :
  hasMultipleDates bullets = true ->
  getAffectedDates today bullets = List.map fst (parseDateEvents bullets).
Proof.
  intros Hm. unfold getAffectedDates. rewrite Hm.
  apply (fold_affected_keys bullets [] []).
Qed.

Lemma merge_is_appendSection (r d : jsstring) (ev : list jsstring) :
  ev <> [] -> hasDateHeader r d = false ->
  mergeDateSection r (d, ev) = appendSection r (d, ev).
Proof. intros He Hh. rewrite merge_new by assumption. reflexivity. Qed.

Lemma fold_new_sections (gs : dateEventsT) :
  Forall isSection gs ->
  Forall (fun s => Forall oneLine (snd s)) gs ->
  Forall (fun s => snd s <> []) gs ->
  NoDup (List.map fst gs) ->
  forall r,
    (forall d, In d (List.map fst gs) -> hasDateHeader r d = false) ->
    fold_left mergeDateSection gs r = fold_left appendSection gs r.
Proof.
  induction gs as [|[d ev] gs IH]; intros Hs Ho Hn Hnd r Hfresh;
    [reflexivity|].
  inversion Hs as [|? ? Hs1 Hs']; subst.
  inversion Ho as [|? ? Ho1 Ho']; subst.
  inversion Hn as [|? ? Hn1 Hn']; subst.
  inversion Hnd as [|? ? Hd1 Hnd']; subst.
  cbn [fold_left]. cbn [snd] in *.
  assert (Hfd : hasDateHeader r d = false) by (apply Hfresh; left; reflexivity).
  rewrite <- (merge_is_appendSection r d ev Hn1 Hfd).
  apply IH; auto.
  intros d' Hd'.
  assert (Hc : test DATE_HEADER d' = true).
  { rewrite Forall_forall in Hs'. apply in_map_iff in Hd'.
    destruct Hd' as ([k v] & <- & Hin). apply (Hs' _ Hin). }
  destruct (hasDateHeader (mergeDateSection r (d, ev)) d') eqn:E; [|reflexivity].
  exfalso. apply (hasDateHeader_headers _ _ Hc) in E.
  rewrite (merge_headers r d ev Hs1 Ho1 Hn1), Hfd in E.
  apply in_app_or in E. destruct E as [E|[E|[]]].
  - apply (hasDateHeader_headers _ _ Hc) in E.
    rewrite Hfresh in E; [discriminate|right; exact Hd'].
  - subst d'. apply Hd1. exact Hd'.
Qed.

Lemma sectionText_nonempty (g : jsstring * list jsstring) : sectionText g <> [].
Proof.
  unfold sectionText. destruct (fst g); discriminate.
Qed.

Lemma fold_appendSection (gs : dateEventsT) :
  forall r,
    fold_left appendSection gs r
    = join [NL; NL] (nonEmptyText r ++ List.map sectionText gs).
Proof.
  induction gs as [|g gs IH]; intros r; cbn [fold_left List.map].
  - unfold nonEmptyText. destruct r; reflexivity.
  - rewrite IH.
    assert (Hne : appendSection r g <> []).
    { unfold appendSection. destruct (0 <? length r) eqn:E.
      - destruct r; [discriminate|]. discriminate.
      - destruct r; [|discriminate]. cbn [app]. apply sectionText_nonempty. }
    unfold nonEmptyText at 1.
    replace (0 <? length (appendSection r g)) with true
      by (destruct (appendSection r g); [contradiction|reflexivity]).
    change (appendSection r g)
      with ((if 0 <? length r then r ++ [NL; NL] else r) ++ sectionText g).
    unfold nonEmptyText.
    destruct (0 <? length r) eqn:E.
    + cbn [app]. destruct gs as [|g' gs].
      * cbn [List.map join]. rewrite <- app_assoc. reflexivity.
      * cbn [List.map]. rewrite !join_cons2. rewrite <- !app_assoc. reflexivity.
    + destruct r; [|discriminate]. reflexivity.
Qed.

Lemma appendToJournal_new_sections (today : Date) (doc : jsstring)
  (bullets : list jsstring) :
  hasMultipleDates bullets = true -> singleLines bullets ->
  (forall d, In d (List.map fst (groupsOfPayload bullets)) ->
             hasDateHeader doc d = false) ->
  appendToJournal today doc bullets
  = join [NL; NL] (nonEmptyText (trim doc)
                   ++ List.map sectionText (groupsOfPayload bullets)).
Proof.
  intros Hm Hsl Hnew.
  rewrite appendToJournal_multi by exact Hm.
  rewrite <- fold_appendSection.
  apply fold_new_sections.
  - apply groups_sections.
  - apply groups_oneLine. exact Hsl.
  - apply Forall_forall. intros g Hg. eapply groups_hasEvents. exact Hg.
  - apply groups_NoDup.
  - intros d Hd.
    assert (Hc : test DATE_HEADER d = true).
    { pose proof (groups_sections bullets) as Hs. rewrite Forall_forall in Hs.
      apply in_map_iff in Hd. destruct Hd as ([k v] & <- & Hin).
      apply (Hs _ Hin). }
    rewrite hasDateHeader_trim by exact Hc. apply Hnew. exact Hd.
Qed.

(** X7.  The path taken without confirmation dialog: when none of the
    dates [getAffectedDates] reports has a header in the journal
    ([getExistingDates] returns the empty array), [appendToJournal] with a
    multi-date payload of single lines returns the trimmed journal followed
    by one new section per date that holds an entry, in payload order;
    the texts are separated by one blank line, and a section is its date
    followed by its entries, one per line. *)
Theorem append_without_conflict (today : Date) (doc : jsstring)
  (bullets : list jsstring) :
  hasMultipleDates bullets = true -> singleLines bullets ->
  getExistingDates doc (getAffectedDates today bullets) = [] ->
  appendToJournal today doc bullets
  = join [NL; NL] (nonEmptyText (trim doc)
                   ++ List.map sectionText (groupsOfPayload bullets)).
Proof.
  intros Hm Hsl Hex.
  apply appendToJournal_new_sections; [exact Hm|exact Hsl|].
  intros d Hd.
  destruct (hasDateHeader doc d) eqn:E; [|reflexivity]. exfalso.
  assert (Hin : In d (getExistingDates doc (getAffectedDates today bullets))).
  { unfold getExistingDates. apply filter_In. split; [|exact E].
    rewrite (getAffectedDates_multi today bullets Hm).
    unfold groupsOfPayload in Hd. apply in_map_iff in Hd.
    destruct Hd as (g & <- & Hg). apply filter_In in Hg.
    apply in_map. apply Hg. }
  rewrite Hex in Hin. exact Hin.
Qed.

Lemma append_without_conflict_witness :
  appendToJournal 20352%Z (str "9.20.2025
- a") [str "9.21.2025"; str "- b"; str "- c"; str "9.22.2025"; str "- d"]
  = str "9.20.2025
- a

9.21.2025
- b
- c

9.22.2025
- d".
Proof.
  apply (append_without_conflict 20352%Z (str "9.20.2025
- a") [str "9.21.2025"; str "- b"; str "- c"; str "9.22.2025"; str "- d"]).
  - reflexivity.
  - single_lines.
  - reflexivity.
Defined.

(** *** Basic processing and synthesized payloads *)

Lemma entry_isEvent (b : jsstring) :
  trimmed b -> b <> [] -> isEvent (str "- " ++ b).
Proof.
  intros Ht Hne. split; [destruct b; reflexivity|].
  apply trimmed_intro. right.
  destruct (trimmed_ends b Ht) as [E|(c & t & a & d & E1 & E2 & Hc & Hd)];
    [contradiction|].
  exists 45%N, (32%N :: b), (str "- " ++ a), d.
  repeat split; auto.
  rewrite E2 at 1. rewrite app_assoc. reflexivity.
Qed.

Lemma cleanBullet_trimmed (up : jsstring -> jsstring) (b : jsstring) :
  trimmed (cleanBullet up b).
Proof. unfold cleanBullet. apply trim_trimmed. Qed.

Lemma events_not_multi (bs : list jsstring) :
  Forall isEvent bs -> hasMultipleDates bs = false.
Proof.
  intros H. unfold hasMultipleDates. 
  induction H as [|e bs [Hs Ht] _ IH]; [reflexivity|].
  cbn [existsb]. rewrite Ht, (event_not_date_header e Hs). exact IH.
Qed.

Lemma processText_events (up : jsstring -> jsstring) (today : Date)
  (text : jsstring) :
  Forall isEvent (ProcessedText.bullets (processText up today text)).
Proof.
  unfold processText. cbn [ProcessedText.bullets].
  apply Forall_map. apply Forall_forall. intros b Hb.
  apply filter_In in Hb. destruct Hb as [Hin Hlen].
  apply in_map_iff in Hin. destruct Hin as (raw & <- & _).
  apply entry_isEvent; [apply cleanBullet_trimmed|].
  intros E. rewrite E in Hlen. discriminate.
Qed.

(** X3.  The bullets of [processText] (the processing used when the
    synthesis request fails) are entry lines: each is "- " followed by a
    non-empty text and has no white space at its ends.  None of them is a
    date header, so the payload is never read as multi-date and the only
    date it affects is the current one. *)
Theorem basic_processing_is_single_date (toUpperCase : jsstring -> jsstring)
  (today : Date) (text : jsstring) :
  Forall isEvent (ProcessedText.bullets (processText toUpperCase today text))
  /\ hasMultipleDates
       (ProcessedText.bullets (processText toUpperCase today text)) = false
  /\ getAffectedDates today
       (ProcessedText.bullets (processText toUpperCase today text))
     = [formatDate today].
Proof.
  pose proof (processText_events toUpperCase today text) as H.
  split; [exact H|]. apply events_not_multi in H. split; [exact H|].
  unfold getAffectedDates. rewrite H. reflexivity.
Qed.

Lemma fold_pushSection (secs : list DateSection.t) (acc : list jsstring) :
  fold_left pushSection secs acc = acc ++ flat_map sectionBlock secs.
Proof.
  revert acc. induction secs as [|s secs IH]; intros acc; cbn [fold_left flat_map].
  - symmetry. apply app_nil_r.
  - rewrite IH. unfold pushSection, sectionBlock.
    destruct (0 <? length (DateSection.events s)).
    + rewrite <- !app_assoc. reflexivity.
    + reflexivity.
Qed.

Lemma parseBullet_blank (st : jsstring * dateEventsT) : parseBullet st [] = st.
Proof. destruct st. reflexivity. Qed.

Lemma pushEvent_last (d e : jsstring) (de : dateEventsT) (acc : list jsstring) :
  ~ In d (List.map fst de) ->
  pushEvent d e (de ++ [(d, acc)]) = de ++ [(d, acc ++ [e])].
Proof.
  induction de as [|[k v] de IH]; intros Hn; cbn [pushEvent app].
  - rewrite eqs_refl. reflexivity.
  - destruct (eqs k d) eqn:E.
    + apply eqs_eq in E. subst. exfalso. apply Hn. left. reflexivity.
    + rewrite IH; [reflexivity|]. intros H. apply Hn. right. exact H.
Qed.

Lemma parse_written_events (d : jsstring) (de : dateEventsT)
  (events : list jsstring) :
  d <> [] -> ~ In d (List.map fst de) ->
  forall acc,
    fold_left parseBullet
      (List.map (fun event => str "- " ++ trim event) events)
      (d, de ++ [(d, acc)])
    = (d, de ++ [(d, acc ++ List.map (fun event => str "- " ++ trim event)
                          (filter (fun event => 0 <? length (trim event))
                                  events))]).
Proof.
  intros Hd Hn. induction events as [|e events IH]; intros acc;
    cbn [List.map fold_left filter].
  - rewrite app_nil_r. reflexivity.
  - destruct (trim e) as [|c t] eqn:Et.
    + cbn [length Nat.ltb Nat.leb]. 
      replace (parseBullet (d, de ++ [(d, acc)]) (str "- " ++ []))
        with (d, de ++ [(d, acc)]) by reflexivity.
      apply IH.
    + change (0 <? length (c :: t)) with true. cbv iota.
      assert (Hev : isEvent (str "- " ++ c :: t)).
      { apply entry_isEvent; [rewrite <- Et; apply trim_trimmed|discriminate]. }
      destruct Hev as [Hs Ht].
      unfold parseBullet at 2. cbv zeta. rewrite Ht.
      rewrite (event_not_date_header _ Hs), Hs.
      replace (0 <? length d) with true
        by (destruct d; [contradiction|reflexivity]).
      cbn [andb]. rewrite pushEvent_last by exact Hn.
      rewrite IH. cbn [List.map]. rewrite <- app_assoc, ?Et. reflexivity.
Qed.

Lemma parseBullet_new_header (cur : jsstring) (de : dateEventsT)
  (d : jsstring) :
  test DATE_HEADER d = true -> ~ In d (List.map fst de) ->
  parseBullet (cur, de) d = (d, de ++ [(d, [])]).
Proof.
  intros Hd Hn. unfold parseBullet.
  rewrite (date_header_trimmed _ Hd), Hd.
  destruct (hasKey d de) eqn:E; [|reflexivity].
  apply hasKey_In in E. contradiction.
Qed.

Lemma parse_blocks (secs : list DateSection.t) :
  Forall (fun s => test DATE_HEADER (DateSection.date s) = true) secs ->
  NoDup (List.map DateSection.date secs) ->
  forall (cur : jsstring) (de : dateEventsT),
    (forall s, In s secs -> ~ In (DateSection.date s) (List.map fst de)) ->
    snd (fold_left parseBullet (flat_map sectionBlock secs) (cur, de))
    = de ++ sectionsWritten secs.
Proof.
  induction secs as [|s secs IH]; intros Hc Hnd cur de Hfresh.
  - cbn. symmetry. apply app_nil_r.
  - inversion Hc as [|? ? Hcs Hc']; subst.
    inversion Hnd as [|? ? Hns Hnd']; subst.
    cbn [flat_map]. rewrite fold_left_app.
    unfold sectionsWritten. cbn [filter]. unfold sectionBlock at 2.
    destruct (0 <? length (DateSection.events s)) eqn:El.
    + cbn [fold_left]. rewrite parseBullet_blank.
      assert (Hfs : ~ In (DateSection.date s) (List.map fst de))
        by (apply Hfresh; left; reflexivity).
      assert (Hne : DateSection.date s <> []).
      { intros E. rewrite E in Hcs. rewrite date_header_nil in Hcs.
        discriminate. }
      rewrite (parseBullet_new_header cur de _ Hcs Hfs).
      rewrite (parse_written_events _ de _ Hne Hfs []).
      rewrite IH; auto.
      * cbn [List.map app]. rewrite <- app_assoc. reflexivity.
      * intros s' Hs' Hin. rewrite map_app in Hin. apply in_app_or in Hin.
        destruct Hin as [Hin|[Hin|[]]].
        -- apply (Hfresh s'); [right; exact Hs'|exact Hin].
        -- cbn in Hin. apply Hns. rewrite Hin.
           apply in_map. exact Hs'.
    + cbn [fold_left]. apply IH; auto.
      intros s' Hs'. apply Hfresh. right. exact Hs'.
Qed.

Lemma shift_parse (l : list jsstring) :
  parseDateEvents match l with [] :: shifted => shifted | _ => l end
  = parseDateEvents l.
Proof.
  destruct l as [|[|c t] l]; try reflexivity.
Qed.

(** X4.  What [synthesizeText] writes, the merge parser reads back: when
    the dates of the synthesis result are date headers and no two sections
    have the same date, parsing the bullets gives the sections that hold
    an event, in their order, each with the lines "- " + trimmed event of
    its events that are not blank. *)
Theorem synthesized_bullets_round_trip (toUpperCase : jsstring -> jsstring)
  (today : Date) (result : MultiDateSynthesisResult.t) (text : jsstring) :
  Forall (fun s => test DATE_HEADER (DateSection.date s) = true)
         (MultiDateSynthesisResult.dateSections result) ->
  NoDup (List.map DateSection.date
                  (MultiDateSynthesisResult.dateSections result)) ->
  parseDateEvents
    (ProcessedText.bullets
       (synthesizeText toUpperCase today (Some result) text))
  = sectionsWritten (MultiDateSynthesisResult.dateSections result).
Proof.
  intros Hc Hnd. unfold synthesizeText. cbn [ProcessedText.bullets].
  rewrite shift_parse, fold_pushSection. cbn [app].
  unfold parseDateEvents.
  apply (parse_blocks _ Hc Hnd [] []).
  intros s _ [].
Qed.

Lemma synthesized_bullets_round_trip_witness :
  parseDateEvents
    (ProcessedText.bullets
       (synthesizeText toUpperCaseAscii 20352%Z
          (Some (MultiDateSynthesisResult.Make
                   [DateSection.Make (str "9.21.2025") [str " Ran 5k "];
                    DateSection.Make (str "9.20.2025") []]
                   40 20 false))
          (str "spoken text")))
  = [(str "9.21.2025", [str "- Ran 5k"])].
Proof.
  apply (synthesized_bullets_round_trip toUpperCaseAscii 20352%Z
           (MultiDateSynthesisResult.Make
              [DateSection.Make (str "9.21.2025") [str " Ran 5k "];
               DateSection.Make (str "9.20.2025") []]
              40 20 false) (str "spoken text")).
  - repeat constructor.
  - cbn. repeat constructor; cbn; intros H;
      repeat (destruct H as [H|H]; try discriminate); exact H.
Defined.

(** *** Selections and repeated overwrites *)

Lemma overwrite_step_selection (today : Date) (dates1 dates2 : list jsstring)
  (r d : jsstring) (ev : list jsstring) :
  isSection (d, ev) ->
  (In d (headers r) -> arrayIncludes dates1 d = arrayIncludes dates2 d) ->
  overwriteDateSection today dates1 r (d, ev)
  = overwriteDateSection today dates2 r (d, ev).
Proof.
  intros Hs Hsel. unfold overwriteDateSection.
  destruct (length ev =? 0); [reflexivity|].
  destruct (hasDateHeader r d) eqn:Hh.
  - rewrite Hsel; [reflexivity|].
    apply (hasDateHeader_headers _ _ (proj1 Hs)). exact Hh.
  - rewrite (overwrite_missing today r d ev Hh).
    destruct (arrayIncludes dates1 d), (arrayIncludes dates2 d); reflexivity.
Qed.

Lemma fold_overwrite_selection (today : Date) (dates1 dates2 : list jsstring)
  (gs : dateEventsT) :
  Forall isSection gs ->
  Forall (fun s => Forall oneLine (snd s)) gs ->
  Forall (fun s => snd s <> []) gs ->
  NoDup (List.map fst gs) ->
  forall r,
    (forall d, In d (List.map fst gs) -> In d (headers r) ->
               arrayIncludes dates1 d = arrayIncludes dates2 d) ->
    fold_left (overwriteDateSection today dates1) gs r
    = fold_left (overwriteDateSection today dates2) gs r.
Proof.
  induction gs as [|[d ev] gs IH]; intros Hs Ho Hn Hnd r Hsel;
    [reflexivity|].
  inversion Hs as [|? ? Hs1 Hs']; subst.
  inversion Ho as [|? ? Ho1 Ho']; subst.
  inversion Hn as [|? ? Hn1 Hn']; subst.
  inversion Hnd as [|? ? Hd1 Hnd']; subst.
  cbn [fold_left]. cbn [snd] in *.
  rewrite <- (overwrite_step_selection today dates1 dates2 r d ev Hs1)
    by (apply Hsel; left; reflexivity).
  apply IH; auto.
  intros d' Hd' Hin. apply Hsel; [right; exact Hd'|].
  rewrite (overwrite_step_headers today dates1 r d ev Hs1 Ho1 Hn1) in Hin.
  apply in_app_or in Hin. destruct Hin as [Hin|Hin]; [exact Hin|].
  apply newDates_In in Hin. destruct Hin as [[E|[]] _].
  cbn in E. subst d'. contradiction.
Qed.

(** X13.  [overwriteJournal] with a multi-date payload of single lines reads
    the selection [datesToOverwrite] only at the dates that have a header
    in the journal: two selections that agree on those dates give the same
    journal.  (Selecting a date the journal does not hold changes
    nothing: its section is appended either way.) *)
Theorem selection_matters_on_existing_dates (today : Date) (doc : jsstring)
  (bullets dates1 dates2 : list jsstring) :
  hasMultipleDates bullets = true -> singleLines bullets ->
  (forall d, In d (headers doc) ->
             arrayIncludes dates1 d = arrayIncludes dates2 d) ->
  overwriteJournal today doc bullets dates1
  = overwriteJournal today doc bullets dates2.
Proof.
  intros Hm Hsl Hsel.
  rewrite !overwriteJournal_groups by exact Hm.
  apply fold_overwrite_selection.
  - apply groups_sections.
  - apply groups_oneLine. exact Hsl.
  - apply Forall_forall. intros g Hg. eapply groups_hasEvents. exact Hg.
  - apply groups_NoDup.
  - intros d _ Hin. apply Hsel. exact Hin.
Qed.

Lemma selection_matters_on_existing_dates_witness :
  overwriteJournal 20352%Z (str "9.21.2025
- a") [str "9.21.2025"; str "- b"; str "9.22.2025"; str "- c"]
    [str "9.21.2025"; str "9.22.2025"]
  = overwriteJournal 20352%Z (str "9.21.2025
- a") [str "9.21.2025"; str "- b"; str "9.22.2025"; str "- c"]
    [str "9.21.2025"].
Proof.
  apply selection_matters_on_existing_dates.
  - reflexivity.
  - single_lines.
  - intros d Hd. vm_compute in Hd. destruct Hd as [Hd|[]].
    subst d. reflexivity.
Defined.

(** X14.  The last overwrite wins: when the journal has a header for the
    date, overwriting its section with [ev1] and then with [ev2] gives the
    journal that overwriting it with [ev2] alone gives ([ev1] being single
    lines, none of them a date header); nothing of [ev1] is left. *)
Theorem overwrite_last_write_wins (today : Date) (doc d : jsstring)
  (ev1 ev2 : list jsstring) :
  hasDateHeader doc d = true ->
  Forall oneLine ev1 -> Forall (fun l => isHeaderLine l = false) ev1 ->
  overwriteSingleDate today (overwriteSingleDate today doc ev1 d) ev2 d
  = overwriteSingleDate today doc ev2 d.
Proof.
  intros Hh Ho Hp.
  destruct (overwrite_existing_ex today doc d ev1 Hh)
    as (before & hdr & body & after & Hl & Ht & Hb & Hbody & Hstop & E1).
  rewrite E1.
  rewrite (overwrite_existing today doc d ev2 before hdr body after
             Hl Ht Hb Hbody Hstop).
  apply (overwrite_existing today _ d ev2 before hdr ev1 after); auto.
  unfold docLines. apply split_join.
  - destruct before; discriminate.
  - pose proof (docLines_oneLine doc) as Hd. rewrite Hl in Hd.
    apply Forall_app in Hd. destruct Hd as [H1 H2].
    inversion H2 as [|? ? H3 H4]; subst.
    apply Forall_app in H4. destruct H4 as [_ H5].
    apply Forall_app. split; [exact H1|].
    constructor; [exact H3|]. apply Forall_app. split; [exact Ho|exact H5].
Qed.

Lemma overwrite_last_write_wins_witness :
  overwriteSingleDate 20352%Z
    (overwriteSingleDate 20352%Z (str "9.21.2025
- a
9.20.2025
- k") [str "- b"; str "- c"] (str "9.21.2025")) [str "- d"] (str "9.21.2025")
  = overwriteSingleDate 20352%Z (str "9.21.2025
- a
9.20.2025
- k") [str "- d"] (str "9.21.2025").
Proof.
  apply overwrite_last_write_wins.
  - reflexivity.
  - single_lines.
  - repeat constructor.
Defined.

(** *** Previews *)







(** *** What an append or an overwrite writes *)

Lemma sublist_In {A : Type} (a b : list A) (x : A) :
  sublist a b -> In x a -> In x b.
Proof.
  induction 1 as [|y l1 l2 _ IH|y l1 l2 _ IH]; intros Hin.
  - exact Hin.
  - right. apply IH. exact Hin.
  - destruct Hin as [E|Hin]; [left; exact E|right; apply IH; exact Hin].
Qed.

Lemma merge_result_nonempty (r d : jsstring) (ev : list jsstring) :
  isSection (d, ev) -> ev <> [] -> mergeDateSection r (d, ev) <> [].
Proof.
  intros [Hc _] He. cbn [fst] in Hc.
  destruct (hasDateHeader r d) eqn:Hh.
  - apply merge_nonempty; auto.
    + apply date_header_oneLine. exact Hc.
    + apply (hasDateHeader_nonempty r d); auto.
      intros E. subst d. rewrite date_header_nil in Hc. discriminate.
  - rewrite merge_new by assumption.
    destruct d as [|c d]; [rewrite date_header_nil in Hc; discriminate|].
    destruct (0 <? length r); [destruct r|]; try discriminate.
    intros E. apply app_eq_nil in E. destruct E as [_ E]. discriminate.
Qed.

Lemma merge_writes_events (r d : jsstring) (ev : list jsstring) :
  isSection (d, ev) -> Forall oneLine ev -> ev <> [] ->
  forall e, In e ev -> In e (docLines (mergeDateSection r (d, ev))).
Proof.
  intros Hs Ho He e Hin.
  destruct (hasDateHeader r d) eqn:Hh.
  - destruct (merge_lines_existing r d ev He Hh)
      as (before & hdr & run & tail & _ & _ & _ & _ & _ & E).
    rewrite E, (eventLines_oneLine ev Ho).
    apply in_or_app. right. right. apply in_or_app. right.
    apply in_or_app. left. exact Hin.
  - rewrite (merge_lines_new r d ev He
               (date_header_oneLine d (proj1 Hs)) Hh).
    rewrite (eventLines_oneLine ev Ho).
    apply in_or_app. right. right. exact Hin.
Qed.

Lemma fold_merge_writes (gs : dateEventsT) :
  Forall isSection gs ->
  Forall (fun s => Forall oneLine (snd s)) gs ->
  Forall (fun s => snd s <> []) gs ->
  forall r d ev e,
    In (d, ev) gs -> In e ev ->
    In e (docLines (fold_left mergeDateSection gs r)).
Proof.
  induction gs as [|[d0 ev0] gs IH]; intros Hs Ho Hn r d ev e Hg He;
    [destruct Hg|].
  inversion Hs as [|? ? Hs1 Hs']; subst.
  inversion Ho as [|? ? Ho1 Ho']; subst.
  inversion Hn as [|? ? Hn1 Hn']; subst.
  cbn [fold_left]. cbn [snd] in *.
  destruct Hg as [E|Hg].
  - injection E as -> ->.
    apply (sublist_In (docLines (mergeDateSection r (d, ev)))).
    + apply fold_merge_sublist; [exact Hs'|].
      apply merge_result_nonempty; assumption.
    + apply merge_writes_events; assumption.
  - apply (IH Hs' Ho' Hn' _ d ev e Hg He).
Qed.

(** X11.  Nothing the parser retains is lost by an append: after
    [appendToJournal] with a multi-date payload of single lines, every
    date of the payload that holds an entry has a header in the journal
    and every one of its entries is a line of the journal. *)
Theorem append_writes_every_section (today : Date) (doc : jsstring)
  (bullets : list jsstring) :
  hasMultipleDates bullets = true -> singleLines bullets ->
  forall d ev,
    In (d, ev) (groupsOfPayload bullets) ->
    hasDateHeader (appendToJournal today doc bullets) d = true
    /\ forall e, In e ev ->
         In e (docLines (appendToJournal today doc bullets)).
Proof.
  intros Hm Hsl d ev Hg.
  pose proof (groups_sections bullets) as Hs.
  assert (Hc : test DATE_HEADER d = true).
  { rewrite Forall_forall in Hs. apply (Hs _ Hg). }
  split.
  - apply (hasDateHeader_headers _ _ Hc).
    rewrite (append_headers today doc bullets Hm Hsl).
    destruct (arrayIncludes (headers doc) d) eqn:E.
    + apply in_or_app. left. apply arrayIncludes_In. exact E.
    + apply in_or_app. right. unfold newDates. apply filter_In. split.
      * apply (in_map fst _ _ Hg).
      * rewrite E. reflexivity.
  - intros e He. rewrite (appendToJournal_multi today doc bullets Hm).
    apply (fold_merge_writes _ Hs (groups_oneLine bullets Hsl)) with (d := d) (ev := ev);
      auto.
    apply Forall_forall. intros g Hg'. eapply groups_hasEvents. exact Hg'.
Qed.

Lemma append_writes_every_section_witness :
  hasDateHeader
    (appendToJournal 20352%Z (str "9.21.2025
- a") [str "9.22.2025"; str "- c"; str "9.21.2025"; str "- b"])
    (str "9.21.2025") = true
  /\ forall e, In e [str "- b"] ->
       In e (docLines
               (appendToJournal 20352%Z (str "9.21.2025
- a") [str "9.22.2025"; str "- c"; str "9.21.2025"; str "- b"])).
Proof.
  apply (append_writes_every_section 20352%Z (str "9.21.2025
- a") [str "9.22.2025"; str "- c"; str "9.21.2025"; str "- b"]).
  - reflexivity.
  - single_lines.
  - vm_compute. right. left. reflexivity.
Defined.

Lemma entryOrBlank_plain (l : jsstring) :
  entryOrBlank l = true -> isHeaderLine l = false.
Proof.
  unfold entryOrBlank, isHeaderLine. intros H.
  apply orb_true_iff in H. destruct H as [H|H].
  - destruct l as [|c l]; [discriminate|].
    cbn [startsWith] in H. apply andb_true_iff in H. destruct H as [Hc _].
    apply N.eqb_eq in Hc. subst c.
    unfold trim. cbn [trimStart]. change (N_of_ascii "-") with 45%N.
    change (isWhiteSpace 45%N) with false. cbv iota.
    destruct (trimEnd_keeps_head 45%N l eq_refl) as [t Et]. rewrite Et.
    destruct (test DATE_HEADER (45%N :: t)) eqn:E; [|exact E].
    apply date_header_chars in E. destruct E as [_ E].
    inversion E as [|? ? [Hd|Hd] _]; discriminate.
  - apply eqs_eq in H. rewrite H. apply date_header_nil.
Qed.

Lemma outsideOf_plain_outside (dates : list jsstring) (a : list jsstring) :
  Forall (fun l => isHeaderLine l = false) a ->
  outsideOf dates false a = a.
Proof.
  induction 1 as [|l a Hl _ IH]; [reflexivity|].
  cbn [outsideOf]. rewrite Hl, IH. reflexivity.
Qed.

Lemma outsideOf_under_header (T : list jsstring) (inside : bool)
  (P : list jsstring) (hdr : jsstring) (mid ev Q : list jsstring)
  (e : jsstring) :
  isHeaderLine hdr = true -> arrayIncludes T (trim hdr) = false ->
  Forall (fun l => isHeaderLine l = false) mid ->
  Forall (fun l => isHeaderLine l = false) ev ->
  In e ev ->
  In e (outsideOf T inside (P ++ hdr :: mid ++ ev ++ Q)).
Proof.
  intros Hh Ht Hm He Hin.
  rewrite outsideOf_app. apply in_or_app. right.
  cbn [outsideOf]. rewrite Hh, Ht. right.
  rewrite outsideOf_app, (insideAfter_plain T false mid Hm).
  apply in_or_app. right.
  rewrite outsideOf_app. apply in_or_app. left.
  rewrite (outsideOf_plain_outside T ev He). exact Hin.
Qed.

Lemma overwrite_step_lines (today : Date) (dates : list jsstring)
  (r d : jsstring) (ev : list jsstring) :
  isSection (d, ev) -> Forall oneLine ev -> ev <> [] -> trimmed r ->
  exists P hdr mid Q,
    docLines (overwriteDateSection today dates r (d, ev))
    = P ++ hdr :: mid ++ ev ++ Q
    /\ trim hdr = d
    /\ Forall (fun l => isHeaderLine l = false) mid.
Proof.
  intros Hs Ho He Htr.
  assert (Hc : test DATE_HEADER d = true) by apply Hs.
  assert (Hmerge : exists P hdr mid Q,
             docLines (mergeDateSection r (d, ev)) = P ++ hdr :: mid ++ ev ++ Q
             /\ trim hdr = d
             /\ Forall (fun l => isHeaderLine l = false) mid).
  { destruct (hasDateHeader r d) eqn:Hh.
    - destruct (merge_lines_existing r d ev He Hh)
        as (before & hdr & run & tail & _ & Ht & _ & Hrun & _ & E).
      exists before, hdr, run, tail. rewrite E, (eventLines_oneLine ev Ho).
      repeat split; auto.
      eapply Forall_impl; [|exact Hrun]. apply entryOrBlank_plain.
    - exists (if 0 <? length r then docLines r ++ [[]] else []), d, [], [].
      rewrite (merge_lines_new r d ev He (date_header_oneLine d Hc) Hh).
      rewrite (eventLines_oneLine ev Ho), app_nil_r.
      repeat split; auto. apply date_header_trimmed. exact Hc. }
  destruct (arrayIncludes dates d) eqn:Hsel.
  - rewrite (overwrite_selected today r d ev dates He Hsel).
    destruct (hasDateHeader r d) eqn:Hh.
    + destruct (overwrite_existing_ex today r d ev Hh)
        as (before & hdr & body & after & Hl & Ht & _ & _ & _ & E).
      exists before, hdr, [], after. rewrite E. cbn [app].
      repeat split; auto.
      unfold docLines. apply split_join; [destruct before; discriminate|].
      pose proof (docLines_oneLine r) as Hd. rewrite Hl in Hd.
      apply Forall_app in Hd. destruct Hd as [H1 H2].
      inversion H2 as [|? ? H3 H4]; subst.
      apply Forall_app in H4. destruct H4 as [_ H5].
      apply Forall_app. split; [exact H1|].
      constructor; [exact H3|]. apply Forall_app. split; [exact Ho|exact H5].
    + rewrite (overwrite_missing today r d ev Hh).
      rewrite (appendToJournal_section today r d ev Hs), Htr. exact Hmerge.
  - rewrite (overwrite_unselected today r d ev dates Hs Hsel).
    rewrite (length_eqb_0 ev He), Htr. exact Hmerge.
Qed.

Lemma fold_overwrite_writes (today : Date) (dates : list jsstring)
  (gs : dateEventsT) :
  Forall isSection gs ->
  Forall (fun s => Forall oneLine (snd s)) gs ->
  Forall (fun s => snd s <> []) gs ->
  NoDup (List.map fst gs) ->
  forall r d ev e,
    trimmed r -> r <> [] -> In (d, ev) gs -> In e ev ->
    In e (docLines (fold_left (overwriteDateSection today dates) gs r)).
Proof.
  induction gs as [|[d0 ev0] gs IH]; intros Hs Ho Hn Hnd r d ev e Htr Hne Hg He;
    [destruct Hg|].
  inversion Hs as [|? ? Hs1 Hs']; subst.
  inversion Ho as [|? ? Ho1 Ho']; subst.
  inversion Hn as [|? ? Hn1 Hn']; subst.
  inversion Hnd as [|? ? Hd1 Hnd']; subst.
  cbn [fold_left]. cbn [snd] in *.
  destruct (overwrite_step_frame today dates dates r d0 ev0 Hs1 Ho1 Hn1 Htr Hne
              (fun H => H)) as (Htr' & Hne' & _).
  destruct Hg as [E|Hg].
  - injection E as -> ->.
    set (T := filter (fun x => negb (eqs x d)) dates).
    apply (sublist_In (outsideOf T false
             (docLines (fold_left (overwriteDateSection today dates) gs
                          (overwriteDateSection today dates r (d, ev)))))).
    { apply outsideOf_sublist. }
    apply (sublist_In (outsideOf T false
             (docLines (overwriteDateSection today dates r (d, ev))))).
    { apply fold_overwrite_frame; auto.
      intros d' Hd' Hsel. apply arrayIncludes_In. apply filter_In. split.
      - apply arrayIncludes_In. exact Hsel.
      - apply negb_true_iff. apply eqs_neq. intros ->. contradiction. }
    destruct (overwrite_step_lines today dates r d ev Hs1 Ho1 Hn1 Htr)
      as (P & hdr & mid & Q & El & Ht & Hmid).
    rewrite El. apply outsideOf_under_header; auto.
    + unfold isHeaderLine. rewrite Ht. apply Hs1.
    + rewrite Ht. destruct (arrayIncludes T d) eqn:Ea; [|reflexivity].
      apply arrayIncludes_In in Ea. apply filter_In in Ea.
      destruct Ea as [_ Ea]. rewrite eqs_refl in Ea. discriminate.
    + apply events_plain. apply Hs1.
  - apply (IH Hs' Ho' Hn' Hnd' _ d ev e Htr' Hne' Hg He).
Qed.

(** X12.  Nothing the parser retains is lost by an overwrite either: after
    [overwriteJournal] of a non-empty journal without white space at its
    ends, with a multi-date payload of single lines and any selection,
    every date of the payload that holds an entry has a header in the
    journal and every one of its entries is a line of the journal; the
    overwrite of one section never removes the entries written for
    another. *)
Theorem overwrite_writes_every_section (today : Date) (doc : jsstring)
  (bullets dates : list jsstring) :
  hasMultipleDates bullets = true -> singleLines bullets ->
  trimmed doc -> doc <> [] ->
  forall d ev,
    In (d, ev) (groupsOfPayload bullets) ->
    hasDateHeader (overwriteJournal today doc bullets dates) d = true
    /\ forall e, In e ev ->
         In e (docLines (overwriteJournal today doc bullets dates)).
Proof.
  intros Hm Hsl Htr Hne d ev Hg.
  pose proof (groups_sections bullets) as Hs.
  assert (Hc : test DATE_HEADER d = true).
  { rewrite Forall_forall in Hs. apply (Hs _ Hg). }
  split.
  - apply (hasDateHeader_headers _ _ Hc).
    rewrite (overwrite_headers today doc bullets dates Hm Hsl).
    destruct (arrayIncludes (headers doc) d) eqn:E.
    + apply in_or_app. left. apply arrayIncludes_In. exact E.
    + apply in_or_app. right. unfold newDates. apply filter_In. split.
      * apply (in_map fst _ _ Hg).
      * rewrite E. reflexivity.
  - intros e He.
    rewrite (overwriteJournal_groups today doc bullets dates Hm).
    apply (fold_overwrite_writes today dates _ Hs (groups_oneLine bullets Hsl))
      with (d := d) (ev := ev); auto.
    + apply Forall_forall. intros g Hg'. eapply groups_hasEvents. exact Hg'.
    + apply groups_NoDup.
Qed.

Lemma overwrite_writes_every_section_witness :
  hasDateHeader
    (overwriteJournal 20352%Z (str "9.21.2025
- a
9.22.2025
- z") [str "9.22.2025"; str "- c"; str "9.21.2025"; str "- b"]
       [str "9.21.2025"; str "9.22.2025"])
    (str "9.22.2025") = true
  /\ forall e, In e [str "- c"] ->
       In e (docLines
               (overwriteJournal 20352%Z (str "9.21.2025
- a
9.22.2025
- z") [str "9.22.2025"; str "- c"; str "9.21.2025"; str "- b"]
                  [str "9.21.2025"; str "9.22.2025"])).
Proof.
  apply (overwrite_writes_every_section 20352%Z (str "9.21.2025
- a
9.22.2025
- z") [str "9.22.2025"; str "- c"; str "9.21.2025"; str "- b"]
           [str "9.21.2025"; str "9.22.2025"]).
  - reflexivity.
  - single_lines.
  - reflexivity.
  - discriminate.
  - vm_compute. left. reflexivity.
Defined.

(** *** Single-date appends *)

Lemma uint_digits (u : Decimal.uint) :
  Forall (fun c => isDigit c = true) (str (NilEmpty.string_of_uint u)).
Proof.
  induction u as [|u IH|u IH|u IH|u IH|u IH|u IH|u IH|u IH|u IH|u IH]; cbn;
    constructor; try reflexivity; exact IH.
Qed.

Lemma stringOfN_digits (n : N) :
  Forall (fun c => isDigit c = true) (stringOfN n).
Proof.
  unfold stringOfN. destruct (N.to_uint n) eqn:E;
    try (rewrite <- E; apply uint_digits);
    try (change (NilZero.string_of_uint ?u) with (NilEmpty.string_of_uint u);
         apply uint_digits).
  repeat constructor.
Qed.

Lemma stringOfZ_chars (z : Z) :
  Forall (fun c => isDigit c = true \/ c = 46%N \/ c = 45%N) (stringOfZ z).
Proof.
  assert (H : forall n, Forall (fun c => isDigit c = true \/ c = 46%N \/ c = 45%N)
                          (stringOfN n)).
  { intros n. eapply Forall_impl; [|apply stringOfN_digits]. cbv beta. auto. }
  destruct z; cbn [stringOfZ]; try apply H.
  constructor; [auto|]. apply H.
Qed.

Lemma formatDate_chars (today : Date) :
  Forall (fun c => isDigit c = true \/ c = 46%N \/ c = 45%N)
         (formatDate today).
Proof.
  unfold formatDate.
  repeat (apply Forall_app; split); try apply stringOfZ_chars;
    constructor; auto.
Qed.

Lemma formatDate_nonempty (today : Date) : formatDate today <> [].
Proof.
  unfold formatDate. intros E. apply app_eq_nil in E. destruct E as [_ E].
  discriminate.
Qed.

Lemma formatDate_char_not_ws (c : char) :
  isDigit c = true \/ c = 46%N \/ c = 45%N -> isWhiteSpace c = false.
Proof.
  intros [H|[->| ->]]; [|reflexivity|reflexivity].
  apply digit_not_ws. left. exact H.
Qed.

Lemma formatDate_trimmed (today : Date) : trimmed (formatDate today).
Proof.
  apply trim_noWs. eapply Forall_impl; [|apply formatDate_chars].
  apply formatDate_char_not_ws.
Qed.

Lemma formatDate_oneLine (today : Date) : oneLine (formatDate today).
Proof.
  intros Hin. pose proof (formatDate_chars today) as H.
  rewrite Forall_forall in H. apply H in Hin.
  apply formatDate_char_not_ws in Hin. discriminate.
Qed.

Lemma hasDateHeader_trim_gen (doc d : jsstring) :
  d <> [] -> hasDateHeader (trim doc) d = hasDateHeader doc d.
Proof.
  intros Hd.
  assert (H : forall s, hasDateHeader s d = true
                        <-> filter (eqs d) (List.map trim (split NL s)) <> []).
  { intros s. rewrite hasDateHeader_In. unfold docLines.
    split.
    - intros Hin E.
      assert (Hf : In d (filter (eqs d) (List.map trim (split NL s))))
        by (apply filter_In; split; [exact Hin|apply eqs_refl]).
      rewrite E in Hf. exact Hf.
    - intros Hne.
      destruct (filter (eqs d) (List.map trim (split NL s))) as [|x l] eqn:E;
        [contradiction|].
      assert (Hx : In x (filter (eqs d) (List.map trim (split NL s))))
        by (rewrite E; left; reflexivity).
      apply filter_In in Hx. destruct Hx as [Hx Hxd].
      apply eqs_eq in Hxd. subst x. exact Hx. }
  assert (HP : eqs d [] = false) by (apply eqs_neq; exact Hd).
  pose proof (H (trim doc)) as H1. pose proof (H doc) as H2.
  rewrite (filter_trim_lines_trim (eqs d) doc HP) in H1.
  destruct (hasDateHeader (trim doc) d), (hasDateHeader doc d); auto.
  - symmetry. apply H2, H1. reflexivity.
  - apply H1, H2. reflexivity.
Qed.

Lemma appendToJournal_single (today : Date) (doc : jsstring)
  (bullets : list jsstring) :
  hasMultipleDates bullets = false -> bullets <> [] ->
  appendToJournal today doc bullets
  = (if hasDateHeader doc (formatDate today) then trim doc ++ [NL]
     else if 0 <? length (trim doc)
          then trim doc ++ [NL; NL] ++ formatDate today ++ [NL]
          else formatDate today ++ [NL])
    ++ join [NL] bullets.
Proof.
  intros Hm Hne. unfold appendToJournal.
  rewrite (length_eqb_0 bullets Hne), Hm. unfold formatDateHeader.
  destruct (hasDateHeader doc (formatDate today)) eqn:Hh; cbn [negb].
  - assert (Hd : trim doc <> []).
    { apply (hasDateHeader_nonempty (trim doc) (formatDate today)).
      - apply formatDate_nonempty.
      - rewrite hasDateHeader_trim_gen by apply formatDate_nonempty.
        exact Hh. }
    rewrite (trimmed_not_endsWith_NL (trim doc) (trim_trimmed doc)).
    destruct (trim doc); [contradiction|]. reflexivity.
  - destruct (0 <? length (trim doc)) eqn:El.
    + rewrite <- !app_assoc. reflexivity.
    + destruct (trim doc); [reflexivity|discriminate].
Qed.

(** X9.  Where a single-date payload goes: [appendToJournal] with a
    non-empty payload without date header returns the trimmed journal
    followed by the payload lines.  When the journal has a header for the
    current date the lines are put after one line break at the very end of
    the journal, below every line it has, wherever that header is (the
    case in which no line break is added never occurs); otherwise the
    header of the current date is written first, after a blank line when
    the journal is not empty. *)
Theorem single_date_append_goes_last (today : Date) (doc : jsstring)
  (bullets : list jsstring) :
  hasMultipleDates bullets = false -> bullets <> [] ->
  appendToJournal today doc bullets
  = (if hasDateHeader doc (formatDate today) then trim doc ++ [NL]
     else if 0 <? length (trim doc)
          then trim doc ++ [NL; NL] ++ formatDate today ++ [NL]
          else formatDate today ++ [NL])
    ++ join [NL] bullets
  /\ (hasDateHeader doc (formatDate today) = true ->
      docLines (appendToJournal today doc bullets)
      = docLines (trim doc) ++ eventLines bullets).
Proof.
  intros Hm Hne.
  pose proof (appendToJournal_single today doc bullets Hm Hne) as E.
  split; [exact E|].
  intros Hh. rewrite E, Hh, <- app_assoc. cbn [app].
  rewrite docLines_app_NL, (docLines_join bullets Hne). reflexivity.
Qed.

Lemma single_date_append_goes_last_witness :
  appendToJournal 20352%Z (str "9.21.2025
- a

9.20.2025
- k") [str "- b"]
  = str "9.21.2025
- a

9.20.2025
- k
- b".
Proof.
  refine (proj1 (single_date_append_goes_last 20352%Z (str "9.21.2025
- a

9.20.2025
- k") [str "- b"] _ _)).
  - reflexivity.
  - discriminate.
Defined.

Lemma single_append_trimmed (today : Date) (doc : jsstring)
  (bullets : list jsstring) :
  Forall isEvent bullets -> bullets <> [] ->
  hasMultipleDates bullets = false ->
  trimmed (appendToJournal today doc bullets)
  /\ hasDateHeader (appendToJournal today doc bullets) (formatDate today)
     = true.
Proof.
  intros He Hne Hm.
  rewrite (appendToJournal_single today doc bullets Hm Hne).
  destruct (events_join_last bullets Hne He) as (b & dch & Ej & Hd).
  pose proof (formatDate_trimmed today) as Hft.
  pose proof (formatDate_nonempty today) as Hfn.
  assert (Hline : In (formatDate today)
                     (List.map trim (docLines (formatDate today)))).
  { unfold docLines. rewrite (split_free NL _ (formatDate_oneLine today)).
    left. exact Hft. }
  destruct (hasDateHeader doc (formatDate today)) eqn:Hh.
  - assert (Hh' : hasDateHeader (trim doc) (formatDate today) = true)
      by (rewrite hasDateHeader_trim_gen by exact Hfn; exact Hh).
    split.
    + rewrite <- app_assoc.
      apply (trimmed_append (trim doc) _ (NL :: b) dch).
      * apply trim_trimmed.
      * apply (hasDateHeader_nonempty _ _ Hfn Hh').
      * rewrite Ej. reflexivity.
      * exact Hd.
    + apply hasDateHeader_In. rewrite <- app_assoc. cbn [app].
      rewrite docLines_app_NL, map_app. apply in_or_app. left.
      apply hasDateHeader_In. exact Hh'.
  - destruct (0 <? length (trim doc)) eqn:El.
    + split.
      * rewrite <- app_assoc.
        apply (trimmed_append (trim doc) _
                 ([NL; NL] ++ formatDate today ++ NL :: b) dch).
        -- apply trim_trimmed.
        -- intros E. rewrite E in El. discriminate.
        -- rewrite Ej. cbn [app]. rewrite <- !app_assoc. reflexivity.
        -- exact Hd.
      * apply hasDateHeader_In. rewrite <- !app_assoc. cbn [app].
        rewrite docLines_app_NL, map_app. apply in_or_app. right.
        change (NL :: formatDate today ++ NL :: join [NL] bullets)
          with ([] ++ NL :: formatDate today ++ NL :: join [NL] bullets).
        rewrite docLines_app_NL, map_app. apply in_or_app. right.
        rewrite docLines_app_NL, map_app. apply in_or_app. left.
        exact Hline.
    + split.
      * rewrite <- app_assoc.
        apply (trimmed_append (formatDate today) _ (NL :: b) dch); auto.
        rewrite Ej. reflexivity.
      * apply hasDateHeader_In. rewrite <- app_assoc. cbn [app].
        rewrite docLines_app_NL, map_app. apply in_or_app. left.
        exact Hline.
Qed.

(** X10.  Two single-date appends on the same day compose: appending the
    entry lines [b1] and then the payload [b2] gives the journal that
    appending [b1] followed by [b2] in one call gives; the date header is
    written once. *)
Theorem same_day_appends_compose (today : Date) (doc : jsstring)
  (b1 b2 : list jsstring) :
  Forall isEvent b1 -> b1 <> [] ->
  hasMultipleDates b2 = false -> b2 <> [] ->
  appendToJournal today (appendToJournal today doc b1) b2
  = appendToJournal today doc (b1 ++ b2).
Proof.
  intros He1 Hn1 Hm2 Hn2.
  pose proof (events_not_multi b1 He1) as Hm1.
  destruct (single_append_trimmed today doc b1 He1 Hn1 Hm1) as [Htr Hh].
  rewrite (appendToJournal_single today _ b2 Hm2 Hn2), Hh, Htr.
  rewrite (appendToJournal_single today doc b1 Hm1 Hn1).
  rewrite (appendToJournal_single today doc (b1 ++ b2)).
  - rewrite (join_app [NL] b1 b2 Hn1 Hn2), <- !app_assoc. reflexivity.
  - rewrite hasMultipleDates_app, Hm1, Hm2. reflexivity.
  - destruct b1; [contradiction|discriminate].
Qed.

Lemma same_day_appends_compose_witness :
  appendToJournal 20352%Z
    (appendToJournal 20352%Z (str "9.20.2025
- k") [str "- a"]) [str "- b"; str "note"]
  = appendToJournal 20352%Z (str "9.20.2025
- k") ([str "- a"] ++ [str "- b"; str "note"]).
Proof.
  apply same_day_appends_compose.
  - repeat constructor.
  - discriminate.
  - reflexivity.
  - discriminate.
Defined.

(** *** Date headers and numeric dates *)

Lemma digits12_inv (s : jsstring) :
  digits12 s ->
  (exists a, s = [a] /\ isDigit a = true)
  \/ (exists a b, s = [a; b] /\ isDigit a = true /\ isDigit b = true).
Proof.
  intros [Hd [Hl|Hl]].
  - destruct s as [|a [|b s]]; try discriminate. left. exists a.
    inversion Hd; auto.
  - destruct s as [|a [|b [|c s]]]; try discriminate. right. exists a, b.
    inversion Hd as [|? ? Ha Hd']; subst. inversion Hd'; auto.
Qed.

Lemma digits4_inv (s : jsstring) :
  digits4 s ->
  exists a b c d, s = [a; b; c; d] /\ isDigit a = true /\ isDigit b = true
                  /\ isDigit c = true /\ isDigit d = true.
Proof.
  intros [Hd Hl].
  destruct s as [|a [|b [|c [|d [|e s]]]]]; try discriminate.
  exists a, b, c, d.
  inversion Hd as [|? ? Ha H1]; subst. inversion H1 as [|? ? Hb H2]; subst.
  inversion H2 as [|? ? Hc H3]; subst. inversion H3; subst. auto.
Qed.

Lemma isDateSep_inv (c : char) : isDateSep c = true -> c = 47%N \/ c = 45%N.
Proof.
  unfold isDateSep. intros H. apply orb_true_iff in H.
  destruct H as [H|H]; apply N.eqb_eq in H; auto.
Qed.

Lemma digit_eqb (c : char) :
  isDigit c = true ->
  (c =? 47)%N = false /\ (c =? 45)%N = false /\ (46 =? c)%N = false
  /\ (c =? 46)%N = false.
Proof.
  unfold isDigit. intros H. apply andb_true_iff in H. destruct H as [H1 H2].
  apply N.leb_le in H1. apply N.leb_le in H2.
  repeat split; apply N.eqb_neq; lia.
Qed.

(** Evaluation of a matcher on a string whose digits are not known: the
    tests on a digit are rewritten, every other test is computed. *)
Ltac digit_facts :=
  repeat match goal with
         | H : isDigit ?c = true |- _ =>
             lazymatch goal with
             | _ : (c =? 47)%N = false |- _ => fail
             | _ => destruct (digit_eqb c H) as (? & ? & ? & ?)
             end
         end.

Ltac eval_eqb :=
  repeat match goal with
         | |- context [N.eqb ?x ?y] =>
             first [ is_var x; fail 1 | is_var y; fail 1
                   | let v := eval vm_compute in (N.eqb x y) in
                     change (N.eqb x y) with v ]
         end.

Ltac eval_digits :=
  digit_facts;
  repeat (progress (cbv -[isDigit N.eqb parseDigits stringOfN stringOfZ
                          getFullYear];
                    repeat match goal with
                           | H : isDigit _ = true |- _ => rewrite !H
                           | H : N.eqb _ _ = false |- _ => rewrite !H
                           end;
                    change (isDigit 47%N) with false;
                    change (isDigit 45%N) with false;
                    change (isDigit 46%N) with false;
                    eval_eqb)).


Lemma date_key_intro (m d y : jsstring) :
  digits12 m -> digits12 d -> digits4 y ->
  test DATE_HEADER (m ++ str "." ++ d ++ str "." ++ y) = true.
Proof.
  intros Hm Hd Hy.
  destruct (digits4_inv y Hy) as (y1 & y2 & y3 & y4 & -> & ? & ? & ? & ?).
  destruct (digits12_inv m Hm) as [(a & -> & ?)|(a & b & -> & ? & ?)];
    destruct (digits12_inv d Hd) as [(c & -> & ?)|(c & e & -> & ? & ?)];
    eval_digits; reflexivity.
Qed.

Lemma repeat_chr_bounds (p : char -> bool) :
  forall fuel min max st st',
    match max with Some n => min <= n | None => True end ->
    In st' (repeat (run (Chr p)) [] fuel min max st) ->
    exists w, rest st = w ++ rest st'
              /\ Forall (fun c => p c = true) w
              /\ min <= length w
              /\ match max with Some n => length w <= n | None => True end.
Proof.
  induction fuel as [|fuel IH]; intros min max st st' Hb Hin; [destruct Hin|].
  cbn [repeat] in Hin.
  assert (Hzero : st' = st -> min = 0 ->
            exists w, rest st = w ++ rest st'
              /\ Forall (fun c => p c = true) w /\ min <= length w
              /\ match max with Some n => length w <= n | None => True end).
  { intros -> ->. exists []. repeat split; auto.
    all: destruct max; cbn; lia. }
  assert (Hmore : forall max',
            max' = decMax max ->
            match max with Some n => 1 <= n | None => True end ->
            In st' (flat_map
                      (fun st1 =>
                         if (min =? 0) && (length (rest st) <=? length (rest st1))
                         then []
                         else repeat (run (Chr p)) [] fuel (Nat.pred min)
                                     max' st1)
                      (run (Chr p)
                           (MState (pos st) (rest st)
                                   (clearCaps [] (caps st))))) ->
            exists w, rest st = w ++ rest st'
              /\ Forall (fun c => p c = true) w /\ min <= length w
              /\ match max with Some n => length w <= n | None => True end).
  { intros max' -> Hpos Hf. apply in_flat_map in Hf.
    destruct Hf as (st1 & H1 & H2).
    cbn [run rest pos caps] in H1.
    destruct (rest st) as [|c s1] eqn:Er; [destruct H1|].
    destruct (p c) eqn:Epc; [|destruct H1].
    destruct H1 as [<-|[]]. cbn [rest] in H2.
    destruct ((min =? 0) && (length (c :: s1) <=? length s1)); [destruct H2|].
    apply IH in H2.
    - destruct H2 as (w & Hw & Hp & Hlo & Hhi). cbn [rest] in Hw.
      exists (c :: w). cbn [app length]. rewrite Hw. repeat split.
      + constructor; assumption.
      + lia.
      + destruct max as [n|]; cbn [decMax] in Hhi; [lia|exact I].
    - destruct max as [n|]; cbn [decMax]; [lia|exact I]. }
  destruct max as [[|n]|].
  - destruct Hin as [<-|[]]. apply Hzero; [reflexivity|lia].
  - destruct (min =? 0) eqn:Emin.
    + apply in_app_or in Hin. destruct Hin as [Hin|[<-|[]]].
      * apply (Hmore _ eq_refl); [lia|exact Hin].
      * apply Hzero; [reflexivity|]. apply Nat.eqb_eq. exact Emin.
    + apply (Hmore _ eq_refl); [lia|exact Hin].
  - destruct (min =? 0) eqn:Emin.
    + apply in_app_or in Hin. destruct Hin as [Hin|[<-|[]]].
      * apply (Hmore _ eq_refl); [exact I|exact Hin].
      * apply Hzero; [reflexivity|]. apply Nat.eqb_eq. exact Emin.
    + apply (Hmore _ eq_refl); [exact I|exact Hin].
Qed.

Lemma run_times_inv (lo hi : nat) (p : char -> bool) (st st' : mstate) :
  lo <= hi ->
  In st' (run (times lo hi (Chr p)) st) ->
  exists w, rest st = w ++ rest st'
            /\ Forall (fun c => p c = true) w /\ lo <= length w <= hi.
Proof.
  intros Hle Hin. unfold times in Hin.
  change (run (Rep lo (Some hi) (Chr p)) st)
    with (repeat (run (Chr p)) [] (S (lo + length (rest st))) lo (Some hi) st)
    in Hin.
  apply repeat_chr_bounds in Hin; [|exact Hle].
  destruct Hin as (w & Hw & Hp & H1 & H2). exists w. auto.
Qed.

Lemma run_chr_inv (p : char -> bool) (st st' : mstate) :
  In st' (run (Chr p) st) ->
  exists c, rest st = c :: rest st' /\ p c = true.
Proof.
  cbn [run]. destruct (rest st) as [|c s]; [intros []|].
  destruct (p c) eqn:E; [|intros []].
  intros [<-|[]]. exists c. auto.
Qed.

Lemma test_run_bol (r : regex) (s : jsstring) :
  startsWithBol r = true ->
  test r s = true -> exists st, In st (run r (MState 0 s [])).
Proof.
  intros Hb Ht. unfold test, exec in Ht.
  destruct s as [|c s]; cbn [searchFrom] in Ht.
  - destruct (run r (MState 0 [] [])) as [|st l]; [discriminate|].
    exists st. left. reflexivity.
  - destruct (run r (MState 0 (c :: s) [])) as [|st l].
    + rewrite (searchFrom_bol r s Hb 1) in Ht by discriminate. discriminate.
    + exists st. left. reflexivity.
Qed.

Lemma date_key_inv (s : jsstring) :
  test DATE_HEADER s = true ->
  exists m d y, s = m ++ str "." ++ d ++ str "." ++ y
                /\ digits12 m /\ digits12 d /\ digits4 y.
Proof.
  intros Ht. apply test_run_bol in Ht; [|reflexivity].
  destruct Ht as (st & Hin).
  change DATE_HEADER
    with (Seq Bol (Seq (times 1 2 digit) (Seq (chr ".")
            (Seq (times 1 2 digit) (Seq (chr ".")
               (Seq (times 4 4 digit) Eol)))))) in Hin.
  cbn [run] in Hin.
  apply in_flat_map in Hin. destruct Hin as (s0 & H0 & Hin).
  cbn in H0. destruct H0 as [<-|[]].
  apply in_flat_map in Hin. destruct Hin as (s1 & H1 & Hin).
  apply in_flat_map in Hin. destruct Hin as (s2 & H2 & Hin).
  apply in_flat_map in Hin. destruct Hin as (s3 & H3 & Hin).
  apply in_flat_map in Hin. destruct Hin as (s4 & H4 & Hin).
  apply in_flat_map in Hin. destruct Hin as (s5 & H5 & Hin).
  apply run_times_inv in H1; [|lia]. destruct H1 as (m & E1 & Pm & Lm).
  apply run_chr_inv in H2. destruct H2 as (c2 & E2 & P2).
  apply run_times_inv in H3; [|lia]. destruct H3 as (d & E3 & Pd & Ld).
  apply run_chr_inv in H4. destruct H4 as (c4 & E4 & P4).
  apply run_times_inv in H5; [|lia]. destruct H5 as (y & E5 & Py & Ly).
  cbn [run] in Hin. destruct (rest s5) eqn:E6; [|destruct Hin].
  apply N.eqb_eq in P2. apply N.eqb_eq in P4. subst c2 c4.
  cbn [rest] in E1. exists m, d, y. split.
  - rewrite E1, E2, E3, E4, E5, app_nil_r. reflexivity.
  - repeat split; auto; lia.
Qed.

(** X16.  What the pattern of a date header accepts: a string passes
    [/^\d{1,2}\.\d{1,2}\.\d{4}$/] exactly when it is one or two digits, a
    dot, one or two digits, a dot and four digits.  (No range is checked,
    leading zeros pass, and a year of other than four digits does not.) *)
Theorem date_header_shape (s : jsstring) :
  test DATE_HEADER s = true
  <-> exists m d y, s = m ++ str "." ++ d ++ str "." ++ y
                    /\ digits12 m /\ digits12 d /\ digits4 y.
Proof.
  split.
  - apply date_key_inv.
  - intros (m & d & y & -> & Hm & Hd & Hy). apply date_key_intro; assumption.
Qed.

Lemma date_header_shape_witness :
  test DATE_HEADER (str "09" ++ str "." ++ str "31" ++ str "." ++ str "0000")
  = true.
Proof.
  apply (proj2 (date_header_shape
                  (str "09" ++ str "." ++ str "31" ++ str "." ++ str "0000"))).
  exists (str "09"), (str "31"), (str "0000").
  split; [reflexivity|].
  split; [split; [repeat constructor|right; reflexivity]|].
  split; [split; [repeat constructor|right; reflexivity]|].
  split; [repeat constructor|reflexivity].
Defined.

Lemma N_range_check (P : N -> bool) (b : N) :
  forallb P (List.map N.of_nat (seq 0 (N.to_nat b))) = true ->
  forall x, (x < b)%N -> P x = true.
Proof.
  intros H x Hx. rewrite forallb_forall in H. apply H.
  rewrite <- (N2Nat.id x). apply in_map. apply in_seq. lia.
Qed.

Lemma checkDigits12 (s : jsstring) : checkDigits 1 2 s = true -> digits12 s.
Proof.
  unfold checkDigits. intros H.
  apply andb_true_iff in H. destruct H as [H H3].
  apply andb_true_iff in H. destruct H as [H1 H2].
  apply Nat.leb_le in H2, H3. split.
  - apply Forall_forall. rewrite forallb_forall in H1. exact H1.
  - lia.
Qed.

Lemma checkDigits4 (s : jsstring) : checkDigits 4 4 s = true -> digits4 s.
Proof.
  unfold checkDigits. intros H.
  apply andb_true_iff in H. destruct H as [H H3].
  apply andb_true_iff in H. destruct H as [H1 H2].
  apply Nat.leb_le in H2, H3. split.
  - apply Forall_forall. rewrite forallb_forall in H1. exact H1.
  - lia.
Qed.

Lemma stringOfN_small (n : N) : (n < 100)%N -> digits12 (stringOfN n).
Proof.
  intros H. apply checkDigits12.
  apply (N_range_check (fun x => checkDigits 1 2 (stringOfN x)) 100%N);
    [vm_compute; reflexivity|exact H].
Qed.

Lemma stringOfN_year (n : N) :
  (1000 <= n <= 9999)%N -> digits4 (stringOfN n).
Proof.
  intros H. apply checkDigits4.
  assert (Hc : ((n <? 1000)%N || checkDigits 4 4 (stringOfN n)) = true).
  { apply (N_range_check
             (fun x => (x <? 1000)%N || checkDigits 4 4 (stringOfN x)) 10000%N);
      [vm_compute; reflexivity|lia]. }
  apply orb_true_iff in Hc. destruct Hc as [Hc|Hc]; [|exact Hc].
  apply N.ltb_lt in Hc. lia.
Qed.

Lemma digit_value (c : char) : isDigit c = true -> (c - 48 < 10)%N.
Proof.
  unfold isDigit. intros H. apply andb_true_iff in H. destruct H as [H1 H2].
  apply N.leb_le in H1. apply N.leb_le in H2. lia.
Qed.

Lemma parseDigits_small (m : jsstring) :
  digits12 m -> (parseDigits m < 100)%N.
Proof.
  intros Hm.
  destruct (digits12_inv m Hm) as [(a & -> & Ha)|(a & b & -> & Ha & Hb)];
    unfold parseDigits; cbn [fold_left];
    apply digit_value in Ha; try apply digit_value in Hb; lia.
Qed.

Lemma sep_not_key (c : char) :
  isDateSep c = true -> ~ (isDigit c = true \/ c = 46%N).
Proof.
  intros H. apply isDateSep_inv in H. destruct H as [-> | ->];
    intros [H|H]; discriminate.
Qed.

Lemma not_date_header (a b : jsstring) (c : char) :
  ~ (isDigit c = true \/ c = 46%N) -> test DATE_HEADER (a ++ c :: b) = false.
Proof.
  intros Hc. destruct (test DATE_HEADER (a ++ c :: b)) eqn:E; [|reflexivity].
  exfalso. apply date_header_chars in E. destruct E as [_ E].
  rewrite Forall_forall in E. apply Hc. apply E.
  apply in_or_app. right. left. reflexivity.
Qed.

Lemma normalize_canonical (today : Date) (s : jsstring) :
  test DATE_HEADER s = true ->
  OpenAIService.normalizeDateFormat today s = Some s.
Proof.
  intros H. unfold OpenAIService.normalizeDateFormat. rewrite H.
  destruct s; [rewrite date_header_nil in H; discriminate|reflexivity].
Qed.

Lemma exec_full_date (m d y : jsstring) (s1 s2 : char) :
  digits12 m -> digits12 d -> digits4 y ->
  isDateSep s1 = true -> isDateSep s2 = true ->
  exists n,
    exec OpenAIService.FULL_DATE (m ++ s1 :: d ++ s2 :: y)
    = Some (0, MState n [] [(3, y); (2, d); (1, m)]).
Proof.
  intros Hm Hd Hy H1 H2.
  destruct (digits4_inv y Hy) as (y1 & y2 & y3 & y4 & -> & ? & ? & ? & ?).
  apply isDateSep_inv in H1. apply isDateSep_inv in H2.
  destruct (digits12_inv m Hm) as [(a & -> & ?)|(a & b & -> & ? & ?)];
    destruct (digits12_inv d Hd) as [(c & -> & ?)|(c & e & -> & ? & ?)];
    destruct H1 as [-> | ->]; destruct H2 as [-> | ->];
    eexists; eval_digits; reflexivity.
Qed.

(** X18.  Numeric dates: [normalizeDateFormat] turns one or two digits, '/'
    or '-', one or two digits, '/' or '-' (the two separators need not be
    the same) and four digits into month, day and year joined by dots,
    month and day without their leading zeros and the year as written.  No
    range is checked.  The result is a date header, and normalising it
    again returns it unchanged. *)
Theorem numeric_date_normalised (today : Date) (m d y : jsstring)
  (s1 s2 : char) :
  digits12 m -> digits12 d -> digits4 y ->
  isDateSep s1 = true -> isDateSep s2 = true ->
  OpenAIService.normalizeDateFormat today (m ++ s1 :: d ++ s2 :: y)
  = Some (stringOfN (parseDigits m) ++ str "."
          ++ stringOfN (parseDigits d) ++ str "." ++ y)
  /\ test DATE_HEADER (stringOfN (parseDigits m) ++ str "."
                       ++ stringOfN (parseDigits d) ++ str "." ++ y) = true
  /\ OpenAIService.normalizeDateFormat today
       (stringOfN (parseDigits m) ++ str "."
        ++ stringOfN (parseDigits d) ++ str "." ++ y)
     = Some (stringOfN (parseDigits m) ++ str "."
             ++ stringOfN (parseDigits d) ++ str "." ++ y).
Proof.
  intros Hm Hd Hy H1 H2.
  assert (Hk : test DATE_HEADER (stringOfN (parseDigits m) ++ str "."
                 ++ stringOfN (parseDigits d) ++ str "." ++ y) = true).
  { apply date_key_intro; [| |exact Hy];
      apply stringOfN_small, parseDigits_small; assumption. }
  split; [|split; [exact Hk|apply normalize_canonical; exact Hk]].
  destruct (exec_full_date m d y s1 s2 Hm Hd Hy H1 H2) as (n & Hex).
  unfold OpenAIService.normalizeDateFormat.
  rewrite (not_date_header m (d ++ s2 :: y) s1 (sep_not_key s1 H1)), Hex.
  replace (length (m ++ s1 :: d ++ s2 :: y) =? 0) with false
    by (destruct m; reflexivity).
  reflexivity.
Qed.

Lemma numeric_date_normalised_witness :
  OpenAIService.normalizeDateFormat 20352%Z
    (str "09" ++ 47%N :: str "5" ++ 45%N :: str "2025")
  = Some (str "9.5.2025").
Proof.
  refine (proj1 (numeric_date_normalised 20352%Z (str "09") (str "5")
                   (str "2025") 47%N 45%N _ _ _ _ _)).
  - split; [repeat constructor|right; reflexivity].
  - split; [repeat constructor|left; reflexivity].
  - split; [repeat constructor|reflexivity].
  - reflexivity.
  - reflexivity.
Defined.

Lemma exec_full_date_short (m d : jsstring) (s : char) :
  digits12 m -> digits12 d -> isDateSep s = true ->
  exec OpenAIService.FULL_DATE (m ++ s :: d) = None.
Proof.
  intros Hm Hd H1. apply isDateSep_inv in H1.
  destruct (digits12_inv m Hm) as [(a & -> & ?)|(a & b & -> & ? & ?)];
    destruct (digits12_inv d Hd) as [(c & -> & ?)|(c & e & -> & ? & ?)];
    destruct H1 as [-> | ->]; eval_digits; reflexivity.
Qed.

Lemma exec_short_date (m d : jsstring) (s : char) :
  digits12 m -> digits12 d -> isDateSep s = true ->
  exists n,
    exec OpenAIService.SHORT_DATE (m ++ s :: d)
    = Some (0, MState n [] [(2, d); (1, m)]).
Proof.
  intros Hm Hd H1. apply isDateSep_inv in H1.
  destruct (digits12_inv m Hm) as [(a & -> & ?)|(a & b & -> & ? & ?)];
    destruct (digits12_inv d Hd) as [(c & -> & ?)|(c & e & -> & ? & ?)];
    destruct H1 as [-> | ->]; eexists; eval_digits; reflexivity.
Qed.

Lemma stringOfZ_year (y : Z) :
  (1000 <= y <= 9999)%Z -> digits4 (stringOfZ y).
Proof.
  intros H. destruct y as [|p|p]; try lia.
  cbn [stringOfZ]. apply stringOfN_year. lia.
Qed.

(** X19.  Dates without year: [normalizeDateFormat] turns one or two
    digits, '/' or '-', and one or two digits into month and day without
    their leading zeros followed by the current year.  While the current
    year has four digits the result is a date header and normalising it
    again returns it unchanged. *)
Theorem short_date_takes_current_year (today : Date) (m d : jsstring)
  (s : char) :
  digits12 m -> digits12 d -> isDateSep s = true ->
  OpenAIService.normalizeDateFormat today (m ++ s :: d)
  = Some (stringOfN (parseDigits m) ++ str "."
          ++ stringOfN (parseDigits d) ++ str "."
          ++ stringOfZ (getFullYear today))
  /\ ((1000 <= getFullYear today <= 9999)%Z ->
      test DATE_HEADER (stringOfN (parseDigits m) ++ str "."
                        ++ stringOfN (parseDigits d) ++ str "."
                        ++ stringOfZ (getFullYear today)) = true
      /\ OpenAIService.normalizeDateFormat today
           (stringOfN (parseDigits m) ++ str "."
            ++ stringOfN (parseDigits d) ++ str "."
            ++ stringOfZ (getFullYear today))
         = Some (stringOfN (parseDigits m) ++ str "."
                 ++ stringOfN (parseDigits d) ++ str "."
                 ++ stringOfZ (getFullYear today))).
Proof.
  intros Hm Hd H1. split.
  - destruct (exec_short_date m d s Hm Hd H1) as (n & Hex).
    unfold OpenAIService.normalizeDateFormat.
    rewrite (not_date_header m d s (sep_not_key s H1)).
    rewrite (exec_full_date_short m d s Hm Hd H1), Hex.
    replace (length (m ++ s :: d) =? 0) with false
      by (destruct m; reflexivity).
    reflexivity.
  - intros Hy.
    assert (Hk : test DATE_HEADER (stringOfN (parseDigits m) ++ str "."
                   ++ stringOfN (parseDigits d) ++ str "."
                   ++ stringOfZ (getFullYear today)) = true).
    { apply date_key_intro.
      - apply stringOfN_small, parseDigits_small; assumption.
      - apply stringOfN_small, parseDigits_small; assumption.
      - apply stringOfZ_year. exact Hy. }
    split; [exact Hk|apply normalize_canonical; exact Hk].
Qed.

Lemma short_date_takes_current_year_witness :
  OpenAIService.normalizeDateFormat 20352%Z (str "09" ++ 47%N :: str "5")
  = Some (str "9.5.2025").
Proof.
  refine (proj1 (short_date_takes_current_year 20352%Z (str "09") (str "5")
                   47%N _ _ _)).
  - split; [repeat constructor|right; reflexivity].
  - split; [repeat constructor|left; reflexivity].
  - reflexivity.
Defined.

Lemma civil_ranges (t : Date) :
  (1 <= getMonth t + 1 <= 12)%Z /\ (1 <= getDate t <= 31)%Z.
Proof.
  unfold getMonth, getDate, civil. cbv zeta. cbn [fst snd].
  match goal with
  | |- context [(?x <? 10)%Z] => destruct (Z.ltb_spec x 10)
  end; Z.div_mod_to_equations; lia.
Qed.

Lemma stringOfZ_small (z : Z) : (0 <= z < 100)%Z -> digits12 (stringOfZ z).
Proof.
  intros H. destruct z as [|p|p]; try lia; cbn [stringOfZ];
    apply stringOfN_small; lia.
Qed.

(** X17.  The header [formatDateHeader] writes for the current date (in
    either class) is one the date-header pattern accepts, as long as the
    current year has four digits: the single-date and the multi-date
    operations agree on what the header of a day is. *)
Theorem today_header_is_a_date_header (today : Date) :
  (1000 <= getFullYear today <= 9999)%Z ->
  test DATE_HEADER (formatDateHeader today) = true
  /\ test DATE_HEADER (OpenAIService.formatDateHeader today) = true.
Proof.
  intros Hy. destruct (civil_ranges today) as [Hm Hd].
  assert (H : test DATE_HEADER (formatDate today) = true).
  { unfold formatDate. apply date_key_intro.
    - apply stringOfZ_small. lia.
    - apply stringOfZ_small. lia.
    - apply stringOfZ_year. exact Hy. }
  split; exact H.
Qed.

Lemma today_header_is_a_date_header_witness :
  test DATE_HEADER (formatDateHeader 20352%Z) = true
  /\ test DATE_HEADER (OpenAIService.formatDateHeader 20352%Z) = true.
Proof.
  apply today_header_is_a_date_header. vm_compute. split; discriminate.
Defined.

(** *** Relative days and weekdays *)

Lemma includes_In (s sub : jsstring) (c : char) :
  includes s (c :: sub) = true -> In c s.
Proof.
  induction s as [|x s IH]; cbn [includes startsWith]; intros H.
  - discriminate.
  - apply orb_true_iff in H. destruct H as [H|H].
    + apply andb_true_iff in H. destruct H as [H _].
      apply N.eqb_eq in H. left. symmetry. exact H.
    + right. apply IH. exact H.
Qed.

Lemma toLowerCase_In (s : jsstring) (c : char) :
  isLowerAZ c = true -> c <> 107%N -> c <> 105%N ->
  In c (toLowerCase s) -> In c s \/ In (c - 32)%N s.
Proof.
  intros Hl H1 H2 Hin. unfold toLowerCase in Hin.
  apply in_flat_map in Hin. destruct Hin as (x & Hx & Hin).
  destruct (x =? 8490)%N; [destruct Hin as [E|[]]; congruence|].
  destruct (x =? 304)%N.
  { destruct Hin as [E|[E|[]]]; [congruence|].
    subst c. discriminate. }
  destruct Hin as [E|[]]. unfold lower1 in E.
  destruct (isUpperAZ x) eqn:Eu.
  - right. subst c. replace (x + 32 - 32)%N with x by lia. exact Hx.
  - left. subst c. exact Hx.
Qed.

Lemma anchored_none (r : regex) (s : jsstring) (c : char) :
  startsWithBol r = true -> endsWithEol r = true ->
  In c s -> alphabet r c = false -> exec r s = None.
Proof.
  intros Hb He Hin Ha.
  destruct (exec r s) eqn:E; [|reflexivity]. exfalso.
  assert (Ht : test r s = true) by (unfold test; rewrite E; reflexivity).
  apply (test_anchored r s Hb He) in Ht. rewrite Forall_forall in Ht.
  rewrite (Ht c Hin) in Ha. discriminate.
Qed.

Lemma letter_not_numeric (s : jsstring) (c : char) :
  In c s \/ In (c - 32)%N s ->
  isLowerAZ c = true ->
  s <> []
  /\ test DATE_HEADER s = false
  /\ exec OpenAIService.FULL_DATE s = None
  /\ exec OpenAIService.SHORT_DATE s = None.
Proof.
  intros Hin Hl.
  assert (Hc : exists x, In x s /\ (isLowerAZ x = true \/ isUpperAZ x = true)).
  { destruct Hin as [Hin|Hin]; [exists c; auto|].
    exists (c - 32)%N. split; [exact Hin|]. right.
    unfold isLowerAZ in Hl. unfold isUpperAZ.
    apply andb_true_iff in Hl. destruct Hl as [H1 H2].
    apply N.leb_le in H1. apply N.leb_le in H2.
    apply andb_true_iff. split; apply N.leb_le; lia. }
  destruct Hc as (x & Hx & Hletter).
  assert (Hnd : isDigit x = false /\ x <> 46%N /\ x <> 47%N /\ x <> 45%N).
  { unfold isLowerAZ, isUpperAZ in Hletter. unfold isDigit.
    destruct Hletter as [H|H]; apply andb_true_iff in H; destruct H as [H1 H2];
      apply N.leb_le in H1; apply N.leb_le in H2;
      (repeat split; [apply andb_false_iff; right; apply N.leb_gt; lia
                     |lia|lia|lia]). }
  destruct Hnd as (Hd & H46 & H47 & H45).
  apply N.eqb_neq in H47. apply N.eqb_neq in H45.
  split; [intros E; subst s; destruct Hx|]. split; [|split].
  - destruct (test DATE_HEADER s) eqn:E; [|reflexivity]. exfalso.
    apply date_header_chars in E. destruct E as [_ E].
    rewrite Forall_forall in E. destruct (E x Hx) as [E1|E1]; congruence.
  - apply (anchored_none _ s x); try reflexivity; [exact Hx|].
    cbn. rewrite Hd, H47, H45. reflexivity.
  - apply (anchored_none _ s x); try reflexivity; [exact Hx|].
    cbn. rewrite Hd, H47, H45. reflexivity.
Qed.

(** X20.  Relative days: a string that contains "today", in any case,
    normalises to the current date, whatever else it holds; one that
    contains "yesterday" and not "today" normalises to the day before the
    current date (also across the start of a month or of a year, the day
    number being decreased by one). *)
Theorem relative_day_words (today : Date) (s : jsstring) :
  (includes (toLowerCase s) (str "today") = true ->
   OpenAIService.normalizeDateFormat today s = Some (formatDate today))
  /\ (includes (toLowerCase s) (str "today") = false ->
      includes (toLowerCase s) (str "yesterday") = true ->
      OpenAIService.normalizeDateFormat today s
      = Some (formatDate (today - 1)%Z)).
Proof.
  split.
  - intros Ht.
    assert (Hin : In 116%N (toLowerCase s)) by (apply (includes_In _ _ _ Ht)).
    apply toLowerCase_In in Hin; try reflexivity; try discriminate.
    destruct (letter_not_numeric s 116%N Hin eq_refl) as (Hne & H1 & H2 & H3).
    unfold OpenAIService.normalizeDateFormat.
    rewrite (length_eqb_0 s Hne), H1, H2, H3, Ht. reflexivity.
  - intros Ht Hy.
    assert (Hin : In 121%N (toLowerCase s)) by (apply (includes_In _ _ _ Hy)).
    apply toLowerCase_In in Hin; try reflexivity; try discriminate.
    destruct (letter_not_numeric s 121%N Hin eq_refl) as (Hne & H1 & H2 & H3).
    unfold OpenAIService.normalizeDateFormat.
    rewrite (length_eqb_0 s Hne), H1, H2, H3, Ht, Hy, setDate_back.
    reflexivity.
Qed.

Lemma relative_day_words_witness :
  OpenAIService.normalizeDateFormat 20352%Z (str "Yesterday evening")
  = Some (formatDate (20352 - 1)%Z).
Proof.
  apply (proj2 (relative_day_words 20352%Z (str "Yesterday evening")));
    reflexivity.
Defined.

(** X21.  A weekday name normalises to a date that falls on that weekday,
    among the seven days before the current date; "last " followed by the
    name normalises to the same weekday one week earlier. *)
Theorem weekday_lands_on_named_day (today : Date) (w : weekday) :
  exists t : Date,
    OpenAIService.normalizeDateFormat today (dayName w)
    = Some (formatDate t)
    /\ OpenAIService.normalizeDateFormat today (str "last " ++ dayName w)
       = Some (formatDate (t - 7)%Z)
    /\ getDay t = dayIndex w
    /\ getDay (t - 7)%Z = dayIndex w
    /\ (today - 7 <= t < today)%Z.
Proof.
  pose proof (getDay_range today) as R.
  exists (today - daysBackTo today w)%Z.
  split; [destruct w; eval_normalize; reflexivity|].
  split; [destruct w; eval_normalize; unfold daysBackTo, dayIndex;
          do 2 f_equal; lia|].
  unfold daysBackTo, getDay in *.
  destruct w; cbn [dayIndex];
    match goal with
    | |- context [(?x <=? 0)%Z] => destruct (Z.leb_spec x 0)
    end; repeat split; try lia; Z.div_mod_to_equations; lia.
Qed.

(** *** Pieces of a text *)

Lemma run_splitter_semicolon (q : nat) (s : jsstring) :
  run SPLITTER_REGEX (MState q (59%N :: s) []) = [MState (S q) s []].
Proof. reflexivity. Qed.

Lemma splitLoop_no_semicolon :
  forall fuel q piece s,
    ~ In 59%N piece ->
    Forall (fun p => ~ In 59%N p) (splitLoop SPLITTER_REGEX fuel q piece s).
Proof.
  induction fuel as [|fuel IH]; intros q piece s Hp; [constructor|].
  cbn [splitLoop]. destruct s as [|c s].
  - constructor; [|constructor]. rewrite <- in_rev. exact Hp.
  - assert (Hrev : ~ In 59%N (rev piece)) by (rewrite <- in_rev; exact Hp).
    destruct (N.eq_dec c 59) as [->|Hc].
    + rewrite run_splitter_semicolon. cbn [pos rest].
      destruct (S q =? q - _) eqn:E; [apply Nat.eqb_eq in E; lia|].
      constructor; [exact Hrev|]. apply IH. intros [].
    + assert (Hcp : ~ In 59%N (c :: piece)).
      { intros [E|E]; [congruence|contradiction]. }
      destruct (run SPLITTER_REGEX (MState q (c :: s) [])) as [|st l].
      * apply IH. exact Hcp.
      * destruct (pos st =? q - _).
        -- apply IH. exact Hcp.
        -- constructor; [exact Hrev|]. apply IH. intros [].
Qed.

Lemma trim_In (s : jsstring) (c : char) : In c (trim s) -> In c s.
Proof.
  intros H. destruct (trim_split s) as (w1 & w2 & _ & _ & E).
  rewrite E. apply in_or_app. right. apply in_or_app. left. exact H.
Qed.

(** X1.  The pieces [splitIntoBullets] returns are not empty, have no
    white space at their ends and hold no semicolon: a semicolon of the
    text always ends a piece. *)
Theorem pieces_are_clean (text : jsstring) :
  Forall (fun b => b <> [] /\ trimmed b /\ ~ In 59%N b)
         (splitIntoBullets text).
Proof.
  unfold splitIntoBullets. apply Forall_forall. intros b Hb.
  apply filter_In in Hb. destruct Hb as [Hin Hlen].
  apply in_map_iff in Hin. destruct Hin as (p & <- & Hp).
  split; [intros E; rewrite E in Hlen; discriminate|].
  split; [apply trim_trimmed|].
  intros Hc. apply trim_In in Hc.
  assert (Hall : Forall (fun p => ~ In 59%N p)
                        (splitRegex SPLITTER_REGEX text)).
  { unfold splitRegex. destruct text as [|c text].
    - destruct (run SPLITTER_REGEX (MState 0 [] [])); repeat constructor.
      intros [].
    - apply splitLoop_no_semicolon. intros []. }
  rewrite Forall_forall in Hall. exact (Hall p Hp Hc).
Qed.

Lemma classStates_allWs (p : char -> bool) (s : jsstring) :
  allWs s ->
  forall i, Forall (fun st => allWs (rest st) /\ caps st = [])
                   (classStates p i s).
Proof.
  induction 1 as [|c s Hc Hs IH]; intros i; cbn [classStates].
  - repeat constructor.
  - destruct (p c).
    + apply Forall_app. split; [apply IH|].
      repeat constructor; assumption.
    + repeat constructor; assumption.
Qed.

Lemma run_litI_allWs (w : jsstring) (st : mstate) :
  goodWord w -> allWs (rest st) -> caps st = [] -> run (litI w) st = [].
Proof.
  intros Hw Hs Hc. destruct (rest st) as [|c t] eqn:Er.
  - destruct st as [i r cs]. cbn in Er, Hc. subst r cs.
    rewrite run_litI by (apply goodWord_nonempty; exact Hw).
    destruct w; [destruct Hw|reflexivity].
  - inversion Hs; subst. apply (run_litI_ws w st c t); assumption.
Qed.

Lemma ws_not_punct (c : char) :
  isWhiteSpace c = true ->
  (46 =? c)%N = false /\ (59 =? c)%N = false /\ (44 =? c)%N = false.
Proof.
  intros H. repeat split; apply N.eqb_neq; intros <-; discriminate.
Qed.

Lemma run_chr_miss (p : char -> bool) (st : mstate) :
  match rest st with c :: _ => p c = false | [] => True end ->
  run (Chr p) st = [].
Proof.
  intros H. cbn [run]. destruct (rest st); [reflexivity|].
  rewrite H. reflexivity.
Qed.

Lemma run_opt_chr_miss (p : char -> bool) (st : mstate) :
  match rest st with c :: _ => p c = false | [] => True end ->
  run (opt (Chr p)) st = [st].
Proof.
  intros H. unfold opt.
  change (run (Rep 0 (Some 1) (Chr p)) st)
    with (repeat (run (Chr p)) [] (S (0 + length (rest st))) 0 (Some 1) st).
  cbn [repeat]. rewrite run_chr_miss by exact H. reflexivity.
Qed.

Lemma run_splitter_allWs (q : nat) (s : jsstring) :
  allWs s -> run SPLITTER_REGEX (MState q s []) = [].
Proof.
  intros Hs.
  assert (H3 : run (seqs [opt (chr ","); star ws;
                          Alt (litI (str "and then")) (litI (str "then"));
                          plus ws]) (MState q s []) = []).
  { change (seqs [opt (chr ","); star ws;
                  Alt (litI (str "and then")) (litI (str "then")); plus ws])
      with (Seq (opt (chr ",")) (Seq (star ws)
              (Seq (Alt (litI (str "and then")) (litI (str "then")))
                   (plus ws)))).
    assert (Hopt : run (opt (chr ",")) (MState q s []) = [MState q s []]).
    { change (chr ",") with (Chr (N.eqb 44%N)).
      apply run_opt_chr_miss. cbn [rest].
      destruct s as [|c t]; [exact I|].
      inversion Hs as [|? ? Hc _]; subst.
      apply (ws_not_punct c Hc). }
    change (run (Seq (opt (chr ",")) ?r) ?st)
      with (flat_map (run r) (run (opt (chr ",")) st)).
    rewrite Hopt. cbn [flat_map]. rewrite app_nil_r.
    change (run (Seq (star ws) ?r) ?st)
      with (flat_map (run r) (run (star ws) st)).
    change (run (star ws) (MState q s []))
      with (repeat (run (Chr isWhiteSpace)) [] (S (0 + length s)) 0 None
                   (MState q s [])).
    rewrite repeat_star by (cbn; lia).
    apply flat_map_nil.
    eapply Forall_impl; [|apply (classStates_allWs isWhiteSpace s Hs q)].
    intros st [Hr Hc].
    change (run (Seq ?a ?b) st) with (flat_map (run b) (run a st)).
    change (run (Alt ?a ?b) st) with (run a st ++ run b st).
    rewrite !run_litI_allWs; auto; cbn; auto. }
  change SPLITTER_REGEX
    with (Alt (Seq (chr ".") (Alt ws Eol))
              (Alt (chr ";")
                   (seqs [opt (chr ","); star ws;
                          Alt (litI (str "and then")) (litI (str "then"));
                          plus ws]))).
  change (run (Alt ?a (Alt ?b ?c)) ?st) with (run a st ++ run b st ++ run c st).
  rewrite H3.
  change (run (Seq (chr ".") ?r) ?st)
    with (flat_map (run r) (run (Chr (N.eqb 46%N)) st)).
  change (chr ";") with (Chr (N.eqb 59%N)).
  rewrite !run_chr_miss; [reflexivity| |]; cbn [rest];
    (destruct s as [|c t]; [exact I|]);
    inversion Hs as [|? ? Hc _]; subst; apply (ws_not_punct c Hc).
Qed.

Lemma splitLoop_no_match (r : regex) (s : jsstring) :
  forall fuel q piece,
    (forall q' t, (exists pre, s = pre ++ t) -> run r (MState q' t []) = []) ->
    length s < fuel ->
    splitLoop r fuel q piece s = [rev piece ++ s].
Proof.
  induction s as [|c s IH]; intros fuel q piece Hno Hf;
    (destruct fuel as [|fuel]; [cbn in Hf; lia|]); cbn [splitLoop].
  - rewrite app_nil_r. reflexivity.
  - rewrite (Hno q (c :: s)) by (exists []; reflexivity).
    rewrite IH.
    + cbn [rev]. rewrite <- app_assoc. reflexivity.
    + intros q' t (pre & E). apply Hno. exists (c :: pre). rewrite E.
      reflexivity.
    + cbn in Hf. lia.
Qed.

Lemma allWs_suffix (pre t : jsstring) : allWs (pre ++ t) -> allWs t.
Proof. intros H. apply Forall_app in H. apply H. Qed.

Lemma splitIntoBullets_blank (text : jsstring) :
  allWs text -> splitIntoBullets text = [].
Proof.
  intros Hs. unfold splitIntoBullets, splitRegex.
  destruct text as [|c t].
  - rewrite (run_splitter_allWs 0 [] Hs). reflexivity.
  - rewrite splitLoop_no_match.
    + cbn [rev app List.map filter]. rewrite (trim_allWs _ Hs). reflexivity.
    + intros q' u (pre & E). apply run_splitter_allWs.
      rewrite E in Hs. apply (allWs_suffix pre u Hs).
    + cbn [length]. lia.
Qed.

(** X2.  A text of white space only (the empty text too) has no piece and
    no bullet, and appending its bullets returns the journal as it is,
    not even trimmed. *)
Theorem blank_text_changes_nothing (toUpperCase : jsstring -> jsstring)
  (today : Date) (doc text : jsstring) :
  allWs text ->
  splitIntoBullets text = []
  /\ ProcessedText.bullets (processText toUpperCase today text) = []
  /\ appendToJournal today doc
       (ProcessedText.bullets (processText toUpperCase today text)) = doc.
Proof.
  intros Hs. pose proof (splitIntoBullets_blank text Hs) as E.
  assert (Eb : ProcessedText.bullets (processText toUpperCase today text) = []).
  { unfold processText. cbn [ProcessedText.bullets]. rewrite E. reflexivity. }
  rewrite Eb. auto.
Qed.

Lemma blank_text_changes_nothing_witness :
  appendToJournal 20352%Z (str "9.21.2025
- a")
    (ProcessedText.bullets
       (processText toUpperCaseAscii 20352%Z (str "  
 "))) = str "9.21.2025
- a".
Proof.
  apply (blank_text_changes_nothing toUpperCaseAscii 20352%Z).
  repeat constructor.
Defined.

(** *** The text of a synthesized journal *)

Lemma blocks_shape (secs : list DateSection.t) :
  Forall (fun s => test DATE_HEADER (DateSection.date s) = true) secs ->
  flat_map sectionBlock secs = []
  \/ exists d tail,
       flat_map sectionBlock secs = [] :: d :: tail
       /\ test DATE_HEADER d = true.
Proof.
  induction 1 as [|s secs Hs _ IH]; [left; reflexivity|].
  cbn [flat_map].
  destruct (0 <? length (DateSection.events s)) eqn:El.
  - right.
    assert (Eb : sectionBlock s
                 = [] :: DateSection.date s
                   :: List.map (fun event => str "- " ++ trim event)
                               (DateSection.events s))
      by (unfold sectionBlock; rewrite El; reflexivity).
    rewrite Eb. eexists _, _. cbn [app]. split; [reflexivity|exact Hs].
  - assert (Eb : sectionBlock s = [])
      by (unfold sectionBlock; rewrite El; reflexivity).
    rewrite Eb. exact IH.
Qed.

Lemma blocks_oneLine (secs : list DateSection.t) :
  Forall (fun s => test DATE_HEADER (DateSection.date s) = true) secs ->
  Forall (fun s => Forall oneLine (DateSection.events s)) secs ->
  Forall oneLine (flat_map sectionBlock secs).
Proof.
  intros Hc Ho. induction secs as [|s secs IH]; [constructor|].
  inversion Hc as [|? ? Hc1 Hc']; subst.
  inversion Ho as [|? ? Ho1 Ho']; subst.
  cbn [flat_map]. apply Forall_app. split; [|apply IH; assumption].
  unfold sectionBlock. destruct (0 <? length (DateSection.events s));
    [|constructor].
  constructor; [intros []|].
  constructor; [apply date_header_oneLine; exact Hc1|].
  apply Forall_map. eapply Forall_impl; [|exact Ho1].
  intros e He Hin. destruct Hin as [E|[E|Hin]]; try discriminate.
  apply (oneLine_trim e He). exact Hin.
Qed.

(** X5.  From a synthesis result to the text of a new journal: when the
    dates of the result are date headers, no two sections have the same
    date and no event holds a line break, appending the bullets of
    [synthesizeText] to the empty journal gives the sections that retain
    an entry, in the order of the result, separated by one blank line;
    each is its date followed by the lines "- " + trimmed event. *)
Theorem synthesized_journal_text (toUpperCase : jsstring -> jsstring)
  (today : Date) (result : MultiDateSynthesisResult.t) (text : jsstring) :
  Forall (fun s => test DATE_HEADER (DateSection.date s) = true)
         (MultiDateSynthesisResult.dateSections result) ->
  NoDup (List.map DateSection.date
                  (MultiDateSynthesisResult.dateSections result)) ->
  Forall (fun s => Forall oneLine (DateSection.events s))
         (MultiDateSynthesisResult.dateSections result) ->
  appendToJournal today []
    (ProcessedText.bullets
       (synthesizeText toUpperCase today (Some result) text))
  = join [NL; NL]
      (List.map sectionText
         (filter hasEvents
            (sectionsWritten
               (MultiDateSynthesisResult.dateSections result)))).
Proof.
  intros Hc Hnd Ho.
  set (secs := MultiDateSynthesisResult.dateSections result) in *.
  assert (Hparse : forall l,
            l = flat_map sectionBlock secs ->
            parseDateEvents match l with [] :: shifted => shifted | _ => l end
            = sectionsWritten secs).
  { intros l ->. rewrite shift_parse. unfold parseDateEvents.
    apply (parse_blocks _ Hc Hnd [] []). intros s _ []. }
  unfold synthesizeText. cbn [ProcessedText.bullets]. fold secs.
  rewrite fold_pushSection. cbn [app].
  specialize (Hparse _ eq_refl).
  pose proof (blocks_oneLine secs Hc Ho) as Hlines.
  destruct (blocks_shape secs Hc) as [E|(d & tail & E & Hd)].
  - rewrite E in *. unfold parseDateEvents in Hparse. cbn in Hparse.
    rewrite <- Hparse. reflexivity.
  - rewrite E in *. inversion Hlines as [|? ? _ Hl']; subst.
    rewrite (appendToJournal_new_sections today [] (d :: tail)).
    + unfold groupsOfPayload. rewrite Hparse. reflexivity.
    + apply hasMultipleDates_section. exact Hd.
    + exact Hl'.
    + intros k Hk.
      assert (Hkc : test DATE_HEADER k = true).
      { pose proof (groups_sections (d :: tail)) as Hs.
        rewrite Forall_forall in Hs. apply in_map_iff in Hk.
        destruct Hk as ([k' v] & <- & Hin). apply (Hs _ Hin). }
      destruct k; [rewrite date_header_nil in Hkc; discriminate|reflexivity].
Qed.

Lemma synthesized_journal_text_witness :
  appendToJournal 20352%Z []
    (ProcessedText.bullets
       (synthesizeText toUpperCaseAscii 20352%Z
          (Some (MultiDateSynthesisResult.Make
                   [DateSection.Make (str "9.21.2025")
                      [str " Ran 5k "; str "  "; str "Called mum"];
                    DateSection.Make (str "9.20.2025") [];
                    DateSection.Make (str "9.19.2025") [str "Flew home"]]
                   40 20 false))
          (str "spoken text")))
  = str "9.21.2025
- Ran 5k
- Called mum

9.19.2025
- Flew home".
Proof.
  apply (synthesized_journal_text toUpperCaseAscii 20352%Z
           (MultiDateSynthesisResult.Make
              [DateSection.Make (str "9.21.2025")
                 [str " Ran 5k "; str "  "; str "Called mum"];
               DateSection.Make (str "9.20.2025") [];
               DateSection.Make (str "9.19.2025") [str "Flew home"]]
              40 20 false) (str "spoken text")).
  - repeat constructor.
  - cbn. repeat constructor; cbn; intros H;
      repeat (destruct H as [H|H]; try discriminate); exact H.
  - repeat (constructor; try (apply oneLine_check; reflexivity)).
Defined.

(** *** Rejected dates *)

Lemma searchFrom_Some (r : regex) (s : jsstring) :
  forall i j st,
    searchFrom r i s = Some (j, st) ->
    exists pre t, s = pre ++ t /\ In st (run r (MState j t [])).
Proof.
  induction s as [|c s IH]; intros i j st H; cbn [searchFrom] in H.
  - destruct (run r (MState i [] [])) as [|st0 l] eqn:E; [discriminate|].
    injection H as <- <-. exists [], []. rewrite E. split; [reflexivity|].
    left. reflexivity.
  - destruct (run r (MState i (c :: s) [])) as [|st0 l] eqn:E.
    + apply IH in H. destruct H as (pre & t & -> & Hin).
      exists (c :: pre), t. split; [reflexivity|exact Hin].
    + injection H as <- <-. exists [], (c :: s). rewrite E.
      split; [reflexivity|]. left. reflexivity.
Qed.

Lemma run_lit_inv (w : jsstring) :
  forall st st', In st' (run (lit w) st) -> rest st = w ++ rest st'.
Proof.
  induction w as [|c w IH]; intros st st' Hin.
  - cbn in Hin. destruct Hin as [<-|[]]. reflexivity.
  - destruct w as [|c' w].
    + cbn [lit] in Hin. apply run_chr_inv in Hin.
      destruct Hin as (x & E & Hx). apply N.eqb_eq in Hx. subst x. exact E.
    + change (lit (c :: c' :: w)) with (Seq (Chr (N.eqb c)) (lit (c' :: w)))
        in Hin.
      cbn [run] in Hin. apply in_flat_map in Hin.
      destruct Hin as (st1 & H1 & H2).
      apply run_chr_inv in H1. destruct H1 as (x & E & Hx).
      apply N.eqb_eq in Hx. subst x.
      apply IH in H2. rewrite E, H2. reflexivity.
Qed.

Lemma run_rest (r : regex) (st st' : mstate) :
  In st' (run r st) -> exists w, rest st = w ++ rest st'.
Proof.
  intros H. apply run_consumes in H. destruct H as (w & E & _).
  exists w. exact E.
Qed.

Lemma startsWith_inv (s p : jsstring) :
  startsWith s p = true -> exists post, s = p ++ post.
Proof.
  revert s. induction p as [|x p IH]; intros s H.
  - exists s. reflexivity.
  - destruct s as [|y s]; [discriminate|]. cbn [startsWith] in H.
    apply andb_true_iff in H. destruct H as [E H].
    apply N.eqb_eq in E. subst y. destruct (IH s H) as (post & ->).
    exists post. reflexivity.
Qed.

Lemma startsWith_app (p post : jsstring) : startsWith (p ++ post) p = true.
Proof.
  induction p as [|x p IH]; [destruct post; reflexivity|].
  cbn [app startsWith]. rewrite N.eqb_refl, IH. reflexivity.
Qed.

Lemma includes_intro (pre w post : jsstring) :
  includes (pre ++ w ++ post) w = true.
Proof.
  induction pre as [|c pre IH]; cbn [app].
  - pose proof (startsWith_app w post) as H.
    destruct (w ++ post); cbn [includes]; rewrite H; reflexivity.
  - cbn [includes]. rewrite IH. apply orb_true_r.
Qed.

Lemma includes_inv (s w : jsstring) :
  includes s w = true -> exists pre post, s = pre ++ w ++ post.
Proof.
  induction s as [|c s IH]; cbn [includes]; intros H.
  - rewrite orb_false_r in H. apply startsWith_inv in H.
    destruct H as (post & E). exists [], post. exact E.
  - apply orb_true_iff in H. destruct H as [H|H].
    + apply startsWith_inv in H. destruct H as (post & E).
      exists [], post. exact E.
    + destruct (IH H) as (pre & post & ->). exists (c :: pre), post.
      reflexivity.
Qed.

Lemma includes_suffix (s p q : jsstring) :
  includes s (p ++ q) = true -> includes s q = true.
Proof.
  intros H. apply includes_inv in H. destruct H as (pre & post & ->).
  rewrite <- app_assoc, app_assoc. apply includes_intro.
Qed.

Lemma toLowerCase_digit (s : jsstring) (c : char) :
  In c (toLowerCase s) -> isDigit c = true -> In c s.
Proof.
  intros Hin Hd. unfold toLowerCase in Hin.
  apply in_flat_map in Hin. destruct Hin as (x & Hx & Hin).
  destruct (x =? 8490)%N; [destruct Hin as [E|[]]; subst c; discriminate|].
  destruct (x =? 304)%N.
  { destruct Hin as [E|[E|[]]]; subst c; discriminate. }
  destruct Hin as [E|[]]. unfold lower1 in E.
  destruct (isUpperAZ x) eqn:Eu; [|subst c; exact Hx].
  exfalso. subst c. unfold isUpperAZ in Eu. unfold isDigit in Hd.
  apply andb_true_iff in Eu. destruct Eu as [H1 H2].
  apply andb_true_iff in Hd. destruct Hd as [H3 H4].
  apply N.leb_le in H1, H2, H3, H4. lia.
Qed.

Lemma anchored_digit_start (r0 r1 : regex) (s : jsstring) :
  (forall st st', In st' (run r0 st) ->
      exists w, rest st = w ++ rest st'
                /\ Forall (fun c => isDigit c = true) w /\ 1 <= length w) ->
  test (Seq Bol (Seq r0 r1)) s = true ->
  exists c t, s = c :: t /\ isDigit c = true.
Proof.
  intros Hr Ht. apply test_run_bol in Ht; [|reflexivity].
  destruct Ht as (st & Hin). cbn [run] in Hin.
  apply in_flat_map in Hin. destruct Hin as (s0 & H0 & Hin).
  cbn in H0. destruct H0 as [<-|[]].
  apply in_flat_map in Hin. destruct Hin as (s1 & H1 & _).
  apply Hr in H1. destruct H1 as (w & E & Hw & Hl). cbn [rest] in E.
  destruct w as [|c w]; [cbn in Hl; lia|].
  inversion Hw; subst. exists c, (w ++ rest s1). auto.
Qed.

Lemma digits_run (st st' : mstate) :
  In st' (run (times 1 2 digit) st) ->
  exists w, rest st = w ++ rest st'
            /\ Forall (fun c => isDigit c = true) w /\ 1 <= length w.
Proof.
  intros H. apply run_times_inv in H; [|lia].
  destruct H as (w & E & Hw & Hl). exists w. repeat split; auto; lia.
Qed.

Lemma digits_group_run (i : nat) (st st' : mstate) :
  In st' (run (Grp i (times 1 2 digit)) st) ->
  exists w, rest st = w ++ rest st'
            /\ Forall (fun c => isDigit c = true) w /\ 1 <= length w.
Proof.
  intros H. cbn [run] in H. apply in_map_iff in H.
  destruct H as (st1 & <- & H1). cbn [rest]. apply digits_run. exact H1.
Qed.

Lemma no_digit_not_numeric (s : jsstring) :
  Forall (fun c => isDigit c = false) s ->
  test DATE_HEADER s = false
  /\ exec OpenAIService.FULL_DATE s = None
  /\ exec OpenAIService.SHORT_DATE s = None.
Proof.
  intros Hs.
  assert (Hno : forall r0 r1,
            (forall st st', In st' (run r0 st) ->
               exists w, rest st = w ++ rest st'
                 /\ Forall (fun c => isDigit c = true) w /\ 1 <= length w) ->
            test (Seq Bol (Seq r0 r1)) s = false).
  { intros r0 r1 Hr. destruct (test (Seq Bol (Seq r0 r1)) s) eqn:E;
      [|reflexivity].
    destruct (anchored_digit_start r0 r1 s Hr E) as (c & t & -> & Hc).
    inversion Hs as [|? ? Hc' _]; subst. congruence. }
  assert (Hex : forall r, test r s = false -> exec r s = None).
  { intros r H. unfold test in H. destruct (exec r s); [discriminate|].
    reflexivity. }
  split; [|split].
  - apply (Hno (times 1 2 digit)). apply digits_run.
  - apply Hex. apply (Hno (Grp 1 (times 1 2 digit))). apply digits_group_run.
  - apply Hex. apply (Hno (Grp 1 (times 1 2 digit))). apply digits_group_run.
Qed.

Lemma day_name_needs_day (s : jsstring) :
  includes s (str "day") = false -> exec OpenAIService.DAY_NAME s = None.
Proof.
  intros Hn. destruct (exec OpenAIService.DAY_NAME s) as [[j st]|] eqn:E;
    [|reflexivity].
  exfalso. unfold exec in E. apply searchFrom_Some in E.
  destruct E as (pre & t & -> & Hin).
  unfold OpenAIService.DAY_NAME in Hin. cbn [run] in Hin.
  apply in_flat_map in Hin. destruct Hin as (s1 & H1 & Hin).
  apply in_map_iff in Hin. destruct Hin as (s2 & _ & Hin).
  apply in_flat_map in Hin. destruct Hin as (s3 & H3 & H4).
  apply run_rest in H1. destruct H1 as (w1 & E1).
  apply run_rest in H3. destruct H3 as (w3 & E3).
  apply run_lit_inv in H4. cbn [rest] in E1.
  rewrite E1, E3, H4 in Hn.
  replace (pre ++ w1 ++ w3 ++ str "day" ++ rest s2)
    with ((pre ++ w1 ++ w3) ++ str "day" ++ rest s2) in Hn
    by (rewrite <- !app_assoc; reflexivity).
  rewrite includes_intro in Hn. discriminate.
Qed.

Lemma month_name_needs_digit (s : jsstring) :
  Forall (fun c => isDigit c = false) s ->
  exec OpenAIService.MONTH_NAME s = None.
Proof.
  intros Hs. destruct (exec OpenAIService.MONTH_NAME s) as [[j st]|] eqn:E;
    [|reflexivity].
  exfalso. unfold exec in E. apply searchFrom_Some in E.
  destruct E as (pre & t & -> & Hin).
  change OpenAIService.MONTH_NAME
    with (Seq (Grp 1 (plus word))
           (Seq (plus ws)
             (Seq (Grp 2 (times 1 2 digit))
               (Seq (opt (Alt (lit (str "st")) (Alt (lit (str "nd"))
                            (Alt (lit (str "rd")) (lit (str "th"))))))
                    (opt (Seq (plus ws) (Grp 3 (times 4 4 digit)))))))) in Hin.
  change (run (Seq ?a ?b) ?x) with (flat_map (run b) (run a x)) in Hin.
  apply in_flat_map in Hin. destruct Hin as (s1 & H1 & Hin).
  change (run (Seq ?a ?b) ?x) with (flat_map (run b) (run a x)) in Hin.
  apply in_flat_map in Hin. destruct Hin as (s2 & H2 & Hin).
  change (run (Seq ?a ?b) ?x) with (flat_map (run b) (run a x)) in Hin.
  apply in_flat_map in Hin. destruct Hin as (s3 & H3 & _).
  apply run_rest in H1. destruct H1 as (w1 & E1).
  apply run_rest in H2. destruct H2 as (w2 & E2).
  apply digits_group_run in H3. destruct H3 as (w & E3 & Hw & Hl).
  destruct w as [|c w]; [cbn in Hl; lia|].
  inversion Hw as [|? ? Hc _]; subst.
  cbn [rest] in E1. rewrite E1, E2, E3 in Hs.
  rewrite Forall_forall in Hs.
  assert (Hin : In c (pre ++ w1 ++ w2 ++ (c :: w) ++ rest s3)).
  { apply in_or_app. right. apply in_or_app. right. apply in_or_app. right.
    left. reflexivity. }
  rewrite (Hs c Hin) in Hc. discriminate.
Qed.

Lemma toLowerCase_no_digit (s : jsstring) :
  Forall (fun c => isDigit c = false) s ->
  Forall (fun c => isDigit c = false) (toLowerCase s).
Proof.
  intros Hs. apply Forall_forall. intros c Hc.
  destruct (isDigit c) eqn:E; [|reflexivity].
  rewrite Forall_forall in Hs. rewrite <- (Hs c); [symmetry; exact E|].
  apply toLowerCase_digit; assumption.
Qed.

(** X22.  What [normalizeDateFormat] rejects: a string without digit that
    does not contain "day" (in any case) is answered [null]; it is not
    read as the current date. *)
Theorem unrecognised_dates_are_null (today : Date) (s : jsstring) :
  Forall (fun c => isDigit c = false) s ->
  includes (toLowerCase s) (str "day") = false ->
  OpenAIService.normalizeDateFormat today s = None.
Proof.
  intros Hs Hday.
  destruct (no_digit_not_numeric s Hs) as (H1 & H2 & H3).
  assert (Ht : includes (toLowerCase s) (str "today") = false).
  { destruct (includes (toLowerCase s) (str "today")) eqn:E; [|reflexivity].
    apply (includes_suffix _ (str "to") (str "day")) in E. congruence. }
  assert (Hy : includes (toLowerCase s) (str "yesterday") = false).
  { destruct (includes (toLowerCase s) (str "yesterday")) eqn:E;
      [|reflexivity].
    apply (includes_suffix _ (str "yester") (str "day")) in E. congruence. }
  unfold OpenAIService.normalizeDateFormat.
  destruct (length s =? 0); [reflexivity|].
  rewrite H1, H2, H3, Ht, Hy.
  rewrite (day_name_needs_day _ Hday).
  rewrite (month_name_needs_digit _ (toLowerCase_no_digit s Hs)).
  reflexivity.
Qed.

Lemma unrecognised_dates_are_null_witness :
  OpenAIService.normalizeDateFormat 20352%Z (str "Next week") = None.
Proof.
  apply unrecognised_dates_are_null; [repeat constructor|reflexivity].
Defined.

(** *** White space at the ends of the journal *)

Lemma fold_overwrite_trimmed (today : Date) (dates : list jsstring)
  (gs : dateEventsT) :
  Forall isSection gs ->
  Forall (fun s => Forall oneLine (snd s)) gs ->
  Forall (fun s => snd s <> []) gs ->
  forall r, trimmed r -> r <> [] ->
    trimmed (fold_left (overwriteDateSection today dates) gs r).
Proof.
  induction gs as [|[d ev] gs IH]; intros Hs Ho Hn r Htr Hne; [exact Htr|].
  inversion Hs as [|? ? Hs1 Hs']; subst.
  inversion Ho as [|? ? Ho1 Ho']; subst.
  inversion Hn as [|? ? Hn1 Hn']; subst.
  cbn [fold_left]. cbn [snd] in *.
  destruct (overwrite_step_frame today dates dates r d ev Hs1 Ho1 Hn1 Htr Hne
              (fun H => H)) as (Htr' & Hne' & _).
  apply IH; assumption.
Qed.

(** X15.  The journal keeps no white space at its ends: the result of
    [appendToJournal] has none for a multi-date payload and for a
    non-empty payload of entry lines, whatever the journal was; the result
    of [overwriteJournal] with a multi-date payload of single lines has
    none when the journal was not empty and had none. *)
Theorem journal_stays_trimmed (today : Date) (doc : jsstring)
  (bullets dates : list jsstring) :
  (hasMultipleDates bullets = true ->
   trimmed (appendToJournal today doc bullets))
  /\ (Forall isEvent bullets -> bullets <> [] ->
      trimmed (appendToJournal today doc bullets))
  /\ (hasMultipleDates bullets = true -> singleLines bullets ->
      trimmed doc -> doc <> [] ->
      trimmed (overwriteJournal today doc bullets dates)).
Proof.
  split; [|split].
  - apply appendToJournal_multi_trimmed.
  - intros He Hne.
    apply (single_append_trimmed today doc bullets He Hne
             (events_not_multi bullets He)).
  - intros Hm Hsl Htr Hne.
    rewrite (overwriteJournal_groups today doc bullets dates Hm).
    apply fold_overwrite_trimmed; auto.
    + apply groups_sections.
    + apply groups_oneLine. exact Hsl.
    + apply Forall_forall. intros g Hg. eapply groups_hasEvents. exact Hg.
Qed.

Lemma journal_stays_trimmed_witness :
  trimmed (overwriteJournal 20352%Z (str "9.21.2025
- a") [str "9.21.2025"; str "- b"; str "9.22.2025"; str "- c"]
             [str "9.21.2025"]).
Proof.
  apply (proj2 (proj2 (journal_stays_trimmed 20352%Z (str "9.21.2025
- a") [str "9.21.2025"; str "- b"; str "9.22.2025"; str "- c"]
             [str "9.21.2025"]))).
  - reflexivity.
  - single_lines.
  - reflexivity.
  - discriminate.
Defined.

(** *** Single-date overwrites *)

Lemma formatDate_header (today : Date) :
  (1000 <= getFullYear today <= 9999)%Z ->
  test DATE_HEADER (formatDate today) = true.
Proof.
  intros Hy. destruct (civil_ranges today) as [Hm Hd].
  unfold formatDate. apply date_key_intro.
  - apply stringOfZ_small. lia.
  - apply stringOfZ_small. lia.
  - apply stringOfZ_year. exact Hy.
Qed.

(** X23.  The single-date branch of [overwriteJournal], for a non-empty
    payload of entry lines.  When the current date is selected and has a
    header, the lines between its first header and the next date header
    are replaced by the payload.  In every other case (the date is not
    selected, or has no header) the result is that of [appendToJournal]:
    in particular, selecting the current date while the journal has no
    section for it appends the section (the current year having four
    digits). *)
Theorem single_date_overwrite (today : Date) (doc : jsstring)
  (bullets dates : list jsstring) :
  Forall isEvent bullets -> bullets <> [] ->
  (arrayIncludes dates (formatDate today) = true ->
   hasDateHeader doc (formatDate today) = true ->
   exists before hdr body after,
     docLines doc = before ++ hdr :: body ++ after
     /\ trim hdr = formatDate today
     /\ Forall (fun l => eqs (trim l) (formatDate today) = false) before
     /\ Forall (fun l => isHeaderLine l = false) body
     /\ stopsAt (fun l => negb (isHeaderLine l)) after
     /\ overwriteJournal today doc bullets dates
        = join [NL] (before ++ hdr :: bullets ++ after))
  /\ ((1000 <= getFullYear today <= 9999)%Z ->
      arrayIncludes dates (formatDate today) = false
      \/ hasDateHeader doc (formatDate today) = false ->
      overwriteJournal today doc bullets dates
      = appendToJournal today doc bullets).
Proof.
  intros He Hne.
  pose proof (events_not_multi bullets He) as Hm.
  assert (Hov : overwriteJournal today doc bullets dates
                = if arrayIncludes dates (formatDate today)
                  then overwriteSingleDate today doc bullets (formatDate today)
                  else appendToJournal today doc bullets).
  { unfold overwriteJournal. rewrite (length_eqb_0 bullets Hne), Hm.
    reflexivity. }
  split.
  - intros Hsel Hh. rewrite Hov, Hsel.
    destruct (overwrite_existing_ex today doc (formatDate today) bullets Hh)
      as (before & hdr & body & after & H1 & H2 & H3 & H4 & H5 & H6).
    exists before, hdr, body, after. auto 10.
  - intros Hy Hcase. rewrite Hov.
    destruct (arrayIncludes dates (formatDate today)) eqn:Hsel;
      [|reflexivity].
    destruct Hcase as [Hcase|Hh]; [discriminate|].
    rewrite (overwrite_missing today doc (formatDate today) bullets Hh).
    rewrite (append_new_section today doc (formatDate today) bullets);
      [|split; [apply formatDate_header; exact Hy|exact He]|exact Hne|exact Hh].
    rewrite (appendToJournal_single today doc bullets Hm Hne), Hh.
    destruct (trim doc) as [|c t].
    + change (0 <? length (@nil char)) with false. cbv iota.
      rewrite <- !app_assoc. reflexivity.
    + change (0 <? length (c :: t)) with true. cbv iota.
      rewrite <- !app_assoc. reflexivity.
Qed.

Lemma single_date_overwrite_witness :
  overwriteJournal 20352%Z (str "9.20.2025
- k") [str "- a"] [str "9.21.2025"]
  = appendToJournal 20352%Z (str "9.20.2025
- k") [str "- a"].
Proof.
  refine (proj2 (single_date_overwrite 20352%Z (str "9.20.2025
- k") [str "- a"] [str "9.21.2025"] _ _) _ _).
  - repeat constructor.
  - discriminate.
  - vm_compute. split; discriminate.
  - right. reflexivity.
Defined.
